(** * Hong Kong transit notice scraper: notice store and reconciliation pass

    A shallow embedding of [src/storage.ts] (the notice store and the
    document fetcher) and of the reconciliation loop shared by
    [src/scrapers/kmb.ts] and [src/scrapers/ctb.ts], with the properties
    of the specification stated and settled against it.

    Modelling conventions.
    - A JavaScript object used as a dictionary is a [gmap] with string
      keys: the map of its own properties.  The persisted [metadata.json]
      is the three-level map company code -> route -> notice id -> notice.
    - A read [o[k]] of such an object answers the own property [k] if
      there is one, and the member [k] of [Object.prototype] otherwise:
      [member3] is the read [metadata[c]?.[r]?.[n]] of the store, with the
      members of [Object.prototype] as a process has them at its start.
      Of the built-ins themselves the model knows that they are objects
      and that a built-in function has a non-empty [name]; a read of any
      other member of one is [Unlisted].
    - A call that assigns to a property of a built-in, or that reads an
      unlisted member, has the result [Outside]: it is followed up to the
      end of the call, the loops of a pass stop there, and the rest of
      the process is outside the model.  Every call is taken to start
      with the built-ins as a process has them at its start.
    - A [Date] is its number of milliseconds since the epoch.  A date
      written to the JSON file and read back is identified with the date.
    - [async] functions are awaited one after the other in the source, so
      they are functions from a world to a result and a world; an
      exception is the [Throw] result.  The modules are ES modules, hence
      strict: an assignment to a property of a string throws a
      [TypeError].
    - The network is a read-only environment: which URL answers with what.
      File-system writes are taken to succeed, directories are not
      modelled ([ensureDir] has no counterpart), and paths are those of
      a POSIX system.
    - A pass of one scraper runs alone.  [src/index.ts] starts the two
      scrapers under one [Promise.all]; their interleaving on the shared
      file is outside the model. *)

From Stdlib Require Import ZArith Ascii String List Lia.
From stdpp Require Import base option gmap strings list fin_maps.

Local Open Scope string_scope.
Local Open Scope Z_scope.

(** ** Data model ([src/types.ts]) *)

Definition Date := Z.

Record Notice := mkNotice {
  notice_id : string;
  pdfUrl : string;
  route : string;
  discoveredAt : Date;
  isActive : bool;
  lastSeenAt : option Date
}.

Inductive CompanyCode := KMB | CTB | NWFB.

Record CompanyMetadata := mkCompany {
  name : string;
  code : CompanyCode
}.

Record Route := mkRoute {
  r_route : string;
  bound : option Z
}.

Definition code_string (c : CompanyCode) : string :=
  match c with
  | KMB => "KMB"
  | CTB => "CTB"
  | NWFB => "NWFB"
  end.

(** Field updates [x.f = v] on a notice object. *)
Definition set_discoveredAt (d : Date) (x : Notice) : Notice :=
  mkNotice (notice_id x) (pdfUrl x) (route x) d (isActive x) (lastSeenAt x).

Definition set_isActive (b : bool) (x : Notice) : Notice :=
  mkNotice (notice_id x) (pdfUrl x) (route x) (discoveredAt x) b (lastSeenAt x).

Definition set_lastSeenAt (d : Date) (x : Notice) : Notice :=
  mkNotice (notice_id x) (pdfUrl x) (route x) (discoveredAt x) (isActive x) (Some d).

(** The [Metadata] interface of [storage.ts]. *)
Abbreviation RouteData := (gmap string Notice).
Abbreviation CompanyData := (gmap string (gmap string Notice)).
Abbreviation Metadata := (gmap string (gmap string (gmap string Notice))).

(** The record that the file holds under the three keys: the own
    property [n] of the own property [r] of the own property [c]. *)
Definition lookup3 (m : Metadata) (c r n : string) : option Notice :=
  match m !! c with
  | Some cd =>
      match cd !! r with
      | Some rd => rd !! n
      | None => None
      end
  | None => None
  end.

(** The names of the members of [Object.prototype]: what an object
    literal, or an object that [JSON.parse] builds, answers from its
    prototype when it has no own property of that name.  All of them are
    functions, except [__proto__], which reads as [Object.prototype]
    itself. *)
Definition object_prototype_members : list string :=
  ["constructor"; "__defineGetter__"; "__defineSetter__"; "hasOwnProperty";
   "__lookupGetter__"; "__lookupSetter__"; "isPrototypeOf"; "propertyIsEnumerable";
   "toString"; "valueOf"; "__proto__"; "toLocaleString"].

Definition inherited (key : string) : bool :=
  existsb (String.eqb key) object_prototype_members.

(** What a read of the store comes to, as far as the code tells the
    values apart: by their truth value and by what an assignment to one
    of their properties does. *)
Inductive Member :=
| Own (x : Notice)
| Undefined
| BuiltinObject
| BuiltinString
| Unlisted.

(** [metadata[c]?.[r]?.[n]].  Under an own route, a notice id that is
    not an own property reads the member of [Object.prototype] of that
    name, an object.  A route that is not an own property reads the
    member of that name: of a function, [name] is a non-empty string; the
    other members of the built-ins are not listed.  The same holds one
    level up, for a company key that is not an own property; none of the
    company codes of [src/types.ts] names a member of
    [Object.prototype]. *)
Definition member3 (m : Metadata) (c r n : string) : Member :=
  match m !! c with
  | Some cd =>
      match cd !! r with
      | Some rd =>
          match rd !! n with
          | Some x => Own x
          | None => if inherited n then BuiltinObject else Undefined
          end
      | None =>
          if inherited r then
            if String.eqb r "__proto__" then Unlisted
            else if String.eqb n "name" then BuiltinString
            else Unlisted
          else Undefined
      end
  | None => if inherited c then Unlisted else Undefined
  end.

(** [if (!metadata[c]) metadata[c] = {}]: a key that names a member of
    [Object.prototype] reads as that member, which is truthy, and gets no
    object of its own. *)
Definition ensure_company (c : string) (m : Metadata) : Metadata :=
  match m !! c with
  | Some _ => m
  | None => if inherited c then m else <[c := ∅]> m
  end.

(** [if (!metadata[c][r]) metadata[c][r] = {}]: a route that names a
    member of [Object.prototype] reads as that member, which is truthy,
    and gets no object of its own. *)
Definition ensure_route (c r : string) (m : Metadata) : Metadata :=
  match m !! c with
  | Some cd =>
      match cd !! r with
      | Some _ => m
      | None => if inherited r then m else <[c := <[r := ∅]> cd]> m
      end
  | None => m
  end.

(** [metadata[c][r][n] = x], for [metadata[c][r]] an own property. *)
Definition put_notice (c r n : string) (x : Notice) (m : Metadata) : Metadata :=
  match m !! c with
  | Some cd =>
      match cd !! r with
      | Some rd => <[c := <[r := <[n := x]> rd]> cd]> m
      | None => m
      end
  | None => m
  end.

(** ** Strings *)

Fixpoint includes (sub s : string) : bool :=
  String.prefix sub s ||
  match s with
  | EmptyString => false
  | String _ s' => includes sub s'
  end.

(** [s.split(sep)] for a one-character separator: the list of the
    segments between the separators, never empty. *)
Fixpoint split (sep : ascii) (s : string) : list string :=
  match s with
  | EmptyString => [EmptyString]
  | String a s' =>
      if Ascii.eqb a sep then EmptyString :: split sep s'
      else match split sep s' with
           | seg :: rest => String a seg :: rest
           | [] => [String a EmptyString]
           end
  end.

Fixpoint has_char (c : ascii) (s : string) : bool :=
  match s with
  | EmptyString => false
  | String a s' => Ascii.eqb a c || has_char c s'
  end.

Fixpoint ends_with (suffix s : string) : bool :=
  String.eqb suffix s ||
  match s with
  | EmptyString => false
  | String _ s' => ends_with suffix s'
  end.

(** [String(n)] for an integer. *)
Definition digit_char (d : Z) : ascii := ascii_of_nat (48 + Z.to_nat d).

Fixpoint digits_of (fuel : nat) (n : Z) (acc : string) : string :=
  match fuel with
  | O => acc
  | S fuel' =>
      let acc' := String (digit_char (n mod 10)) acc in
      if n <? 10 then acc' else digits_of fuel' (n / 10) acc'
  end.

Definition string_of_Z (n : Z) : string :=
  if n <? 0
  then String "-" (digits_of (S (Z.to_nat (Z.log2 (- n)))) (- n) "")
  else digits_of (S (Z.to_nat (Z.log2 n))) n "".

Fixpoint repeat_char (n : nat) (c : ascii) : string :=
  match n with
  | O => ""
  | S n' => String c (repeat_char n' c)
  end.

(** [s.padStart(n, c)] for a one-character pad. *)
Definition padStart (n : nat) (c : ascii) (s : string) : string :=
  repeat_char (n - String.length s) c ++ s.

(** ** Paths ([path.join] of Node, POSIX flavour) *)

Fixpoint join_with (sep : string) (segs : list string) : string :=
  match segs with
  | [] => ""
  | [x] => x
  | x :: rest => x ++ sep ++ join_with sep rest
  end.

(** [normalizeString], on the segments between the slashes; [res] is the
    list of the segments kept so far, the last one first. *)
Fixpoint normalizeString (segs : list string) (allowAboveRoot : bool)
    (res : list string) : list string :=
  match segs with
  | [] => rev res
  | seg :: rest =>
      if String.eqb seg "" || String.eqb seg "." then
        normalizeString rest allowAboveRoot res
      else if String.eqb seg ".." then
        match res with
        | last :: res' =>
            if String.eqb last ".." then
              normalizeString rest allowAboveRoot
                (if allowAboveRoot then ".." :: res else res)
            else normalizeString rest allowAboveRoot res'
        | [] =>
            normalizeString rest allowAboveRoot
              (if allowAboveRoot then [".."] else [])
        end
      else normalizeString rest allowAboveRoot (seg :: res)
  end.

Definition path_normalize (path : string) : string :=
  if String.eqb path "" then "."
  else
    let isAbsolute := String.prefix "/" path in
    let trailingSeparator := ends_with "/" path in
    let body :=
      join_with "/" (normalizeString (split "/" path) (negb isAbsolute) []) in
    if String.eqb body "" then
      if isAbsolute then "/" else if trailingSeparator then "./" else "."
    else
      let body' := if trailingSeparator then body ++ "/" else body in
      if isAbsolute then "/" ++ body' else body'.

Definition path_join (args : list string) : string :=
  match List.filter (fun a => negb (String.eqb a "")) args with
  | [] => "."
  | parts => path_normalize (join_with "/" parts)
  end.

(** ** Calendar fields of a date *)

Definition ms_per_day : Z := 86400000.

(** Year and month (1 to 12) of the day [days] days after 1970-01-01,
    proleptic Gregorian calendar. *)
Definition civil_from_days (days : Z) : Z * Z :=
  let z := days + 719468 in
  let era := z / 146097 in
  let doe := z mod 146097 in
  let yoe := (doe - doe / 1460 + doe / 36524 - doe / 146096) / 365 in
  let y := yoe + era * 400 in
  let doy := doe - (365 * yoe + yoe / 4 - yoe / 100) in
  let mp := (5 * doy + 2) / 153 in
  let m := if mp <? 10 then mp + 3 else mp - 9 in
  (if m <=? 2 then y + 1 else y, m).

(** ** The world: the metadata file and the downloaded documents *)

Inductive FileState :=
| Missing
| Unparsable
| Stored (m : Metadata).

Record World := mkWorld {
  metadata_file : FileState;
  pdf_files : gmap string string
}.

(** How a call ends: it returns, it throws, or it leaves the model (it
    has assigned to a built-in of the runtime, or read a member of one
    that the model does not list). *)
Inductive Result (A : Type) :=
| Ok (a : A)
| Throw (msg : string)
| Outside.
Arguments Ok {A} a.
Arguments Throw {A} msg.
Arguments Outside {A}.

(** What a [fetch] and the reading of its body can come to: the request
    is rejected, the status is not ok, the body does not parse, or there
    is a payload. *)
Inductive Response (A : Type) :=
| Rejected
| NotOk
| Malformed
| Payload (a : A).
Arguments Rejected {A}.
Arguments NotOk {A}.
Arguments Malformed {A}.
Arguments Payload {A} a.

(** The environment of a run: the process and the remote services. *)
Record Env := mkEnv {
  cwd : string;
  timezoneOffset : Date -> Z;
  clock : Date;
  http_pdf : string -> Response string;
  kmb_route_api : Response (list (string * Z));
  kmb_notice_api : string -> option Z -> Response (option (list (string * string)));
  ctb_route_api : Response (list string);
  ctb_notice_api : string -> Response (option (list string))
}.

(** A computation over a state [S] that may throw or leave the model. *)
Definition M (S A : Type) : Type := S -> Result A * S.

Definition ret {S A} (a : A) : M S A := fun s => (Ok a, s).

Definition bind {S A B} (m : M S A) (k : A -> M S B) : M S B :=
  fun s =>
    match m s with
    | (Ok a, s') => k a s'
    | (Throw e, s') => (Throw e, s')
    | (Outside, s') => (Outside, s')
    end.

Definition throw {S A} (msg : string) : M S A := fun s => (Throw msg, s).

Definition outside {S A} : M S A := fun s => (Outside, s).

(** [await] of a request that touches no state: its outcome, as it is. *)
Definition await {S A} (r : Result A) : M S A := fun s => (r, s).

(** [try { m } catch (error) { console.error(...) }] *)
Definition try_catch {S} (m : M S unit) : M S unit :=
  fun s =>
    match m s with
    | (Ok a, s') => (Ok a, s')
    | (Throw _, s') => (Ok tt, s')
    | (Outside, s') => (Outside, s')
    end.

Notation "'let*' x := m 'in' k" := (bind m (fun x => k))
  (at level 10, x name, m at level 100, k at level 200).
Notation "'run' m 'in' k" := (bind m (fun _ => k))
  (at level 10, m at level 100, k at level 200).

(** [for (const x of l) { body }] *)
Fixpoint for_of {S A} (l : list A) (body : A -> M S unit) : M S unit :=
  match l with
  | [] => ret tt
  | x :: l' => run body x in for_of l' body
  end.

(** ** The notice store ([src/storage.ts]) *)

Section Storage.

Variable E : Env.

(** [date.getFullYear()] and [date.getMonth()], in local time. *)
Definition local_days (date : Date) : Z :=
  (date - timezoneOffset E date * 60000) / ms_per_day.

Definition getFullYear (date : Date) : Z := fst (civil_from_days (local_days date)).

Definition getMonth (date : Date) : Z := snd (civil_from_days (local_days date)) - 1.

Definition DATA_DIR : string := path_join [cwd E; "data"].

(** [getMetadata]: any failure to read or parse the file yields [{}]. *)
Definition getMetadata : M World Metadata :=
  fun w =>
    match metadata_file w with
    | Stored m => (Ok m, w)
    | Missing | Unparsable => (Ok ∅, w)
    end.

Definition saveMetadata (metadata : Metadata) : M World unit :=
  fun w => (Ok tt, mkWorld (Stored metadata) (pdf_files w)).

Definition downloadPdf (url destPath : string) : M World unit :=
  fun w =>
    match http_pdf E url with
    | Payload buffer =>
        (Ok tt, mkWorld (metadata_file w) (<[destPath := buffer]> (pdf_files w)))
    | Rejected => (Throw "fetch failed", w)
    | NotOk | Malformed => (Throw "Failed to download PDF", w)
    end.

Definition generatePdfPath (company : CompanyMetadata) (route noticeId : string)
    (date : Date) : string :=
  let year := getFullYear date in
  let month := padStart 2 "0" (string_of_Z (getMonth date + 1)) in
  let filename := if includes ".pdf" noticeId then noticeId else noticeId ++ ".pdf" in
  path_join [DATA_DIR; code_string (code company); route; string_of_Z year; month; filename].

(** [noticeExists]: whether the document of the notice is on disk. *)
Definition noticeExists (company : CompanyMetadata) (route noticeId : string)
    (date : Date) : M World bool :=
  fun w =>
    match pdf_files w !! generatePdfPath company route noticeId date with
    | Some _ => (Ok true, w)
    | None => (Ok false, w)
    end.

Definition getActiveNotices (company : CompanyMetadata) : M World (gset string) :=
  let* metadata := getMetadata in
  let companyData := default ∅ (metadata !! code_string (code company)) in
  ret (map_fold (fun route routeData activeNotices =>
         map_fold (fun noticeId notice activeNotices =>
           if isActive notice
           then {[ route ++ ":" ++ noticeId ]} ∪ activeNotices
           else activeNotices) activeNotices routeData)
       ∅ companyData).

Definition addNotice (notice : Notice) (company : CompanyMetadata) (date : Date)
    (pdfUrl : string) : M World unit :=
  let* metadata := getMetadata in
  let c := code_string (code company) in
  let metadata := ensure_company c metadata in
  let metadata := ensure_route c (route notice) metadata in
  match member3 metadata c (route notice) (notice_id notice) with
  | Undefined =>
      let pdfPath := generatePdfPath company (route notice) (notice_id notice) date in
      run downloadPdf pdfUrl pdfPath in
      let notice := set_discoveredAt date notice in
      saveMetadata (put_notice c (route notice) (notice_id notice) notice metadata)
  | Own existingNotice =>
      let existingNotice := set_isActive true (set_lastSeenAt date existingNotice) in
      saveMetadata (put_notice c (route notice) (notice_id notice) existingNotice metadata)
  | BuiltinObject =>
      (* [existingNotice] is a built-in: the two fields are set on it *)
      run saveMetadata metadata in
      outside
  | BuiltinString => throw "TypeError"
  | Unlisted => outside
  end.

Definition markInactive (route noticeId : string) (company : CompanyMetadata)
    : M World unit :=
  let* metadata := getMetadata in
  let c := code_string (code company) in
  match member3 metadata c route noticeId with
  | Own existing =>
      saveMetadata (put_notice c route noticeId (set_isActive false existing) metadata)
  | Undefined => ret tt
  | BuiltinObject =>
      (* [isActive] is set on a built-in *)
      run saveMetadata metadata in
      outside
  | BuiltinString => throw "TypeError"
  | Unlisted => outside
  end.

Definition updateLastSeen (route noticeId : string) (date : Date)
    (company : CompanyMetadata) : M World unit :=
  let* metadata := getMetadata in
  let c := code_string (code company) in
  match member3 metadata c route noticeId with
  | Own existing =>
      saveMetadata (put_notice c route noticeId (set_lastSeenAt date existing) metadata)
  | Undefined => ret tt
  | BuiltinObject =>
      (* [lastSeenAt] is set on a built-in *)
      run saveMetadata metadata in
      outside
  | BuiltinString => throw "TypeError"
  | Unlisted => outside
  end.

Definition noticeExistsInMetadata (company : CompanyMetadata) (route noticeId : string)
    : M World bool :=
  let* metadata := getMetadata in
  match member3 metadata (code_string (code company)) route noticeId with
  | Own _ | BuiltinObject | BuiltinString => ret true
  | Undefined => ret false
  | Unlisted => outside
  end.

End Storage.

(** ** The reconciliation pass ([src/scrapers/kmb.ts], [src/scrapers/ctb.ts]) *)

(** The state of a pass: the [seenNotices] set of the run and the world. *)
Record Pass := mkPass {
  seenNotices : gset string;
  world : World
}.

Definition on_world {A} (m : M World A) : M Pass A :=
  fun s =>
    match m (world s) with
    | (r, w) => (r, mkPass (seenNotices s) w)
    end.

(** [seenNotices.add(noticeKey)] *)
Definition seen_add (noticeKey : string) : M Pass unit :=
  fun s => (Ok tt, mkPass ({[ noticeKey ]} ∪ seenNotices s) (world s)).

(** Runs a pass from an empty [seenNotices], which is dropped at the end. *)
Definition with_seen {A} (m : M Pass A) : M World A :=
  fun w =>
    match m (mkPass ∅ w) with
    | (r, s) => (r, world s)
    end.

Definition KMB_COMPANY : CompanyMetadata := mkCompany "KMB" KMB.
Definition CTB_COMPANY : CompanyMetadata := mkCompany "Citybus" CTB.

Definition KMB_PDF_API (url : string) : string :=
  "https://search.kmb.hk/KMBWebSite/AnnouncementPicture.ashx?url=" ++ url.

Section Scrapers.

Variable E : Env.

(** The [uniqueRoutes] map of [fetchKMBRoutes]: the first route of each
    key, in the order of first insertion. *)
Fixpoint uniqueKMBRoutes (routes : list (string * Z)) (keys : list string) : list Route :=
  match routes with
  | [] => []
  | (r, b) :: rest =>
      let key := r ++ "_" ++ string_of_Z b in
      if existsb (String.eqb key) keys then uniqueKMBRoutes rest keys
      else mkRoute r (Some b) :: uniqueKMBRoutes rest (key :: keys)
  end.

Fixpoint uniqueCTBRoutes (routes : list string) (keys : list string) : list Route :=
  match routes with
  | [] => []
  | r :: rest =>
      if existsb (String.eqb r) keys then uniqueCTBRoutes rest keys
      else mkRoute r None :: uniqueCTBRoutes rest (r :: keys)
  end.

Definition fetchKMBRoutes : Result (list Route) :=
  match kmb_route_api E with
  | Payload routes => Ok (uniqueKMBRoutes routes [])
  | Rejected => Throw "fetch failed"
  | NotOk => Throw "Failed to fetch KMB routes"
  | Malformed => Throw "SyntaxError"
  end.

Definition fetchCTBRoutes : Result (list Route) :=
  match ctb_route_api E with
  | Payload routes => Ok (uniqueCTBRoutes routes [])
  | Rejected => Throw "fetch failed"
  | NotOk => Throw "Failed to fetch CTB routes"
  | Malformed => Throw "SyntaxError"
  end.

Definition kmb_notice (route : string) (raw : string * string) : Notice :=
  mkNotice (fst raw) (KMB_PDF_API (snd raw)) route (clock E) true None.

(** [fetchKMBNotices] of the first [kmb.ts]: a bad status and a bad body
    both give no notices. *)
Definition fetchKMBNotices (rt : Route) : Result (list Notice) :=
  match kmb_notice_api E (r_route rt) (bound rt) with
  | Payload (Some data) => Ok (map (kmb_notice (r_route rt)) data)
  | Payload None => Ok []
  | NotOk => Ok []
  | Malformed => Ok []
  | Rejected => Throw "fetch failed"
  end.

(** [fetchKMBNotices] of the second [kmb.ts]: every failure throws. *)
Definition fetchKMBNotices_strict (rt : Route) : Result (list Notice) :=
  match kmb_notice_api E (r_route rt) (bound rt) with
  | Payload (Some data) => Ok (map (kmb_notice (r_route rt)) data)
  | Payload None => Throw "TypeError"
  | NotOk => Throw "Failed to fetch KMB notices"
  | Malformed => Throw "SyntaxError"
  | Rejected => Throw "fetch failed"
  end.

Definition ctb_notice (route : string) (filename : string) : Notice :=
  mkNotice filename ("https://mobile.citybus.com.hk/nwp3/notice/" ++ filename)
    route (clock E) true None.

Definition fetchCTBNotices (rt : Route) : Result (list Notice) :=
  match ctb_notice_api E (r_route rt) with
  | Payload (Some data) => Ok (map (ctb_notice (r_route rt)) data)
  | Payload None => Ok []
  | NotOk => Throw "Failed to fetch CTB notices"
  | Malformed => Throw "SyntaxError"
  | Rejected => Throw "fetch failed"
  end.

(** The body of the inner loop: one notice of one route. *)
Definition scanNotice (company : CompanyMetadata) (now : Date) (rt : Route)
    (notice : Notice) : M Pass unit :=
  let noticeKey := r_route rt ++ ":" ++ notice_id notice in
  run seen_add noticeKey in
  let* exists_ := on_world (noticeExistsInMetadata company (r_route rt) (notice_id notice)) in
  if negb exists_
  then on_world (addNotice E notice company now (pdfUrl notice))
  else on_world (updateLastSeen (r_route rt) (notice_id notice) now company).

(** The body of the outer loop: one route, with its [try]/[catch]. *)
Definition scanRoute (company : CompanyMetadata)
    (fetchNotices : Route -> Result (list Notice)) (now : Date) (rt : Route)
    : M Pass unit :=
  try_catch
    (let* notices := await (fetchNotices rt) in
     for_of notices (scanNotice company now rt)).

(** [const [route, noticeId] = activeNotice.split(':')]; a missing second
    segment is [undefined], which as a property key reads [undefined]. *)
Definition decodeKey (activeNotice : string) : string * string :=
  match split ":" activeNotice with
  | route :: noticeId :: _ => (route, noticeId)
  | [route] => (route, "undefined")
  | [] => ("undefined", "undefined")
  end.

(** The body of the last loop. *)
Definition retireNotice (company : CompanyMetadata) (activeNotice : string)
    : M Pass unit :=
  fun s =>
    if bool_decide (activeNotice ∈ seenNotices s) then (Ok tt, s)
    else
      let '(route, noticeId) := decodeKey activeNotice in
      on_world (markInactive route noticeId company) s.

(** The loops of a scraper, after the route list is known.  The snapshot
    is walked in the order of [elements]; what the retirement loop does to
    a record is proved below for every order. *)
Definition reconcile (company : CompanyMetadata)
    (fetchNotices : Route -> Result (list Notice)) (now : Date)
    (routes : list Route) : M World unit :=
  let* activeNotices := getActiveNotices company in
  with_seen
    (run for_of routes (scanRoute company fetchNotices now) in
     for_of (elements activeNotices) (retireNotice company)).

(** [scrapeKMB] of the first [kmb.ts]: every route. *)
Definition scrapeKMB (now : Date) : M World unit :=
  let* routes := await fetchKMBRoutes in
  reconcile KMB_COMPANY fetchKMBNotices now routes.

(** [scrapeKMB] of the second [kmb.ts]: [routes.slice(0, 10)]. *)
Definition scrapeKMB_capped (now : Date) : M World unit :=
  let* routes := await fetchKMBRoutes in
  reconcile KMB_COMPANY fetchKMBNotices_strict now (take 10 routes).

(** [scrapeCTB]: [routes.slice(0, 10)]. *)
Definition scrapeCTB (now : Date) : M World unit :=
  let* routes := await fetchCTBRoutes in
  reconcile CTB_COMPANY fetchCTBNotices now (take 10 routes).

End Scrapers.

(** ** The guard of the scheduler ([src/index.ts]) *)

(** [process.env]: the variable [LAST_RUN_HKT] is unset or holds the ISO
    string of a date, which is identified with the date. *)
Record Process := mkProcess {
  LAST_RUN_HKT : option Date
}.

(** [getHongKongTime]: the clock, moved so that the local calendar fields
    of the result read as Hong Kong's wall clock. *)
Definition getHongKongTime (E : Env) : Date :=
  let now := clock E in
  let hktOffset := 8 in
  let utc := now + timezoneOffset E now * 60000 in
  utc + 3600000 * hktOffset.

(** The milliseconds since local midnight at [date]. *)
Definition local_time_of_day (E : Env) (date : Date) : Z :=
  (date - timezoneOffset E date * 60000) mod ms_per_day.

(** [date.setHours(hours, 0, 0, 0)]: the given hour of the local day of
    [date], the offset of the time zone being the same then as at
    [date]. *)
Definition setHours (E : Env) (hours : Z) (date : Date) : Date :=
  local_days E date * ms_per_day + hours * 3600000 + timezoneOffset E date * 60000.

Definition hasRunToday (E : Env) (hktNow : Date) (p : Process) : bool :=
  let today6AM := setHours E 6 hktNow in
  match LAST_RUN_HKT p with
  | None => false
  | Some lastRunDate => today6AM <=? lastRunDate
  end.

Definition markAsRun (hktNow : Date) (p : Process) : Process :=
  mkProcess (Some hktNow).

(** ** Vocabulary of the statements *)

(** The metadata a read sees: the stored one, or [{}]. *)
Definition current (w : World) : Metadata :=
  match metadata_file w with
  | Stored m => m
  | Missing | Unparsable => ∅
  end.

(** The record of a key in the persisted state. *)
Definition record (w : World) (c r n : string) : option Notice :=
  lookup3 (current w) c r n.

(** The mutations the store exports, as data, to speak of sequences of
    them. *)
Inductive StoreOp :=
| OpAddNotice (notice : Notice) (company : CompanyMetadata) (date : Date) (pdfUrl : string)
| OpMarkInactive (route noticeId : string) (company : CompanyMetadata)
| OpUpdateLastSeen (route noticeId : string) (date : Date) (company : CompanyMetadata).

Definition apply_op (E : Env) (op : StoreOp) : M World unit :=
  match op with
  | OpAddNotice notice company date pdfUrl => addNotice E notice company date pdfUrl
  | OpMarkInactive route noticeId company => markInactive route noticeId company
  | OpUpdateLastSeen route noticeId date company => updateLastSeen route noticeId date company
  end.

(** The world after a sequence of mutations; one that throws is passed
    over, as the [catch] of the scrapers does. *)
Definition apply_ops (E : Env) (ops : list StoreOp) (w : World) : World :=
  fold_left (fun w op => snd (apply_op E op w)) ops w.

(** A path segment that [path.join] keeps as it is: not empty, not [.]
    or [..], without a slash. *)
Definition clean_segment (s : string) : bool :=
  negb (String.eqb s "") && negb (String.eqb s ".") && negb (String.eqb s "..")
  && negb (has_char "/" s).

(** The file name and the path in the words of the specification: the
    suffix is appended unless the notice id ends in it. *)
Definition spec_filename (noticeId : string) : string :=
  if ends_with ".pdf" noticeId then noticeId else noticeId ++ ".pdf".

Definition spec_pdf_path (E : Env) (company : CompanyMetadata) (route noticeId : string)
    (date : Date) : string :=
  join_with "/"
    [DATA_DIR E; code_string (code company); route; string_of_Z (getFullYear E date);
     padStart 2 "0" (string_of_Z (getMonth E date + 1)); spec_filename noticeId].

(** [`${route.route}:${notice.id}`] *)
Definition noticeKey (rt : Route) (x : Notice) : string :=
  r_route rt ++ ":" ++ notice_id x.

(** The adapter files each notice under the route it was asked for. *)
Definition files_under_route (fetchNotices : Route -> Result (list Notice)) : Prop :=
  forall rt l, fetchNotices rt = Ok l -> Forall (fun x => route x = r_route rt) l.

(** What a scan may do between two states of a pass: the seen set grows;
    a record stays, with [lastSeenAt] set to the run's time at most, and
    then its key is seen; a key without a record gets one only if it is
    seen. *)
Definition scan_le (c : string) (now : Date) (s s' : Pass) : Prop :=
  seenNotices s ⊆ seenNotices s'
  /\ forall c' r n,
       match record (world s) c' r n with
       | Some x => record (world s') c' r n = Some x
                   \/ (record (world s') c' r n = Some (set_lastSeenAt now x)
                       /\ c' = c /\ r ++ ":" ++ n ∈ seenNotices s')
       | None => record (world s') c' r n = None
                 \/ (c' = c /\ r ++ ":" ++ n ∈ seenNotices s')
       end.

(** What the retirement loop may do between two states of a pass: the
    seen set and the documents stay; a record stays, at most with
    [isActive] cleared. *)
Definition retire_le (s s' : Pass) : Prop :=
  seenNotices s' = seenNotices s
  /\ pdf_files (world s') = pdf_files (world s)
  /\ forall c' r n,
       record (world s') c' r n = record (world s) c' r n
       \/ record (world s') c' r n = set_isActive false <$> record (world s) c' r n.

(** [s'] has seen every key and holds a record for every key that [s] has. *)
Definition covers (s s' : Pass) : Prop :=
  seenNotices s ⊆ seenNotices s'
  /\ forall c' r n, is_Some (record (world s) c' r n) -> is_Some (record (world s') c' r n).

(** The state of a pass after the scan of the routes. *)
Definition scanned (E : Env) (company : CompanyMetadata)
    (fetchNotices : Route -> Result (list Notice)) (now : Date) (routes : list Route)
    (w : World) : Pass :=
  snd (for_of routes (scanRoute E company fetchNotices now) (mkPass ∅ w)).

(** The state of a pass after the retirement loop over the snapshot [A]. *)
Definition retired (company : CompanyMetadata) (A : gset string) (s : Pass) : Pass :=
  snd (for_of (elements A) (retireNotice company) s).

(** The source reports notice [n] on route [r] in a pass over [routes]. *)
Definition reports (fetchNotices : Route -> Result (list Notice)) (routes : list Route)
    (r n : string) : Prop :=
  exists rt l x, rt ∈ routes /\ fetchNotices rt = Ok l /\ x ∈ l
                 /\ r_route rt = r /\ notice_id x = n.

(** No route name and no notice id that the source reports in a pass
    over [routes] is the name of a member of [Object.prototype]. *)
Definition plain_reports (fetchNotices : Route -> Result (list Notice))
    (routes : list Route) : Prop :=
  forall r n, reports fetchNotices routes r n -> inherited r = false /\ inherited n = false.

(** The adapter returns or throws. *)
Definition settles (fetchNotices : Route -> Result (list Notice)) : Prop :=
  forall rt, fetchNotices rt <> Outside.

(** Every document the source reports in a pass over [routes] can be
    downloaded. *)
Definition downloads_ok (E : Env) (fetchNotices : Route -> Result (list Notice))
    (routes : list Route) : Prop :=
  forall rt l x, rt ∈ routes -> fetchNotices rt = Ok l -> x ∈ l ->
                 exists buffer, http_pdf E (pdfUrl x) = Payload buffer.



(** The key a mutation addresses. *)
Definition op_key (op : StoreOp) : string * string * string :=
  match op with
  | OpAddNotice notice company _ _ =>
      (code_string (code company), route notice, notice_id notice)
  | OpMarkInactive route noticeId company => (code_string (code company), route, noticeId)
  | OpUpdateLastSeen route noticeId _ company => (code_string (code company), route, noticeId)
  end.

(** The key of a route in the [uniqueRoutes] map of [fetchKMBRoutes]:
    [`${route.route}_${route.bound}`]. *)
Definition route_key (rt : Route) : string :=
  r_route rt ++ "_" ++ match bound rt with
                       | Some b => string_of_Z b
                       | None => "undefined"
                       end.

(** A route of the KMB catalogue, as [fetchKMBRoutes] keeps it. *)
Definition kmb_route (raw : string * Z) : Route := mkRoute (fst raw) (Some (snd raw)).

(** [Scraper E now scrape company fetchNotices routes]: [scrape] is one of
    the three scrapers, run at [now] in an environment where its route
    list is fetched; [company] is its company, [fetchNotices] its adapter
    and [routes] the routes it scans. *)
Inductive Scraper (E : Env) (now : Date)
  : M World unit -> CompanyMetadata -> (Route -> Result (list Notice)) -> list Route -> Prop :=
| Scraper_KMB routes :
    fetchKMBRoutes E = Ok routes ->
    Scraper E now (scrapeKMB E now) KMB_COMPANY (fetchKMBNotices E) routes
| Scraper_KMB_capped routes :
    fetchKMBRoutes E = Ok routes ->
    Scraper E now (scrapeKMB_capped E now) KMB_COMPANY (fetchKMBNotices_strict E)
      (take 10 routes)
| Scraper_CTB routes :
    fetchCTBRoutes E = Ok routes ->
    Scraper E now (scrapeCTB E now) CTB_COMPANY (fetchCTBNotices E) (take 10 routes).

(** What a run of [company] at [now] may do between two worlds: a document
    stays; a record stays with its id, URL, route and [discoveredAt], its
    [lastSeenAt] kept or set to [now], its [isActive] kept or cleared, and
    is untouched if it belongs to another company; a key without a record
    gets one only in this company, discovered at [now], filed under the
    key, with its document written. *)
Definition run_le (E : Env) (company : CompanyMetadata) (now : Date) (w w' : World) : Prop :=
  (forall p, is_Some (pdf_files w !! p) -> is_Some (pdf_files w' !! p))
  /\ forall c' r n,
       match record w c' r n with
       | Some x =>
           exists y, record w' c' r n = Some y
             /\ notice_id y = notice_id x /\ pdfUrl y = pdfUrl x /\ route y = route x
             /\ discoveredAt y = discoveredAt x
             /\ (lastSeenAt y = lastSeenAt x \/ lastSeenAt y = Some now)
             /\ (isActive y = true -> isActive x = true)
             /\ (c' ≠ code_string (code company) -> y = x)
       | None =>
           record w' c' r n = None
           \/ (c' = code_string (code company)
               /\ exists y, record w' c' r n = Some y
                    /\ notice_id y = n /\ route y = r /\ discoveredAt y = now
                    /\ is_Some (pdf_files w' !! generatePdfPath E company r n now))
       end.

(** Every active record of the company has a route and a notice id
    without a colon. *)
Definition colon_free_keys (c : string) (w : World) : Prop :=
  forall r n x, record w c r n = Some x -> isActive x = true ->
                has_char ":" r = false /\ has_char ":" n = false.

(** ** Sample data *)

Definition sample_notice (id route : string) (active : bool) : Notice :=
  mkNotice id ("https://example.org/" ++ id) route 100 active None.

(** One KMB notice, retired earlier. *)
Definition retired_world : World :=
  mkWorld (Stored {[ "KMB" := {[ "1" := {[ "N1" := sample_notice "N1" "1" false ]} ]} ]}) ∅.

(** An environment in which KMB reports notice [N1] on route [1] and
    every document can be downloaded. *)
Definition reporting_env : Env :=
  mkEnv "/app" (fun _ => 0) 7
    (fun _ => Payload "%PDF")
    (Payload [("1", 1)])
    (fun r _ => if String.eqb r "1" then Payload (Some [("N1", "n1.pdf")]) else Payload (Some []))
    (Payload ["1"])
    (fun r => if String.eqb r "1" then Payload (Some ["N1"]) else Payload None).

(** An environment in which KMB reports notice [N1] on route [1] and no
    document can be downloaded. *)
Definition failing_env : Env :=
  mkEnv "/app" (fun _ => 0) 7
    (fun _ => NotOk)
    (Payload [("1", 1)])
    (fun r _ => if String.eqb r "1" then Payload (Some [("N1", "n1.pdf")]) else Payload (Some []))
    (Payload ["1"])
    (fun r => if String.eqb r "1" then Payload (Some ["N1"]) else Payload None).

Definition empty_world : World := mkWorld Missing ∅.

(** An environment in which Citybus and KMB list eleven routes and report
    no notice on any of them. *)
Definition eleven_routes_env : Env :=
  mkEnv "/app" (fun _ => 0) 7
    (fun _ => Payload "%PDF")
    (Payload [("1", 1); ("2", 1); ("3", 1); ("4", 1); ("5", 1); ("6", 1); ("7", 1);
              ("8", 1); ("9", 1); ("10", 1); ("11", 1)])
    (fun _ _ => Payload (Some []))
    (Payload ["1"; "2"; "3"; "4"; "5"; "6"; "7"; "8"; "9"; "10"; "11"])
    (fun _ => Payload (Some [])).

(** One active Citybus notice, on the eleventh route. *)
Definition eleventh_route_world : World :=
  mkWorld (Stored {[ "CTB" := {[ "11" := {[ "N1" := sample_notice "N1" "11" true ]} ]} ]}) ∅.

(** One active KMB notice. *)
Definition active_world : World :=
  mkWorld (Stored {[ "KMB" := {[ "1" := {[ "N1" := sample_notice "N1" "1" true ]} ]} ]}) ∅.

(** An environment in which no request gets an answer. *)
Definition offline_env : Env :=
  mkEnv "/app" (fun _ => 0) 7
    (fun _ => Rejected) Rejected (fun _ _ => Rejected) Rejected (fun _ => Rejected).

(** One active KMB notice, under a route whose name decodes, in the
    retirement loop, to the route [constructor] and the notice id
    [name]. *)
Definition inherited_route_world : World :=
  mkWorld (Stored {[ "KMB" := {[ "constructor:name" :=
                                   {[ "N1" := sample_notice "N1" "constructor:name" true ]} ]} ]})
          ∅.

(** An environment whose clock reads 22:00 UTC, the hour of the schedule,
    in a process that runs on UTC. *)
Definition scheduled_env : Env :=
  mkEnv "/app" (fun _ => 0) 1700085600000
    (fun _ => Payload "%PDF")
    (Payload [("1", 1)])
    (fun _ _ => Payload (Some []))
    (Payload ["1"])
    (fun _ => Payload (Some [])).

(** * Properties *)

(** ** The three-level map *)

Lemma getMetadata_eq w : getMetadata w = (Ok (current w), w).
Proof. unfold getMetadata, current. by destruct (metadata_file w). Qed.

Lemma current_stored m p : current (mkWorld (Stored m) p) = m.
Proof. reflexivity. Qed.

Lemma lookup3_empty c r n : lookup3 ∅ c r n = None.
Proof. unfold lookup3. by rewrite lookup_empty. Qed.

Lemma lookup3_ensure_company c m c' r' n' :
  lookup3 (ensure_company c m) c' r' n' = lookup3 m c' r' n'.
Proof.
  unfold ensure_company, lookup3.
  destruct (m !! c) eqn:Hc; [done|].
  destruct (inherited c); [done|].
  destruct (decide (c = c')) as [->|Hne].
  - by rewrite lookup_insert_eq, Hc, lookup_empty.
  - by rewrite lookup_insert_ne.
Qed.

Lemma lookup3_ensure_route c r m c' r' n' :
  lookup3 (ensure_route c r m) c' r' n' = lookup3 m c' r' n'.
Proof.
  unfold ensure_route, lookup3.
  destruct (m !! c) as [cd|] eqn:Hc; [|done].
  destruct (cd !! r) as [rd|] eqn:Hr; [done|].
  destruct (inherited r); [done|].
  destruct (decide (c = c')) as [->|Hne].
  - rewrite lookup_insert_eq, Hc.
    destruct (decide (r = r')) as [->|Hne].
    + by rewrite lookup_insert_eq, Hr, lookup_empty.
    + by rewrite lookup_insert_ne.
  - by rewrite lookup_insert_ne.
Qed.

Lemma lookup3_put_notice_eq c r n x m :
  is_Some (lookup3 m c r n) -> lookup3 (put_notice c r n x m) c r n = Some x.
Proof.
  unfold put_notice, lookup3. intros [y Hy].
  destruct (m !! c) as [cd|]; [|done].
  destruct (cd !! r) as [rd|]; [|done].
  by rewrite !lookup_insert_eq.
Qed.

Lemma lookup3_put_notice_ne c r n x m c' r' n' :
  (c, r, n) ≠ (c', r', n') ->
  lookup3 (put_notice c r n x m) c' r' n' = lookup3 m c' r' n'.
Proof.
  unfold put_notice, lookup3. intros Hne.
  destruct (m !! c) as [cd|] eqn:Hc; [|done].
  destruct (cd !! r) as [rd|] eqn:Hr; [|done].
  destruct (decide (c = c')) as [->|Hc']; [|by rewrite lookup_insert_ne].
  rewrite lookup_insert_eq, Hc.
  destruct (decide (r = r')) as [->|Hr']; [|by rewrite lookup_insert_ne].
  rewrite lookup_insert_eq, Hr.
  rewrite lookup_insert_ne; [done|congruence].
Qed.

Lemma put_notice_id c r n x m : lookup3 m c r n = Some x -> put_notice c r n x m = m.
Proof.
  unfold put_notice, lookup3.
  destruct (m !! c) as [cd|] eqn:Hc; [|done].
  destruct (cd !! r) as [rd|] eqn:Hr; [|done].
  intros Hn. by rewrite (insert_id rd), (insert_id cd), insert_id.
Qed.

Lemma lookup3_ensure c r m c' r' n' :
  lookup3 (ensure_route c r (ensure_company c m)) c' r' n' = lookup3 m c' r' n'.
Proof. by rewrite lookup3_ensure_route, lookup3_ensure_company. Qed.

(** ** Reads through the prototype chain *)

(** A read answers a record exactly when the record is an own property. *)
Lemma member3_Own m c r n x : member3 m c r n = Own x <-> lookup3 m c r n = Some x.
Proof.
  unfold member3, lookup3.
  destruct (m !! c) as [cd|]; [|destruct (inherited c); split; discriminate].
  destruct (cd !! r) as [rd|].
  - destruct (rd !! n) as [y|]; [split; congruence|].
    destruct (inherited n); split; discriminate.
  - destruct (inherited r); [|split; discriminate].
    destruct (String.eqb r "__proto__"); [split; discriminate|].
    destruct (String.eqb n "name"); split; discriminate.
Qed.

Lemma lookup3_member3 m c r n :
  lookup3 m c r n = match member3 m c r n with
                    | Own x => Some x
                    | _ => None
                    end.
Proof.
  destruct (member3 m c r n) as [x| | | |] eqn:Hm.
  - by apply member3_Own.
  - destruct (lookup3 m c r n) as [x|] eqn:Hl; [|done]. apply member3_Own in Hl. congruence.
  - destruct (lookup3 m c r n) as [x|] eqn:Hl; [|done]. apply member3_Own in Hl. congruence.
  - destruct (lookup3 m c r n) as [x|] eqn:Hl; [|done]. apply member3_Own in Hl. congruence.
  - destruct (lookup3 m c r n) as [x|] eqn:Hl; [|done]. apply member3_Own in Hl. congruence.
Qed.

(** At keys that name no member of [Object.prototype], a read answers
    the own record or nothing. *)
Lemma member3_plain m c r n :
  inherited c = false -> inherited r = false -> inherited n = false ->
  member3 m c r n = match lookup3 m c r n with
                    | Some x => Own x
                    | None => Undefined
                    end.
Proof.
  unfold member3, lookup3. intros Hc Hr Hn.
  destruct (m !! c) as [cd|]; [|by rewrite Hc].
  destruct (cd !! r) as [rd|]; [|by rewrite Hr].
  destruct (rd !! n) as [y|]; [done|]. by rewrite Hn.
Qed.

Lemma code_string_not_inherited c : inherited (code_string c) = false.
Proof. by destruct c. Qed.

(** After the two [if]s of [addNotice], a route that names no member of
    [Object.prototype] is an own property. *)
Lemma lookup3_ensured c r m :
  inherited c = false ->
  inherited r = false ->
  exists cd rd, ensure_route c r (ensure_company c m) !! c = Some cd /\ cd !! r = Some rd.
Proof.
  intros Hic Hin. unfold ensure_company, ensure_route.
  destruct (m !! c) as [cd|] eqn:Hc.
  - rewrite Hc. destruct (cd !! r) as [rd|] eqn:Hr.
    + eauto.
    + rewrite Hin. exists (<[r := ∅]> cd), ∅. by rewrite !lookup_insert_eq.
  - rewrite Hic, lookup_insert_eq, lookup_empty, Hin.
    exists (<[r := ∅]> ∅), ∅. by rewrite !lookup_insert_eq.
Qed.

(** A read that answers nothing after the two [if]s finds the route as an
    own property: the insert that follows lands in the file. *)
Lemma member3_ensured_Undefined c r n m :
  member3 (ensure_route c r (ensure_company c m)) c r n = Undefined ->
  exists cd rd, ensure_route c r (ensure_company c m) !! c = Some cd /\ cd !! r = Some rd.
Proof.
  destruct (inherited c) eqn:Hic.
  - unfold ensure_company. destruct (m !! c) as [cd|] eqn:Hm; rewrite ?Hic.
    + unfold member3, ensure_route. rewrite Hm.
      destruct (cd !! r) as [rd|] eqn:Hr; [eauto|].
      destruct (inherited r) eqn:Hin.
      * rewrite Hm, Hr. destruct (String.eqb r "__proto__"); [discriminate|].
        destruct (String.eqb n "name"); discriminate.
      * intros _. exists (<[r := ∅]> cd), ∅. by rewrite !lookup_insert_eq.
    + unfold ensure_route. rewrite Hm. unfold member3. rewrite Hm, Hic. discriminate.
  - destruct (inherited r) eqn:Hin; [|intros _; by apply lookup3_ensured].
    unfold member3.
    destruct (ensure_route c r (ensure_company c m) !! c) as [cd|] eqn:Hc.
    + destruct (cd !! r) as [rd|] eqn:Hr; [eauto|].
      rewrite Hin. destruct (String.eqb r "__proto__"); [discriminate|].
      destruct (String.eqb n "name"); discriminate.
    + unfold ensure_company, ensure_route in Hc.
      destruct (m !! c) as [cd|] eqn:Hm.
      * rewrite Hm in Hc. destruct (cd !! r); [congruence|]. rewrite Hin in Hc. congruence.
      * rewrite Hic, lookup_insert_eq, lookup_empty, Hin, lookup_insert_eq in Hc. discriminate.
Qed.

Lemma lookup3_put_ensured c r n x m :
  member3 (ensure_route c r (ensure_company c m)) c r n = Undefined ->
  lookup3 (put_notice c r n x (ensure_route c r (ensure_company c m))) c r n = Some x.
Proof.
  intros Hm. destruct (member3_ensured_Undefined c r n m Hm) as (cd & rd & Hc & Hr).
  unfold put_notice, lookup3. rewrite Hc, Hr. by rewrite !lookup_insert_eq.
Qed.

(** ** What each store operation does to a record *)

Section StoreFacts.

Variable E : Env.

(** The two guarded updates, by what the guard reads. *)
Lemma updateLastSeen_eq route noticeId date company w :
  updateLastSeen route noticeId date company w =
    match member3 (current w) (code_string (code company)) route noticeId with
    | Own existing =>
        (Ok tt, mkWorld (Stored (put_notice (code_string (code company)) route noticeId
                                   (set_lastSeenAt date existing) (current w))) (pdf_files w))
    | Undefined => (Ok tt, w)
    | BuiltinObject => (Outside, mkWorld (Stored (current w)) (pdf_files w))
    | BuiltinString => (Throw "TypeError", w)
    | Unlisted => (Outside, w)
    end.
Proof.
  unfold updateLastSeen, bind. rewrite getMetadata_eq. by destruct (member3 _ _ _ _).
Qed.

Lemma markInactive_eq route noticeId company w :
  markInactive route noticeId company w =
    match member3 (current w) (code_string (code company)) route noticeId with
    | Own existing =>
        (Ok tt, mkWorld (Stored (put_notice (code_string (code company)) route noticeId
                                   (set_isActive false existing) (current w))) (pdf_files w))
    | Undefined => (Ok tt, w)
    | BuiltinObject => (Outside, mkWorld (Stored (current w)) (pdf_files w))
    | BuiltinString => (Throw "TypeError", w)
    | Unlisted => (Outside, w)
    end.
Proof.
  unfold markInactive, bind. rewrite getMetadata_eq. by destruct (member3 _ _ _ _).
Qed.

Lemma updateLastSeen_Some route noticeId date company w x :
  record w (code_string (code company)) route noticeId = Some x ->
  updateLastSeen route noticeId date company w =
    (Ok tt, mkWorld (Stored (put_notice (code_string (code company)) route noticeId
                               (set_lastSeenAt date x) (current w))) (pdf_files w)).
Proof.
  unfold record, updateLastSeen, bind. rewrite getMetadata_eq.
  intros Hx%member3_Own. by rewrite Hx.
Qed.

(** Without a record under the key, [updateLastSeen] leaves the file's
    content and the documents as they are, however it ends; at a key that
    names no member of [Object.prototype] it returns and writes nothing. *)
Lemma updateLastSeen_None route noticeId date company w :
  record w (code_string (code company)) route noticeId = None ->
  exists res w',
    updateLastSeen route noticeId date company w = (res, w')
    /\ current w' = current w /\ pdf_files w' = pdf_files w
    /\ (res = Ok tt -> w' = w)
    /\ (inherited route = false -> inherited noticeId = false -> res = Ok tt).
Proof.
  unfold record, updateLastSeen, bind. rewrite getMetadata_eq. intros Hnone.
  pose proof (member3_plain (current w) (code_string (code company)) route noticeId
                (code_string_not_inherited _)) as Hplain.
  rewrite Hnone in Hplain. rewrite lookup3_member3 in Hnone.
  destruct (member3 (current w) _ route noticeId); [discriminate|..]; simpl;
    eexists _, _; (split; [reflexivity|]); repeat split; try done;
    intros Hr Hn; by specialize (Hplain Hr Hn).
Qed.

Lemma markInactive_Some route noticeId company w x :
  record w (code_string (code company)) route noticeId = Some x ->
  markInactive route noticeId company w =
    (Ok tt, mkWorld (Stored (put_notice (code_string (code company)) route noticeId
                               (set_isActive false x) (current w))) (pdf_files w)).
Proof.
  unfold record, markInactive, bind. rewrite getMetadata_eq.
  intros Hx%member3_Own. by rewrite Hx.
Qed.

Lemma markInactive_None route noticeId company w :
  record w (code_string (code company)) route noticeId = None ->
  exists res w',
    markInactive route noticeId company w = (res, w')
    /\ current w' = current w /\ pdf_files w' = pdf_files w
    /\ (res = Ok tt -> w' = w)
    /\ (inherited route = false -> inherited noticeId = false -> res = Ok tt).
Proof.
  unfold record, markInactive, bind. rewrite getMetadata_eq. intros Hnone.
  pose proof (member3_plain (current w) (code_string (code company)) route noticeId
                (code_string_not_inherited _)) as Hplain.
  rewrite Hnone in Hplain. rewrite lookup3_member3 in Hnone.
  destruct (member3 (current w) _ route noticeId); [discriminate|..]; simpl;
    eexists _, _; (split; [reflexivity|]); repeat split; try done;
    intros Hr Hn; by specialize (Hplain Hr Hn).
Qed.

(** The existence test answers true at a record, and at a key without a
    record answers false, or true for an inherited member, or leaves the
    model; the world is as it was. *)
Lemma noticeExistsInMetadata_Some company route noticeId w x :
  record w (code_string (code company)) route noticeId = Some x ->
  noticeExistsInMetadata company route noticeId w = (Ok true, w).
Proof.
  unfold record, noticeExistsInMetadata, bind. rewrite getMetadata_eq.
  intros Hx%member3_Own. by rewrite Hx.
Qed.

Lemma noticeExistsInMetadata_plain company route noticeId w :
  inherited route = false -> inherited noticeId = false ->
  noticeExistsInMetadata company route noticeId w =
    (Ok (match record w (code_string (code company)) route noticeId with
         | Some _ => true
         | None => false
         end), w).
Proof.
  intros Hr Hn. unfold record, noticeExistsInMetadata, bind.
  rewrite getMetadata_eq, member3_plain by first [done|apply code_string_not_inherited].
  by destruct (lookup3 _ _ _ _).
Qed.

Lemma noticeExistsInMetadata_false company route noticeId w :
  noticeExistsInMetadata company route noticeId w = (Ok false, w) ->
  member3 (current w) (code_string (code company)) route noticeId = Undefined.
Proof.
  unfold noticeExistsInMetadata, bind. rewrite getMetadata_eq.
  by destruct (member3 _ _ _ _).
Qed.

Lemma addNotice_existing notice company date url w x :
  record w (code_string (code company)) (route notice) (notice_id notice) = Some x ->
  addNotice E notice company date url w =
    (Ok tt, mkWorld (Stored (put_notice (code_string (code company)) (route notice)
                               (notice_id notice)
                               (set_isActive true (set_lastSeenAt date x))
                               (ensure_route (code_string (code company)) (route notice)
                                  (ensure_company (code_string (code company)) (current w)))))
                    (pdf_files w)).
Proof.
  unfold record, addNotice, bind. rewrite getMetadata_eq. intros Hx.
  rewrite <- (lookup3_ensure (code_string (code company)) (route notice)) in Hx.
  apply member3_Own in Hx. by rewrite Hx.
Qed.

(** The ways an insert can go: the key has a record, which is touched and
    set active; or it has none and the record is inserted with its
    document; or it has none and the insert does not return: then no
    record changes and no document is written, the world is untouched if
    the insert throws, and at a key that names no member of
    [Object.prototype] the insert throws because the download fails. *)
Lemma addNotice_cases notice company date url w :
  (exists x,
     record w (code_string (code company)) (route notice) (notice_id notice) = Some x
     /\ addNotice E notice company date url w =
          (Ok tt, mkWorld (Stored (put_notice (code_string (code company)) (route notice)
                                     (notice_id notice)
                                     (set_isActive true (set_lastSeenAt date x))
                                     (ensure_route (code_string (code company)) (route notice)
                                        (ensure_company (code_string (code company))
                                           (current w)))))
                          (pdf_files w)))
  \/ (exists buffer,
        record w (code_string (code company)) (route notice) (notice_id notice) = None
        /\ http_pdf E url = Payload buffer
        /\ member3 (ensure_route (code_string (code company)) (route notice)
                      (ensure_company (code_string (code company)) (current w)))
             (code_string (code company)) (route notice) (notice_id notice) = Undefined
        /\ addNotice E notice company date url w =
             (Ok tt,
              mkWorld
                (Stored (put_notice (code_string (code company)) (route notice)
                           (notice_id notice) (set_discoveredAt date notice)
                           (ensure_route (code_string (code company)) (route notice)
                              (ensure_company (code_string (code company)) (current w)))))
                (<[generatePdfPath E company (route notice) (notice_id notice) date := buffer]>
                   (pdf_files w))))
  \/ (exists res w',
        record w (code_string (code company)) (route notice) (notice_id notice) = None
        /\ addNotice E notice company date url w = (res, w')
        /\ res <> Ok tt
        /\ pdf_files w' = pdf_files w
        /\ (forall c' r' n', record w' c' r' n' = record w c' r' n')
        /\ (forall msg, res = Throw msg -> w' = w)
        /\ (inherited (route notice) = false -> inherited (notice_id notice) = false ->
            (forall buffer, http_pdf E url <> Payload buffer)
            /\ exists msg, res = Throw msg)).
Proof.
  unfold addNotice, bind. rewrite getMetadata_eq.
  set (c := code_string (code company)).
  set (m' := ensure_route c (route notice) (ensure_company c (current w))).
  pose proof (member3_plain m' c (route notice) (notice_id notice)
                (code_string_not_inherited _)) as Hplain.
  pose proof (lookup3_member3 m' c (route notice) (notice_id notice)) as Hl.
  unfold m' in Hl at 1. rewrite lookup3_ensure in Hl. fold (record w c (route notice) (notice_id notice)) in Hl.
  assert (Hrec : forall c' r' n', record (mkWorld (Stored m') (pdf_files w)) c' r' n'
                                  = record w c' r' n').
  { intros c' r' n'. unfold record. simpl. apply lookup3_ensure. }
  destruct (member3 m' c (route notice) (notice_id notice)) as [x| | | |] eqn:Hm.
  - left. by exists x.
  - right. unfold downloadPdf. destruct (http_pdf E url) as [| | |buffer] eqn:Hu.
    4:{ left. by exists buffer. }
    all: right; eexists _, w; split; [done|]; split; [reflexivity|];
      split; [done|]; split; [done|]; split; [done|]; split; [done|];
      intros _ _; split; [intros b; congruence|eauto].
  - right. right. simpl. eexists _, _. split; [done|]. split; [reflexivity|].
    split; [done|]. split; [done|]. split; [done|]. split; [done|].
    intros Hr Hn. specialize (Hplain Hr Hn). by destruct (lookup3 m' _ _ _).
  - right. right. exists (Throw "TypeError"), w.
    split; [done|]. split; [reflexivity|].
    split; [done|]. split; [done|]. split; [done|]. split; [done|].
    intros Hr Hn. specialize (Hplain Hr Hn). by destruct (lookup3 m' _ _ _).
  - right. right. exists Outside, w.
    split; [done|]. split; [reflexivity|].
    split; [done|]. split; [done|]. split; [done|]. split; [done|].
    intros Hr Hn. specialize (Hplain Hr Hn). by destruct (lookup3 m' _ _ _).
Qed.

Lemma addNotice_new_failed notice company date url w :
  record w (code_string (code company)) (route notice) (notice_id notice) = None ->
  inherited (route notice) = false -> inherited (notice_id notice) = false ->
  (forall buffer, http_pdf E url ≠ Payload buffer) ->
  exists msg, addNotice E notice company date url w = (Throw msg, w).
Proof.
  intros Hx Hr Hn Hfail.
  destruct (addNotice_cases notice company date url w)
    as [(x & Hk & _)|[(buffer & _ & Hu & _)|(res & w' & _ & Heq & _ & _ & _ & Hw & Hplain)]].
  - congruence.
  - by destruct (Hfail buffer).
  - destruct (Hplain Hr Hn) as (_ & msg & ->). exists msg. by rewrite Heq, (Hw msg).
Qed.

Lemma addNotice_new_ok notice company date url w buffer :
  record w (code_string (code company)) (route notice) (notice_id notice) = None ->
  inherited (route notice) = false -> inherited (notice_id notice) = false ->
  http_pdf E url = Payload buffer ->
  addNotice E notice company date url w =
    (Ok tt,
     mkWorld
       (Stored (put_notice (code_string (code company)) (route notice) (notice_id notice)
                  (set_discoveredAt date notice)
                  (ensure_route (code_string (code company)) (route notice)
                     (ensure_company (code_string (code company)) (current w)))))
       (<[generatePdfPath E company (route notice) (notice_id notice) date := buffer]>
          (pdf_files w))).
Proof.
  intros Hx Hr Hn Hu.
  destruct (addNotice_cases notice company date url w)
    as [(x & Hk & _)|[(buffer' & _ & Hu' & _ & Heq)|(res & w' & _ & _ & _ & _ & _ & _ & Hplain)]].
  - congruence.
  - rewrite Hu in Hu'. by injection Hu' as <-.
  - destruct (Hplain Hr Hn) as (Hfail & _). by destruct (Hfail buffer).
Qed.

End StoreFacts.

(** ** Claims about single store operations *)

(** C1 (the code departs from the claim).  At a retired record,
    [updateLastSeen] sets [lastSeenAt] and leaves [isActive] false, and so
    does a whole [scrapeKMB] run in which the source reports the notice
    again: the notice does not become active. *)
Theorem C1_updateLastSeen_leaves_retired :
  record (snd (updateLastSeen "1" "N1" 200 KMB_COMPANY retired_world)) "KMB" "1" "N1"
    = Some (mkNotice "N1" "https://example.org/N1" "1" 100 false (Some 200))
  /\ record (snd (scrapeKMB reporting_env 200 retired_world)) "KMB" "1" "N1"
    = Some (mkNotice "N1" "https://example.org/N1" "1" 100 false (Some 200)).
Proof. split; vm_compute; reflexivity. Qed.

(** C3.  The insert of a brand-new notice whose document cannot be
    downloaded persists no record for the notice, and when the insert
    throws, the world, the persisted state included, is as it was.  The
    insert does throw, at the download, when neither the route nor the
    notice id names a member of [Object.prototype]; at a name such as
    [toString], [addNotice] reads the inherited member as the existing
    notice and attempts no download. *)
Theorem C3_failed_download_persists_nothing (E : Env) (notice : Notice)
    (company : CompanyMetadata) (date : Date) (url : string) (w : World) :
  noticeExistsInMetadata company (route notice) (notice_id notice) w = (Ok false, w) ->
  (forall buffer, http_pdf E url ≠ Payload buffer) ->
  record (snd (addNotice E notice company date url w))
    (code_string (code company)) (route notice) (notice_id notice) = None
  /\ (forall msg, fst (addNotice E notice company date url w) = Throw msg ->
                  snd (addNotice E notice company date url w) = w)
  /\ (inherited (route notice) = false -> inherited (notice_id notice) = false ->
      exists msg, addNotice E notice company date url w = (Throw msg, w)).
Proof.
  intros Hnew%noticeExistsInMetadata_false Hfail.
  assert (Hnone : record w (code_string (code company)) (route notice) (notice_id notice)
                  = None).
  { unfold record. by rewrite lookup3_member3, Hnew. }
  destruct (addNotice_cases E notice company date url w)
    as [(x & Hk & _)|[(buffer & _ & Hu & _)|(res & w' & _ & Heq & _ & _ & Hrec & Hw & Hplain)]].
  - congruence.
  - by destruct (Hfail buffer).
  - rewrite Heq. simpl. split; [by rewrite Hrec|]. split; [exact Hw|].
    intros Hr Hn. destruct (Hplain Hr Hn) as (_ & msg & ->).
    exists msg. by rewrite (Hw msg).
Qed.

Lemma record_stored_put_eq c r n x m p :
  is_Some (lookup3 m c r n) ->
  record (mkWorld (Stored (put_notice c r n x m)) p) c r n = Some x.
Proof. apply lookup3_put_notice_eq. Qed.

Lemma record_stored_put_ne c r n x m p c' r' n' :
  (c, r, n) ≠ (c', r', n') ->
  record (mkWorld (Stored (put_notice c r n x m)) p) c' r' n' = lookup3 m c' r' n'.
Proof. apply lookup3_put_notice_ne. Qed.

(** ** Records after a mutation *)

Section RecordFacts.

Variable E : Env.
Variable company : CompanyMetadata.

Lemma record_updateLastSeen r n d w c' r' n' :
  record (snd (updateLastSeen r n d company w)) c' r' n' =
    if decide ((code_string (code company), r, n) = (c', r', n'))
    then set_lastSeenAt d <$> record w c' r' n'
    else record w c' r' n'.
Proof.
  destruct (record w (code_string (code company)) r n) as [x|] eqn:Hk.
  - rewrite (updateLastSeen_Some _ _ _ _ _ _ Hk). simpl. case_decide as Heq.
    + injection Heq as <- <- <-. rewrite Hk. apply record_stored_put_eq. by exists x.
    + by apply record_stored_put_ne.
  - destruct (updateLastSeen_None r n d company w Hk) as (res & w' & -> & Hcur & _).
    simpl. unfold record at 1. rewrite Hcur. fold (record w c' r' n').
    case_decide as Heq; [|done]. injection Heq as <- <- <-. by rewrite Hk.
Qed.

Lemma record_markInactive r n w c' r' n' :
  record (snd (markInactive r n company w)) c' r' n' =
    if decide ((code_string (code company), r, n) = (c', r', n'))
    then set_isActive false <$> record w c' r' n'
    else record w c' r' n'.
Proof.
  destruct (record w (code_string (code company)) r n) as [x|] eqn:Hk.
  - rewrite (markInactive_Some _ _ _ _ _ Hk). simpl. case_decide as Heq.
    + injection Heq as <- <- <-. rewrite Hk. apply record_stored_put_eq. by exists x.
    + by apply record_stored_put_ne.
  - destruct (markInactive_None r n company w Hk) as (res & w' & -> & Hcur & _).
    simpl. unfold record at 1. rewrite Hcur. fold (record w c' r' n').
    case_decide as Heq; [|done]. injection Heq as <- <- <-. by rewrite Hk.
Qed.

Lemma pdf_files_updateLastSeen r n d w :
  pdf_files (snd (updateLastSeen r n d company w)) = pdf_files w.
Proof.
  destruct (record w (code_string (code company)) r n) as [x|] eqn:Hk.
  - by rewrite (updateLastSeen_Some _ _ _ _ _ _ Hk).
  - by destruct (updateLastSeen_None r n d company w Hk) as (res & w' & -> & _ & Hpdf & _).
Qed.

Lemma pdf_files_markInactive r n w :
  pdf_files (snd (markInactive r n company w)) = pdf_files w.
Proof.
  destruct (record w (code_string (code company)) r n) as [x|] eqn:Hk.
  - by rewrite (markInactive_Some _ _ _ _ _ Hk).
  - by destruct (markInactive_None r n company w Hk) as (res & w' & -> & _ & Hpdf & _).
Qed.

(** What an insert does to the records: the record of its key, if there
    is one, is touched and set active; every other record is as it
    was. *)
Lemma record_addNotice_Some x d url w y :
  record w (code_string (code company)) (route x) (notice_id x) = Some y ->
  record (snd (addNotice E x company d url w)) (code_string (code company)) (route x)
    (notice_id x) = Some (set_isActive true (set_lastSeenAt d y)).
Proof.
  intros Hk. rewrite (addNotice_existing E _ _ _ _ _ _ Hk). simpl.
  apply record_stored_put_eq. rewrite lookup3_ensure. by exists y.
Qed.

Lemma record_addNotice_ne x d url w c' r' n' :
  (code_string (code company), route x, notice_id x) ≠ (c', r', n') ->
  record (snd (addNotice E x company d url w)) c' r' n' = record w c' r' n'.
Proof.
  intros Hne.
  destruct (addNotice_cases E x company d url w)
    as [(y & Hk & ->)|[(buffer & Hk & Hu & Hm & ->)|(res & w' & Hk & -> & _ & _ & Hrec & _)]];
    simpl.
  - by rewrite record_stored_put_ne, lookup3_ensure.
  - by rewrite record_stored_put_ne, lookup3_ensure.
  - apply Hrec.
Qed.

Lemma record_addNotice_ok x d url w buffer c' r' n' :
  record w (code_string (code company)) (route x) (notice_id x) = None ->
  inherited (route x) = false -> inherited (notice_id x) = false ->
  http_pdf E url = Payload buffer ->
  record (snd (addNotice E x company d url w)) c' r' n' =
    if decide ((code_string (code company), route x, notice_id x) = (c', r', n'))
    then Some (set_discoveredAt d x)
    else record w c' r' n'.
Proof.
  intros Hk Hr Hn Hu.
  destruct (addNotice_cases E x company d url w)
    as [(y & Hk' & _)|[(buffer' & _ & _ & Hm & ->)|(res & w' & _ & _ & _ & _ & _ & _ & Hplain)]].
  - congruence.
  - simpl. case_decide as Heq.
    + injection Heq as <- <- <-. unfold record. simpl. by apply lookup3_put_ensured.
    + by rewrite record_stored_put_ne, lookup3_ensure.
  - destruct (Hplain Hr Hn) as (Hfail & _). by destruct (Hfail buffer).
Qed.

End RecordFacts.

(** A mutation keeps every record in place and keeps its [discoveredAt]. *)
Lemma apply_op_discoveredAt E op w c r n x :
  record w c r n = Some x ->
  exists y, record (snd (apply_op E op w)) c r n = Some y
            /\ discoveredAt y = discoveredAt x.
Proof.
  intros Hx.
  destruct op as [notice company date url|route0 noticeId company|route0 noticeId date company];
    simpl.
  - destruct (decide ((code_string (code company), route notice, notice_id notice)
                      = (c, r, n))) as [Heq|Hne].
    + injection Heq as <- <- <-. rewrite (record_addNotice_Some E company _ _ _ _ x Hx).
      eauto.
    + rewrite record_addNotice_ne by done. eauto.
  - rewrite record_markInactive. case_decide; rewrite Hx; simpl; eauto.
  - rewrite record_updateLastSeen. case_decide; rewrite Hx; simpl; eauto.
Qed.

(** C4.  Once a record exists, no sequence of store mutations ([addNotice],
    [markInactive], [updateLastSeen], on this or any other key, succeeding
    or not) removes it or changes its [discoveredAt]. *)
Theorem C4_discoveredAt_immutable (E : Env) (ops : list StoreOp) (w : World)
    (c r n : string) (x : Notice) :
  record w c r n = Some x ->
  exists y, record (apply_ops E ops w) c r n = Some y
            /\ discoveredAt y = discoveredAt x.
Proof.
  revert w x. induction ops as [|op ops IH]; intros w x Hx; simpl.
  - by exists x.
  - destruct (apply_op_discoveredAt E op w c r n x Hx) as (y & Hy & Hd).
    destruct (IH _ _ Hy) as (z & Hz & Hd').
    exists z. split; [done|congruence].
Qed.

(** C8.  With the state file missing or unreadable, the reads answer as on
    the empty mapping: no active notice, no existing record, no exception,
    and nothing is written. *)
Theorem C8_missing_file_reads_as_empty (company : CompanyMetadata)
    (route noticeId : string) (w : World) :
  metadata_file w = Missing \/ metadata_file w = Unparsable ->
  getActiveNotices company w = (Ok ∅, w)
  /\ noticeExistsInMetadata company route noticeId w = (Ok false, w).
Proof.
  intros Hfile.
  assert (Hcur : current w = ∅) by (unfold current; by destruct Hfile as [-> | ->]).
  split.
  - unfold getActiveNotices, bind. rewrite getMetadata_eq, Hcur, lookup_empty. simpl.
    by rewrite map_fold_empty.
  - unfold noticeExistsInMetadata, bind. rewrite getMetadata_eq, Hcur.
    unfold member3. by rewrite lookup_empty, code_string_not_inherited.
Qed.

(** C9 (as stated, refuted).  The store holds no record under the route
    [constructor] and the notice id [name], yet the guard of
    [markInactive] and of [updateLastSeen] reads there the name of the
    function that the company's object inherits as [constructor], a
    string, and the assignment to a field of it throws. *)
Lemma C9_inherited_key_throws :
  record active_world "KMB" "constructor" "name" = None
  /\ markInactive "constructor" "name" KMB_COMPANY active_world
     = (Throw "TypeError", active_world)
  /\ updateLastSeen "constructor" "name" 200 KMB_COMPANY active_world
     = (Throw "TypeError", active_world).
Proof. repeat split; vm_compute; reflexivity. Qed.

(** C9 (amended).  For a key without a record, whose route and notice id
    name no member of [Object.prototype], [markInactive] and
    [updateLastSeen] return normally and leave the world untouched:
    nothing is written. *)
Theorem C9_absent_key_is_noop (company : CompanyMetadata) (route noticeId : string)
    (date : Date) (w : World) :
  record w (code_string (code company)) route noticeId = None ->
  inherited route = false ->
  inherited noticeId = false ->
  markInactive route noticeId company w = (Ok tt, w)
  /\ updateLastSeen route noticeId date company w = (Ok tt, w).
Proof.
  intros Hnone Hr Hn. split.
  - destruct (markInactive_None route noticeId company w Hnone)
      as (res & w' & -> & _ & _ & Hw & Hok).
    rewrite (Hok Hr Hn) in *. by rewrite Hw.
  - destruct (updateLastSeen_None route noticeId date company w Hnone)
      as (res & w' & -> & _ & _ & Hw & Hok).
    rewrite (Hok Hr Hn) in *. by rewrite Hw.
Qed.

(** ** The key of the seen set *)

Lemma split_no_sep sep s : has_char sep s = false -> split sep s = [s].
Proof.
  induction s as [|a s IH]; simpl; [done|].
  destruct (Ascii.eqb a sep); simpl; [done|].
  intros Hs. by rewrite IH.
Qed.

Lemma split_app_sep sep s t :
  has_char sep s = false -> split sep (s ++ String sep t) = s :: split sep t.
Proof.
  induction s as [|a s IH]; simpl.
  - intros _. by rewrite Ascii.eqb_refl.
  - destruct (Ascii.eqb a sep); simpl; [done|].
    intros Hs. by rewrite IH.
Qed.

Lemma decodeKey_encode r n :
  has_char ":" r = false -> has_char ":" n = false ->
  decodeKey (r ++ ":" ++ n) = (r, n).
Proof.
  intros Hr Hn. unfold decodeKey. change (r ++ ":" ++ n) with (r ++ String ":" n).
  rewrite split_app_sep by done. by rewrite split_no_sep.
Qed.

(** ** The document path *)

Lemma has_char_app c s t : has_char c (s ++ t) = has_char c s || has_char c t.
Proof. induction s as [|a s IH]; simpl; [done|]. by rewrite IH, orb_assoc. Qed.

Lemma split_elems_no_sep sep s : Forall (fun x => has_char sep x = false) (split sep s).
Proof.
  induction s as [|a s IH]; simpl.
  - by constructor.
  - destruct (Ascii.eqb a sep) eqn:Ha.
    + by constructor.
    + destruct (split sep s) as [|seg rest].
      * constructor; [|done]. simpl. by rewrite Ha.
      * inversion IH; subst. constructor; [|done]. simpl. by rewrite Ha.
Qed.

Lemma split_join sep segs :
  segs ≠ [] ->
  Forall (fun x => has_char sep x = false) segs ->
  split sep (join_with (String sep "") segs) = segs.
Proof.
  induction segs as [|x segs IH]; [done|].
  intros _ Hall. inversion Hall as [|? ? Hx Hrest]; subst.
  destruct segs as [|y segs].
  - simpl. by apply split_no_sep.
  - change (join_with (String sep "") (x :: y :: segs))
      with (x ++ String sep (join_with (String sep "") (y :: segs))).
    rewrite split_app_sep by done. by rewrite IH.
Qed.

Lemma split_nonempty sep s : split sep s ≠ [].
Proof.
  destruct s as [|a s]; simpl; [done|].
  destruct (Ascii.eqb a sep); [done|]. by destruct (split sep s).
Qed.

Lemma split_app sep s t :
  split sep (s ++ String sep t) = (split sep s ++ split sep t)%list.
Proof.
  induction s as [|a s IH]; simpl.
  - by rewrite Ascii.eqb_refl.
  - destruct (Ascii.eqb a sep); [by rewrite IH|].
    rewrite IH. pose proof (split_nonempty sep s).
    by destruct (split sep s).
Qed.

Lemma clean_segment_spec s :
  clean_segment s = true <->
  s ≠ "" /\ s ≠ "." /\ s ≠ ".." /\ has_char "/" s = false.
Proof.
  unfold clean_segment. rewrite !andb_true_iff, !negb_true_iff, !String.eqb_neq.
  tauto.
Qed.

Lemma normalizeString_app l1 l2 allow res :
  normalizeString (l1 ++ l2) allow res
    = normalizeString l2 allow (rev (normalizeString l1 allow res)).
Proof.
  revert res. induction l1 as [|seg l1 IH]; intros res; simpl.
  - by rewrite rev_involutive.
  - destruct (String.eqb seg "" || String.eqb seg "."); [done|].
    destruct (String.eqb seg ".."); [|done].
    destruct res as [|last res']; [done|].
    by destruct (String.eqb last "..").
Qed.

Lemma normalizeString_clean segs allow res :
  Forall (fun x => clean_segment x = true) segs ->
  normalizeString segs allow res = (rev res ++ segs)%list.
Proof.
  revert res. induction segs as [|seg segs IH]; intros res Hall; simpl.
  - by rewrite app_nil_r.
  - inversion Hall as [|? ? Hseg Hrest]; subst.
    apply clean_segment_spec in Hseg as (H1 & H2 & H3 & _).
    apply String.eqb_neq in H1, H2, H3. rewrite H1, H2, H3. simpl.
    rewrite IH by done. simpl. by rewrite <- app_assoc.
Qed.

Lemma normalizeString_rooted segs res :
  Forall (fun x => has_char "/" x = false) segs ->
  Forall (fun x => clean_segment x = true) res ->
  Forall (fun x => clean_segment x = true) (normalizeString segs false res).
Proof.
  revert res. induction segs as [|seg segs IH]; intros res Hsegs Hres; simpl.
  - by apply Forall_rev.
  - inversion Hsegs as [|? ? Hseg Hrest]; subst.
    destruct (String.eqb seg "") eqn:H1; simpl; [by apply IH|].
    destruct (String.eqb seg ".") eqn:H2; simpl; [by apply IH|].
    destruct (String.eqb seg "..") eqn:H3.
    + destruct res as [|last res']; [by apply IH|].
      inversion Hres; subst.
      destruct (String.eqb last ".."); by apply IH.
    + apply IH; [done|]. constructor; [|done].
      apply clean_segment_spec. apply String.eqb_neq in H1, H2, H3. done.
Qed.

Lemma append_assoc (a b c : string) : (a ++ b) ++ c = a ++ (b ++ c).
Proof.
  induction a as [|x a IH]; [done|].
  change (String x ((a ++ b) ++ c) = String x (a ++ (b ++ c))). by rewrite IH.
Qed.

Lemma join_with_app sep l1 l2 :
  l1 ≠ [] -> l2 ≠ [] ->
  join_with sep (l1 ++ l2)%list = join_with sep l1 ++ sep ++ join_with sep l2.
Proof.
  intros H1 H2. induction l1 as [|x l1 IH]; [done|].
  destruct l1 as [|y l1].
  - simpl. by destruct l2.
  - change (join_with sep ((x :: y :: l1) ++ l2)%list)
      with (x ++ sep ++ join_with sep ((y :: l1) ++ l2)%list).
    rewrite IH by done.
    change (join_with sep (x :: y :: l1)) with (x ++ sep ++ join_with sep (y :: l1)).
    by rewrite !append_assoc.
Qed.

Lemma ends_with_char_app c s t :
  t ≠ "" -> ends_with (String c "") (s ++ t) = ends_with (String c "") t.
Proof.
  intros Ht. induction s as [|a s IH]; [done|].
  change (String a s ++ t) with (String a (s ++ t)).
  cbn [ends_with]. rewrite IH.
  replace (String c "" =? String a (s ++ t))%string with false; [done|].
  symmetry. apply String.eqb_neq. intros Heq. injection Heq as _ Heq.
  destruct s; [change ("" = t) in Heq; by subst t|discriminate].
Qed.

Lemma ends_with_no_char c s :
  has_char c s = false -> ends_with (String c "") s = false.
Proof.
  induction s as [|a s IH]; [done|].
  cbn [has_char ends_with]. intros [Ha Hs]%orb_false_iff.
  rewrite (IH Hs), orb_false_r. apply String.eqb_neq.
  intros Heq. injection Heq as -> _. by rewrite Ascii.eqb_refl in Ha.
Qed.

Lemma join_with_clean_nonempty segs :
  segs ≠ [] -> Forall (fun x => clean_segment x = true) segs ->
  join_with "/" segs ≠ "".
Proof.
  destruct segs as [|x segs]; [done|]. intros _ Hall.
  inversion Hall as [|? ? Hx _]; subst.
  apply clean_segment_spec in Hx as (Hx & _).
  destruct x as [|a x]; [done|]. by destruct segs.
Qed.

Lemma join_with_clean_no_trailing segs :
  segs ≠ [] -> Forall (fun x => clean_segment x = true) segs ->
  ends_with "/" (join_with "/" segs) = false.
Proof.
  induction segs as [|x segs IH]; [done|]. intros _ Hall.
  inversion Hall as [|? ? Hx Hrest]; subst.
  destruct segs as [|y segs].
  - apply clean_segment_spec in Hx as (_ & _ & _ & Hx). by apply ends_with_no_char.
  - change (join_with "/" (x :: y :: segs)) with (x ++ "/" ++ join_with "/" (y :: segs)).
    rewrite <- append_assoc, ends_with_char_app; [by apply IH|].
    by apply join_with_clean_nonempty.
Qed.

Lemma clean_no_slash segs :
  Forall (fun x => clean_segment x = true) segs ->
  Forall (fun x => has_char "/" x = false) segs.
Proof.
  intros H. eapply Forall_impl; [exact H|].
  intros x Hx. by apply clean_segment_spec in Hx as (_ & _ & _ & Hx).
Qed.

(** An absolute path made of clean segments is its own normal form. *)
Lemma path_normalize_clean segs :
  segs ≠ [] -> Forall (fun x => clean_segment x = true) segs ->
  path_normalize ("/" ++ join_with "/" segs) = "/" ++ join_with "/" segs.
Proof.
  intros Hne Hall. unfold path_normalize.
  change ("/" ++ join_with "/" segs) with (String "/" (join_with "/" segs)).
  replace (String "/" (join_with "/" segs) =? "")%string with false by done.
  replace (String.prefix "/" (String "/" (join_with "/" segs))) with true
    by (simpl; by destruct (join_with "/" segs)).
  cbn [negb split]. rewrite Ascii.eqb_refl.
  rewrite (split_join "/") by (done || by apply clean_no_slash).
  cbn [normalizeString]. simpl (String.eqb "" "" || _).
  rewrite normalizeString_clean by done. simpl (rev [] ++ segs)%list.
  assert (Hbody' : (join_with "/" segs =? "")%string = false)
    by (apply String.eqb_neq; by apply join_with_clean_nonempty).
  rewrite Hbody'.
  replace (ends_with "/" (String "/" (join_with "/" segs))) with false; [done|].
  symmetry. change (String "/" (join_with "/" segs)) with ("/" ++ join_with "/" segs).
  rewrite ends_with_char_app by by apply join_with_clean_nonempty.
  by apply join_with_clean_no_trailing.
Qed.

Lemma clean_of_chars s :
  s ≠ "" -> has_char "/" s = false -> has_char "." s = false -> clean_segment s = true.
Proof.
  intros Hne Hslash Hdot. apply clean_segment_spec.
  repeat split; [done| | |done]; intros ->; discriminate.
Qed.

Lemma digit_char_cases (P : ascii -> Prop) :
  P "0"%char -> P "1"%char -> P "2"%char -> P "3"%char -> P "4"%char ->
  P "5"%char -> P "6"%char -> P "7"%char -> P "8"%char -> P "9"%char ->
  forall d, 0 <= d < 10 -> P (digit_char d).
Proof.
  intros H0 H1 H2 H3 H4 H5 H6 H7 H8 H9 d Hd.
  assert (d = 0 \/ d = 1 \/ d = 2 \/ d = 3 \/ d = 4 \/ d = 5 \/ d = 6 \/ d = 7
          \/ d = 8 \/ d = 9) as Hcases by lia.
  repeat (destruct Hcases as [->|Hcases]; [done|]). by subst d.
Qed.

Lemma digits_of_no_char c fuel n acc :
  (forall d, 0 <= d < 10 -> Ascii.eqb (digit_char d) c = false) ->
  has_char c acc = false -> has_char c (digits_of fuel n acc) = false.
Proof.
  intros Hc. revert n acc. induction fuel as [|fuel IH]; intros n acc Hacc; cbn [digits_of]; [done|].
  assert (Hacc' : has_char c (String (digit_char (n mod 10)) acc) = false).
  { cbn [has_char]. rewrite Hc, Hacc; [done|]. by apply Z.mod_pos_bound. }
  destruct (n <? 10); [done|]. by apply IH.
Qed.

Lemma digits_of_nonempty fuel n acc : acc ≠ "" -> digits_of fuel n acc ≠ "".
Proof.
  revert n acc. induction fuel as [|fuel IH]; intros n acc Hacc; cbn [digits_of]; [done|].
  destruct (n <? 10); [done|]. by apply IH.
Qed.

Lemma string_of_Z_no_char c n :
  (forall d, 0 <= d < 10 -> Ascii.eqb (digit_char d) c = false) ->
  Ascii.eqb "-" c = false ->
  has_char c (string_of_Z n) = false.
Proof.
  intros Hc Hminus. unfold string_of_Z. destruct (n <? 0).
  - cbn [has_char]. rewrite Hminus. cbn [orb]. by apply digits_of_no_char.
  - by apply digits_of_no_char.
Qed.

Lemma string_of_Z_nonempty n : string_of_Z n ≠ "".
Proof.
  unfold string_of_Z. destruct (n <? 0); [done|].
  cbn [digits_of]. destruct (n <? 10); [done|]. by apply digits_of_nonempty.
Qed.

Lemma digits_not_slash d : 0 <= d < 10 -> Ascii.eqb (digit_char d) "/" = false.
Proof. revert d. by apply (digit_char_cases (fun a => Ascii.eqb a "/" = false)). Qed.

Lemma digits_not_dot d : 0 <= d < 10 -> Ascii.eqb (digit_char d) "." = false.
Proof. revert d. by apply (digit_char_cases (fun a => Ascii.eqb a "." = false)). Qed.

Lemma string_of_Z_clean n : clean_segment (string_of_Z n) = true.
Proof.
  apply clean_of_chars.
  - apply string_of_Z_nonempty.
  - apply string_of_Z_no_char; [apply digits_not_slash|done].
  - apply string_of_Z_no_char; [apply digits_not_dot|done].
Qed.

Lemma has_char_repeat c k a : Ascii.eqb a c = false -> has_char c (repeat_char k a) = false.
Proof. intros Ha. induction k as [|k IH]; simpl; [done|]. by rewrite Ha, IH. Qed.

Lemma padStart_clean n s :
  clean_segment s = true -> has_char "." s = false ->
  clean_segment (padStart n "0" s) = true.
Proof.
  intros Hs Hdot. apply clean_segment_spec in Hs as (Hne & _ & _ & Hslash).
  unfold padStart. apply clean_of_chars.
  - destruct (repeat_char _ _); [done|discriminate].
  - by rewrite has_char_app, has_char_repeat, Hslash.
  - by rewrite has_char_app, has_char_repeat, Hdot.
Qed.

Lemma filename_clean noticeId :
  has_char "/" noticeId = false ->
  clean_segment (if includes ".pdf" noticeId then noticeId else noticeId ++ ".pdf") = true.
Proof.
  intros Hslash. destruct (includes ".pdf" noticeId) eqn:Hinc.
  - apply clean_segment_spec. repeat split; [| | |done]; intros ->; discriminate.
  - apply clean_segment_spec. repeat split.
    + by destruct noticeId.
    + by destruct noticeId as [|a [|b n]].
    + by destruct noticeId as [|a [|b [|c n]]].
    + by rewrite has_char_app, Hslash.
Qed.

Lemma code_string_clean c : clean_segment (code_string c) = true.
Proof. by destruct c. Qed.

Lemma filter_nonempty_id l :
  Forall (fun x => x ≠ "") l -> List.filter (fun a => negb (a =? "")%string) l = l.
Proof.
  induction 1 as [|x l Hx _ IH]; [done|].
  cbn [List.filter]. apply String.eqb_neq in Hx. by rewrite Hx, IH.
Qed.

Lemma prefix_slash s : String.prefix "/" s = true -> exists rest, s = String "/" rest.
Proof.
  destruct s as [|a rest]; [done|]. cbn [String.prefix].
  destruct (ascii_dec "/" a) as [<-|]; [eauto|done].
Qed.

(** With an absolute working directory, the data directory is an absolute
    path of clean segments. *)
Lemma DATA_DIR_shape (E : Env) :
  String.prefix "/" (cwd E) = true ->
  exists segs, segs ≠ [] /\ Forall (fun x => clean_segment x = true) segs
               /\ DATA_DIR E = "/" ++ join_with "/" segs.
Proof.
  intros cwd_absolute.
  unfold DATA_DIR. destruct (prefix_slash _ cwd_absolute) as [rest ->].
  set (X := normalizeString (split "/" rest) false []).
  assert (HX : Forall (fun x => clean_segment x = true) X).
  { apply normalizeString_rooted; [apply split_elems_no_sep|constructor]. }
  exists (X ++ ["data"])%list. split; [by destruct X|]. split.
  { apply Forall_app. split; [done|]. by repeat constructor. }
  unfold path_join. cbn [List.filter String.eqb negb].
  change (join_with "/" [String "/" rest; "data"]) with (String "/" (rest ++ String "/" "data")).
  unfold path_normalize.
  replace (String "/" (rest ++ String "/" "data") =? "")%string with false by done.
  replace (String.prefix "/" (String "/" (rest ++ String "/" "data"))) with true
    by (simpl; by destruct (rest ++ String "/" "data")).
  cbn [negb split]. rewrite Ascii.eqb_refl, split_app.
  cbn [normalizeString]. simpl (String.eqb "" "" || _).
  rewrite normalizeString_app. fold X. rewrite (split_no_sep "/" "data") by done.
  cbn [normalizeString]. simpl (String.eqb "data" _ || _). simpl (String.eqb "data" _).
  cbn iota. simpl (rev ("data" :: rev X)). rewrite rev_involutive.
  assert (Hbody : (join_with "/" (X ++ ["data"]) =? "")%string = false).
  { apply String.eqb_neq, join_with_clean_nonempty; [by destruct X|].
    apply Forall_app. split; [done|]. by repeat constructor. }
  rewrite Hbody.
  replace (ends_with "/" (String "/" (rest ++ String "/" "data"))) with false; [done|].
  symmetry. change (String "/" (rest ++ String "/" "data")) with ("/" ++ (rest ++ String "/" "data")).
  rewrite ends_with_char_app by by destruct rest.
  by rewrite ends_with_char_app.
Qed.

(** C7 (amended).  The path is computed from the environment and the four
    arguments alone, without reading the world.  In a process whose working
    directory is absolute, for a route that is a plain path segment and a
    notice id without a slash, it is the data directory followed by the
    company code, the route, the year, the month on two digits and the file
    name, where the file name is the notice id, with [.pdf] appended
    unless the id contains [.pdf] somewhere. *)
Theorem C7_path_of_plain_segments (E : Env) (company : CompanyMetadata)
    (route noticeId : string) (date : Date) :
  String.prefix "/" (cwd E) = true ->
  clean_segment route = true ->
  has_char "/" noticeId = false ->
  generatePdfPath E company route noticeId date
    = DATA_DIR E ++ "/" ++ code_string (code company) ++ "/" ++ route ++ "/"
      ++ string_of_Z (getFullYear E date) ++ "/"
      ++ padStart 2 "0" (string_of_Z (getMonth E date + 1)) ++ "/"
      ++ (if includes ".pdf" noticeId then noticeId else noticeId ++ ".pdf").
Proof.
  intros Hcwd Hroute Hid. unfold generatePdfPath.
  destruct (DATA_DIR_shape E Hcwd) as (dsegs & Hne & Hclean & ->).
  set (y := string_of_Z (getFullYear E date)).
  set (m := padStart 2 "0" (string_of_Z (getMonth E date + 1))).
  set (f := if includes ".pdf" noticeId then noticeId else noticeId ++ ".pdf").
  set (rest := [code_string (code company); route; y; m; f]).
  assert (Hrest : Forall (fun x => clean_segment x = true) rest).
  { repeat constructor; [apply code_string_clean|done|apply string_of_Z_clean| |by apply filename_clean].
    apply padStart_clean; [apply string_of_Z_clean|].
    apply string_of_Z_no_char; [apply digits_not_dot|done]. }
  unfold path_join. fold rest.
  rewrite filter_nonempty_id.
  2:{ constructor; [done|]. eapply Forall_impl; [exact Hrest|].
      intros x Hx. by apply clean_segment_spec in Hx as (Hx & _). }
  assert (Hjoin : join_with "/" (("/" ++ join_with "/" dsegs) :: rest)
                  = "/" ++ join_with "/" (dsegs ++ rest)).
  { rewrite join_with_app by done.
    change (join_with "/" (("/" ++ join_with "/" dsegs) :: rest))
      with (("/" ++ join_with "/" dsegs) ++ "/" ++ join_with "/" rest).
    by rewrite append_assoc. }
  cbn iota.
  rewrite Hjoin, path_normalize_clean.
  - rewrite join_with_app by done. by rewrite append_assoc.
  - by destruct dsegs.
  - by apply Forall_app.
Qed.

(** C7 (as stated, refuted).  A notice id that contains [.pdf] without
    ending in it is kept as the file name, where the specification appends
    the suffix. *)
Lemma C7_suffix_inside_notice_id :
  generatePdfPath reporting_env CTB_COMPANY "1" "notice.pdf.bak" 1700000000000
    = "/app/data/CTB/1/2023/11/notice.pdf.bak"
  /\ spec_pdf_path reporting_env CTB_COMPANY "1" "notice.pdf.bak" 1700000000000
    = "/app/data/CTB/1/2023/11/notice.pdf.bak.pdf"
  /\ generatePdfPath reporting_env CTB_COMPANY "1" "notice.pdf.bak" 1700000000000
    ≠ spec_pdf_path reporting_env CTB_COMPANY "1" "notice.pdf.bak" 1700000000000.
Proof. split; [|split]; vm_compute; congruence. Qed.

(** ** Loops *)

Lemma for_of_cons {S A} (x : A) (l : list A) (body : A -> M S unit) (s : S) :
  for_of (x :: l) body s =
    match body x s with
    | (Ok _, s') => for_of l body s'
    | (Throw e, s') => (Throw e, s')
    | (Outside, s') => (Outside, s')
    end.
Proof. reflexivity. Qed.

(** A preorder that every turn of a loop respects relates the state
    before the loop to the state after it, however the loop ends. *)
Lemma for_of_rel {S A} (R : S -> S -> Prop) (l : list A) (body : A -> M S unit) :
  (forall s, R s s) ->
  (forall s1 s2 s3, R s1 s2 -> R s2 s3 -> R s1 s3) ->
  (forall x s, x ∈ l -> R s (snd (body x s))) ->
  forall s, R s (snd (for_of l body s)).
Proof.
  intros Hrefl Htrans. induction l as [|x l IH]; intros Hstep s.
  - apply Hrefl.
  - rewrite for_of_cons. pose proof (Hstep x s ltac:(left)) as Hx.
    destruct (body x s) as [[[]|e|] s']; simpl in *; [|done..].
    eapply Htrans; [exact Hx|]. apply IH. intros y t Hy. apply Hstep. by right.
Qed.

(** A loop whose turns all return, returns. *)
Lemma for_of_ok {S A} (P : S -> Prop) (l : list A) (body : A -> M S unit) :
  (forall x s, x ∈ l -> P s -> fst (body x s) = Ok tt /\ P (snd (body x s))) ->
  forall s, P s -> fst (for_of l body s) = Ok tt /\ P (snd (for_of l body s)).
Proof.
  induction l as [|x l IH]; intros Hstep s Hs; [done|].
  rewrite for_of_cons. destruct (Hstep x s ltac:(left) Hs) as [Hok Hp].
  destruct (body x s) as [[[]|e|] s']; simpl in *; [|done..].
  apply IH; [|done]. intros y t Hy. apply Hstep. by right.
Qed.

(** A loop that returns has had every turn return. *)
Lemma for_of_ok_inv {S A} (x : A) (l : list A) (body : A -> M S unit) (s : S) :
  fst (for_of (x :: l) body s) = Ok tt ->
  fst (body x s) = Ok tt /\ fst (for_of l body (snd (body x s))) = Ok tt.
Proof. rewrite for_of_cons. by destruct (body x s) as [[[]|e|] s']. Qed.

(** ** One turn of the inner loop *)

Section TurnFacts.

Variable E : Env.
Variable company : CompanyMetadata.
Variable now : Date.

Local Abbreviation c := (code_string (code company)).

Lemma scan_le_refl s : scan_le c now s s.
Proof.
  split; [done|]. intros c' r n. destruct (record (world s) c' r n); by left.
Qed.

Lemma scan_le_trans s1 s2 s3 :
  scan_le c now s1 s2 -> scan_le c now s2 s3 -> scan_le c now s1 s3.
Proof.
  intros [Hs12 Hr12] [Hs23 Hr23]. split; [set_solver|].
  intros c' r n. specialize (Hr12 c' r n). specialize (Hr23 c' r n).
  destruct (record (world s1) c' r n) as [x|].
  - destruct Hr12 as [H12|(H12 & Hc & Hseen)]; rewrite H12 in Hr23;
      destruct Hr23 as [H23|(H23 & Hc' & Hseen')]; rewrite H23;
      first [by left|right; split; [done|split; [done|set_solver]]].
  - destruct Hr12 as [H12|[-> Hseen]].
    + rewrite H12 in Hr23. destruct Hr23 as [H23|H23]; auto.
    + right. split; [done|]. set_solver.
Qed.

(** A turn, by what the existence test reads. *)
Lemma scanNotice_eq rt x s :
  scanNotice E company now rt x s =
    match member3 (current (world s)) c (r_route rt) (notice_id x) with
    | Own _ | BuiltinObject | BuiltinString =>
        (fst (updateLastSeen (r_route rt) (notice_id x) now company (world s)),
         mkPass ({[ noticeKey rt x ]} ∪ seenNotices s)
           (snd (updateLastSeen (r_route rt) (notice_id x) now company (world s))))
    | Undefined =>
        (fst (addNotice E x company now (pdfUrl x) (world s)),
         mkPass ({[ noticeKey rt x ]} ∪ seenNotices s)
           (snd (addNotice E x company now (pdfUrl x) (world s))))
    | Unlisted => (Outside, mkPass ({[ noticeKey rt x ]} ∪ seenNotices s) (world s))
    end.
Proof.
  unfold scanNotice, seen_add, on_world, noticeExistsInMetadata, bind. simpl.
  rewrite getMetadata_eq.
  destruct (member3 (current (world s)) c (r_route rt) (notice_id x)); simpl;
    first [by destruct (updateLastSeen _ _ _ _ _)|by destruct (addNotice _ _ _ _ _ _)|done].
Qed.

Lemma scanNotice_touch rt x s y :
  record (world s) c (r_route rt) (notice_id x) = Some y ->
  scanNotice E company now rt x s =
    (Ok tt, mkPass ({[ noticeKey rt x ]} ∪ seenNotices s)
              (snd (updateLastSeen (r_route rt) (notice_id x) now company (world s)))).
Proof.
  intros Hk. rewrite scanNotice_eq. pose proof Hk as Hm. apply member3_Own in Hm.
  rewrite Hm. by rewrite (updateLastSeen_Some _ _ _ _ _ _ Hk).
Qed.

(** The ways a turn of the inner loop can go: the notice has a record,
    which is touched; or it has none and is inserted with its document;
    or it has none and the turn does not return: then no record changes
    and no document is written, the world is untouched if the turn
    throws, and at a key that names no member of [Object.prototype] the
    turn throws because the download fails. *)
Lemma scanNotice_cases rt x s :
  route x = r_route rt ->
  (exists y, record (world s) c (r_route rt) (notice_id x) = Some y
     /\ scanNotice E company now rt x s =
          (Ok tt, mkPass ({[ noticeKey rt x ]} ∪ seenNotices s)
                    (snd (updateLastSeen (r_route rt) (notice_id x) now company (world s)))))
  \/ (exists buffer w', record (world s) c (r_route rt) (notice_id x) = None
        /\ http_pdf E (pdfUrl x) = Payload buffer
        /\ scanNotice E company now rt x s =
             (Ok tt, mkPass ({[ noticeKey rt x ]} ∪ seenNotices s) w')
        /\ pdf_files w'
           = <[generatePdfPath E company (r_route rt) (notice_id x) now := buffer]>
               (pdf_files (world s))
        /\ forall c' r' n',
             record w' c' r' n' =
               if decide ((c, r_route rt, notice_id x) = (c', r', n'))
               then Some (set_discoveredAt now x)
               else record (world s) c' r' n')
  \/ (exists res w', record (world s) c (r_route rt) (notice_id x) = None
        /\ scanNotice E company now rt x s =
             (res, mkPass ({[ noticeKey rt x ]} ∪ seenNotices s) w')
        /\ res <> Ok tt
        /\ pdf_files w' = pdf_files (world s)
        /\ (forall c' r' n', record w' c' r' n' = record (world s) c' r' n')
        /\ (forall msg, res = Throw msg -> w' = world s)
        /\ (inherited (r_route rt) = false -> inherited (notice_id x) = false ->
            (forall buffer, http_pdf E (pdfUrl x) <> Payload buffer)
            /\ exists msg, res = Throw msg)).
Proof.
  intros Hr. rewrite scanNotice_eq.
  pose proof (member3_plain (current (world s)) c (r_route rt) (notice_id x)
                (code_string_not_inherited _)) as Hplain.
  pose proof (lookup3_member3 (current (world s)) c (r_route rt) (notice_id x)) as Hl.
  fold (record (world s) c (r_route rt) (notice_id x)) in Hl, Hplain.
  destruct (member3 (current (world s)) c (r_route rt) (notice_id x)) as [y| | | |] eqn:Hm.
  - left. exists y. split; [done|]. by rewrite (updateLastSeen_Some _ _ _ _ _ _ Hl).
  - right.
    destruct (addNotice_cases E x company now (pdfUrl x) (world s))
      as [(y & Hk & _)|[(buffer & Hk & Hu & Hund & Heq)
                       |(res & w' & Hk & Heq & Hres & Hpdf & Hrec & Hw & Hpl)]].
    + rewrite Hr in Hk. congruence.
    + left. exists buffer, (snd (addNotice E x company now (pdfUrl x) (world s))).
      split; [done|]. split; [done|]. rewrite Heq. simpl. split; [done|].
      rewrite <- Hr. split; [done|]. intros c' r' n'. case_decide as Hkey.
      * injection Hkey as <- <- <-. unfold record. simpl. by apply lookup3_put_ensured.
      * by rewrite record_stored_put_ne, lookup3_ensure.
    + right. exists res, w'. rewrite Heq. simpl. rewrite <- Hr. done.
  - right. right. unfold updateLastSeen, bind. rewrite getMetadata_eq, Hm. simpl.
    eexists _, _. split; [done|]. split; [reflexivity|].
    split; [done|]. split; [done|]. split; [done|]. split; [done|].
    intros Hpr Hpn. specialize (Hplain Hpr Hpn). by rewrite Hl in Hplain.
  - right. right. unfold updateLastSeen, bind. rewrite getMetadata_eq, Hm. simpl.
    eexists _, _. split; [done|]. split; [reflexivity|].
    split; [done|]. split; [done|]. split; [done|]. split; [done|].
    intros Hpr Hpn. specialize (Hplain Hpr Hpn). by rewrite Hl in Hplain.
  - right. right. eexists _, _. split; [done|]. split; [reflexivity|].
    split; [done|]. split; [done|]. split; [done|]. split; [done|].
    intros Hpr Hpn. specialize (Hplain Hpr Hpn). by rewrite Hl in Hplain.
Qed.

Lemma scanNotice_le rt x s :
  route x = r_route rt ->
  scan_le c now s (snd (scanNotice E company now rt x s)).
Proof.
  intros Hr.
  destruct (scanNotice_cases rt x s Hr)
    as [(y & Hk & ->)|[(buffer & w' & Hk & Hu & -> & _ & Hrec)
                      |(res & w' & Hk & -> & _ & _ & Hrec & _)]]; simpl.
  - split; [set_solver|]. intros c' r n. simpl. rewrite record_updateLastSeen.
    case_decide as Heq.
    + injection Heq as <- <- <-. rewrite Hk. right. repeat split.
      unfold noticeKey. set_solver.
    + destruct (record (world s) c' r n); by left.
  - split; [set_solver|]. intros c' r n. simpl. rewrite Hrec.
    case_decide as Heq.
    + injection Heq as <- <- <-. rewrite Hk. right. split; [done|].
      unfold noticeKey. set_solver.
    + destruct (record (world s) c' r n); by left.
  - split; [set_solver|]. intros c' r n. simpl. rewrite Hrec.
    destruct (record (world s) c' r n); by left.
Qed.

Lemma scan_notices_le rt l s :
  Forall (fun x => route x = r_route rt) l ->
  scan_le c now s (snd (for_of l (scanNotice E company now rt) s)).
Proof.
  intros Hl. apply for_of_rel; [apply scan_le_refl|apply scan_le_trans|].
  intros x t Hx. apply scanNotice_le. rewrite Forall_forall in Hl. by apply Hl.
Qed.

End TurnFacts.

(** ** The scan of the routes *)

Section ScanFacts.

Variable E : Env.
Variable company : CompanyMetadata.
Variable fetchNotices : Route -> Result (list Notice).
Variable now : Date.
Hypothesis fetch_route : files_under_route fetchNotices.

Local Abbreviation c := (code_string (code company)).

(** The [catch] of a route swallows what its notices throw: the turn of a
    route returns, unless a call has left the model. *)
Lemma scanRoute_eq rt s :
  scanRoute E company fetchNotices now rt s =
    match fetchNotices rt with
    | Ok l =>
        (match fst (for_of l (scanNotice E company now rt) s) with
         | Outside => Outside
         | _ => Ok tt
         end,
         snd (for_of l (scanNotice E company now rt) s))
    | Throw _ => (Ok tt, s)
    | Outside => (Outside, s)
    end.
Proof.
  unfold scanRoute, try_catch, bind, await.
  destruct (fetchNotices rt) as [l|e|]; [|done..].
  by destruct (for_of l _ s) as [[[]|e|] s'].
Qed.

Lemma scanRoute_snd rt s :
  snd (scanRoute E company fetchNotices now rt s) =
    match fetchNotices rt with
    | Ok l => snd (for_of l (scanNotice E company now rt) s)
    | _ => s
    end.
Proof. rewrite scanRoute_eq. by destruct (fetchNotices rt). Qed.

Lemma scanRoute_le rt s :
  scan_le c now s (snd (scanRoute E company fetchNotices now rt s)).
Proof.
  rewrite scanRoute_snd.
  destruct (fetchNotices rt) as [l|e|] eqn:Hf; [|apply scan_le_refl..].
  apply scan_notices_le. by apply fetch_route.
Qed.

Lemma scan_routes_le routes s :
  scan_le c now s (snd (for_of routes (scanRoute E company fetchNotices now) s)).
Proof.
  apply for_of_rel; [apply scan_le_refl|apply scan_le_trans|].
  intros rt t _. apply scanRoute_le.
Qed.

End ScanFacts.

(** ** The retirement loop *)

Lemma for_of_cons_ok {S A} (x : A) (l : list A) (body : A -> M S unit) (s : S) :
  fst (body x s) = Ok tt -> for_of (x :: l) body s = for_of l body (snd (body x s)).
Proof. rewrite for_of_cons. by destruct (body x s) as [[[]|e|] s']. Qed.

Section RetireFacts.

Variable company : CompanyMetadata.

Local Abbreviation c := (code_string (code company)).

Lemma retireNotice_eq k s :
  retireNotice company k s =
    if bool_decide (k ∈ seenNotices s) then (Ok tt, s)
    else (fst (markInactive (fst (decodeKey k)) (snd (decodeKey k)) company (world s)),
          mkPass (seenNotices s)
            (snd (markInactive (fst (decodeKey k)) (snd (decodeKey k)) company (world s)))).
Proof.
  unfold retireNotice. destruct (bool_decide (k ∈ seenNotices s)); [done|].
  destruct (decodeKey k) as [r n]. unfold on_world. simpl.
  by destruct (markInactive r n company (world s)).
Qed.

Lemma retire_le_refl s : retire_le s s.
Proof. repeat split. intros c' r n. by left. Qed.

Lemma set_isActive_idem (o : option Notice) :
  set_isActive false <$> (set_isActive false <$> o) = set_isActive false <$> o.
Proof. by destruct o. Qed.

Lemma retire_le_trans s1 s2 s3 : retire_le s1 s2 -> retire_le s2 s3 -> retire_le s1 s3.
Proof.
  intros (Hs12 & Hp12 & Hr12) (Hs23 & Hp23 & Hr23).
  split; [congruence|]. split; [congruence|].
  intros c' r n. specialize (Hr12 c' r n). specialize (Hr23 c' r n).
  destruct Hr12 as [H12|H12], Hr23 as [H23|H23]; rewrite H23, H12;
    rewrite ?set_isActive_idem; auto.
Qed.

Lemma retireNotice_le k s : retire_le s (snd (retireNotice company k s)).
Proof.
  rewrite retireNotice_eq.
  destruct (bool_decide (k ∈ seenNotices s)); [apply retire_le_refl|]. simpl.
  split; [done|]. split; [apply pdf_files_markInactive|].
  intros c' r n. simpl. rewrite record_markInactive. case_decide; auto.
Qed.

Lemma retire_loop_le l s : retire_le s (snd (for_of l (retireNotice company) s)).
Proof.
  apply for_of_rel; [apply retire_le_refl|apply retire_le_trans|].
  intros k t _. apply retireNotice_le.
Qed.

(** The loop returns when every key it retires decodes to a key with a
    record. *)
Lemma retire_loop_ok l s :
  (forall k, k ∈ l -> k ∉ seenNotices s ->
             is_Some (record (world s) c (fst (decodeKey k)) (snd (decodeKey k)))) ->
  fst (for_of l (retireNotice company) s) = Ok tt.
Proof.
  intros Hrec.
  apply (for_of_ok (fun t : Pass =>
           seenNotices t = seenNotices s
           /\ forall k, k ∈ l -> k ∉ seenNotices s ->
                is_Some (record (world t) c (fst (decodeKey k)) (snd (decodeKey k))))
           l (retireNotice company)); [|done].
  intros k t Hk [Hseen Ht]. split.
  - rewrite retireNotice_eq. destruct (bool_decide (k ∈ seenNotices t)) eqn:Hb; [done|].
    apply bool_decide_eq_false in Hb. rewrite Hseen in Hb.
    destruct (Ht k Hk Hb) as [x Hx]. by rewrite (markInactive_Some _ _ _ _ _ Hx).
  - destruct (retireNotice_le k t) as (Hs' & _ & Hr'). split; [congruence|].
    intros k' Hk' Hunseen. destruct (Ht k' Hk' Hunseen) as [x Hx].
    destruct (Hr' c (fst (decodeKey k')) (snd (decodeKey k'))) as [->| ->];
      rewrite Hx; eauto.
Qed.

(** In a loop that returns, a key of the snapshot that was not seen has
    the record it decodes to retired by the end. *)
Lemma retire_loop_hit l s k r n :
  k ∈ l -> (k ∉ seenNotices s) -> decodeKey k = (r, n) ->
  fst (for_of l (retireNotice company) s) = Ok tt ->
  record (world (snd (for_of l (retireNotice company) s))) c r n
    = set_isActive false <$> record (world s) c r n.
Proof.
  revert s. induction l as [|k' l IH]; intros s Hin Hseen Hdec Hok; [by inversion Hin|].
  apply for_of_ok_inv in Hok as [Hstep Hrest]. rewrite (for_of_cons_ok _ _ _ _ Hstep).
  pose proof (retire_loop_le l (snd (retireNotice company k' s))) as (_ & _ & Hr).
  specialize (Hr c r n).
  destruct (decide ((k' ∉ seenNotices s) /\ decodeKey k' = (r, n))) as [[Hs' Hd']|Hmiss].
  - assert (Ht : record (world (snd (retireNotice company k' s))) c r n
                 = set_isActive false <$> record (world s) c r n).
    { rewrite retireNotice_eq, bool_decide_eq_false_2 by done. rewrite Hd'. simpl.
      rewrite record_markInactive. by rewrite decide_True. }
    destruct Hr as [Hr|Hr]; rewrite Hr, Ht; by rewrite ?set_isActive_idem.
  - assert (k ≠ k') as Hne by (intros ->; by apply Hmiss).
    apply elem_of_cons in Hin as [?|Hin]; [done|].
    assert (Ht : seenNotices (snd (retireNotice company k' s)) = seenNotices s
                 /\ record (world (snd (retireNotice company k' s))) c r n
                    = record (world s) c r n).
    { rewrite retireNotice_eq.
      destruct (bool_decide (k' ∈ seenNotices s)) eqn:Hb; [done|]. simpl. split; [done|].
      apply bool_decide_eq_false in Hb. rewrite record_markInactive.
      rewrite decide_False; [done|].
      intros Heq. apply Hmiss. split; [done|].
      destruct (decodeKey k') as [r' n']. simpl in Heq. congruence. }
    destruct Ht as [Ht1 Ht2]. rewrite IH; [by rewrite Ht2|done|by rewrite Ht1|done..].
Qed.

(** What the loop, run to its end or not, has done to a record: nothing,
    or it has retired it, at a key of the snapshot that was not seen and
    that decodes to the record's key. *)
Lemma retire_loop_cases l s c' r n :
  record (world (snd (for_of l (retireNotice company) s))) c' r n = record (world s) c' r n
  \/ (c' = c
      /\ record (world (snd (for_of l (retireNotice company) s))) c' r n
         = set_isActive false <$> record (world s) c' r n
      /\ exists k, k ∈ l /\ (k ∉ seenNotices s) /\ decodeKey k = (r, n)).
Proof.
  revert s.
  apply (for_of_rel (fun s s' : Pass =>
           seenNotices s' = seenNotices s
           /\ (record (world s') c' r n = record (world s) c' r n
               \/ (c' = c
                   /\ record (world s') c' r n = set_isActive false <$> record (world s) c' r n
                   /\ exists k, k ∈ l /\ (k ∉ seenNotices s) /\ decodeKey k = (r, n))))).
  - intros s. split; [done|by left].
  - intros s1 s2 s3 [Hs12 H12] [Hs23 H23]. split; [congruence|].
    rewrite Hs12 in H23.
    destruct H12 as [H12|(Hc & H12 & Hk)], H23 as [H23|(Hc' & H23 & Hk')];
      rewrite H23, H12; rewrite ?set_isActive_idem; auto.
  - intros k s Hk. rewrite retireNotice_eq.
    destruct (bool_decide (k ∈ seenNotices s)) eqn:Hb; [split; [done|by left]|].
    apply bool_decide_eq_false in Hb. simpl. split; [done|].
    rewrite record_markInactive. case_decide as Heq; [|by left].
    injection Heq as <- Hr Hn. right. split; [done|]. split; [done|].
    exists k. split; [done|]. split; [done|]. destruct (decodeKey k). simpl in *. congruence.
Qed.

(** A record that no unseen key of the snapshot decodes to is left alone
    by the retirement loop. *)
Lemma retire_loop_frame l s c' r n :
  (c' = c -> forall k, k ∈ l -> k ∉ seenNotices s -> decodeKey k ≠ (r, n)) ->
  record (world (snd (for_of l (retireNotice company) s))) c' r n
    = record (world s) c' r n.
Proof.
  intros Hmiss. destruct (retire_loop_cases l s c' r n) as [Heq|(Hc & _ & k & Hk & Hs & Hd)];
    [done|]. by destruct (Hmiss Hc k Hk Hs).
Qed.

End RetireFacts.

(** ** The snapshot of the active notices *)

Lemma active_of_route (r : string) (acc : gset string) (rd : gmap string Notice) k :
  k ∈ map_fold (fun noticeId notice activeNotices =>
                  if isActive notice
                  then {[ r ++ ":" ++ noticeId ]} ∪ activeNotices
                  else activeNotices) acc rd
  <-> k ∈ acc \/ exists n x, rd !! n = Some x /\ isActive x = true /\ k = r ++ ":" ++ n.
Proof.
  revert k. apply (map_fold_weak_ind (fun (res : gset string) (m : gmap string Notice) =>
    forall k, k ∈ res <-> k ∈ acc
      \/ exists n x, m !! n = Some x /\ isActive x = true /\ k = r ++ ":" ++ n)).
  - intros k. split; [by left|]. intros [?|(n & x & Hn & _)]; [done|].
    by rewrite lookup_empty in Hn.
  - intros n0 x0 m res Hfresh IH k.
    assert (Hstep : k ∈ (if isActive x0 then {[ r ++ ":" ++ n0 ]} ∪ res else res)
                    <-> (isActive x0 = true /\ k = r ++ ":" ++ n0) \/ k ∈ res).
    { destruct (isActive x0).
      - rewrite elem_of_union, elem_of_singleton. split.
        + intros [->|Hk]; auto.
        + intros [[_ ->]|Hk]; auto.
      - split; [by right|]. by intros [[Hact _]|Hk]. }
    rewrite Hstep, IH. split.
    + intros [[Hact ->]|[Hk|(n & x & Hn & Hact & ->)]].
      * right. exists n0, x0. by rewrite lookup_insert_eq.
      * by left.
      * right. exists n, x. rewrite lookup_insert_ne; [done|]. congruence.
    + intros [Hk|(n & x & Hn & Hact & ->)]; [by right; left|].
      destruct (decide (n0 = n)) as [->|Hne].
      * rewrite lookup_insert_eq in Hn. injection Hn as ->. by left.
      * rewrite lookup_insert_ne in Hn by done. right. right. eauto.
Qed.

Lemma active_of_company (cd : gmap string (gmap string Notice)) k :
  k ∈ map_fold (fun route routeData activeNotices =>
         map_fold (fun noticeId notice activeNotices =>
           if isActive notice
           then {[ route ++ ":" ++ noticeId ]} ∪ activeNotices
           else activeNotices) activeNotices routeData)
       (∅ : gset string) cd
  <-> exists r rd n x, cd !! r = Some rd /\ rd !! n = Some x /\ isActive x = true
                       /\ k = r ++ ":" ++ n.
Proof.
  revert k. apply (map_fold_weak_ind (fun (res : gset string) (m : gmap string (gmap string Notice)) =>
    forall k, k ∈ res <-> exists r rd n x, m !! r = Some rd /\ rd !! n = Some x
                                            /\ isActive x = true /\ k = r ++ ":" ++ n)).
  - intros k. split; [set_solver|]. intros (r & rd & n & x & Hr & _).
    by rewrite lookup_empty in Hr.
  - intros r0 rd0 m res Hfresh IH k. rewrite active_of_route, IH. split.
    + intros [(r & rd & n & x & Hr & Hn & Hact & ->)|(n & x & Hn & Hact & ->)].
      * exists r, rd, n, x. rewrite lookup_insert_ne; [done|]. congruence.
      * exists r0, rd0, n, x. by rewrite lookup_insert_eq.
    + intros (r & rd & n & x & Hr & Hn & Hact & ->).
      destruct (decide (r0 = r)) as [->|Hne].
      * rewrite lookup_insert_eq in Hr. injection Hr as ->. right. eauto.
      * rewrite lookup_insert_ne in Hr by done. left. eauto 10.
Qed.

(** The snapshot holds the key [route:noticeId] of every active record of
    the company, and nothing else. *)
Lemma getActiveNotices_spec company w :
  exists A, getActiveNotices company w = (Ok A, w)
    /\ forall k, k ∈ A <-> exists r n x, record w (code_string (code company)) r n = Some x
                                         /\ isActive x = true /\ k = r ++ ":" ++ n.
Proof.
  unfold getActiveNotices, bind. rewrite getMetadata_eq. eexists. split; [reflexivity|].
  intros k. rewrite active_of_company. unfold record, lookup3.
  destruct (current w !! code_string (code company)) as [cd|]; simpl.
  - split.
    + intros (r & rd & n & x & Hr & Hn & Hact & ->). exists r, n, x. by rewrite Hr.
    + intros (r & n & x & Hx & Hact & ->). destruct (cd !! r) as [rd|] eqn:Hr; [|done].
      eauto 10.
  - split.
    + intros (r & rd & n & x & Hr & _). by rewrite lookup_empty in Hr.
    + by intros (r & n & x & Hx & _).
Qed.

(** ** A whole pass *)

Section ReconcileFacts.

Variable E : Env.
Variable company : CompanyMetadata.
Variable fetchNotices : Route -> Result (list Notice).
Variable now : Date.

(** A pass: the scan of the routes, then, if the scan returns, the
    retirement loop over the snapshot. *)
Lemma reconcile_eq routes w A :
  getActiveNotices company w = (Ok A, w) ->
  reconcile E company fetchNotices now routes w =
    match fst (for_of routes (scanRoute E company fetchNotices now) (mkPass ∅ w)) with
    | Ok _ =>
        (fst (for_of (elements A) (retireNotice company)
                (scanned E company fetchNotices now routes w)),
         world (retired company A (scanned E company fetchNotices now routes w)))
    | Throw e => (Throw e, world (scanned E company fetchNotices now routes w))
    | Outside => (Outside, world (scanned E company fetchNotices now routes w))
    end.
Proof.
  intros HA. unfold reconcile, bind at 1. rewrite HA. unfold with_seen, bind, retired, scanned.
  destruct (for_of routes _ (mkPass ∅ w)) as [[[]|e|] s]; simpl; [|done..].
  by destruct (for_of (elements A) _ s).
Qed.

(** The world after a pass is the world after the scan, or the world
    after the scan and the retirement loop. *)
Lemma reconcile_snd routes w A :
  getActiveNotices company w = (Ok A, w) ->
  snd (reconcile E company fetchNotices now routes w)
    = world (scanned E company fetchNotices now routes w)
  \/ snd (reconcile E company fetchNotices now routes w)
     = world (retired company A (scanned E company fetchNotices now routes w)).
Proof.
  intros HA. rewrite (reconcile_eq routes w A HA).
  destruct (fst (for_of routes _ _)) as [[]|e|]; auto.
Qed.

(** A pass that returns has run both loops to their end. *)
Lemma reconcile_ok routes w A :
  getActiveNotices company w = (Ok A, w) ->
  fst (reconcile E company fetchNotices now routes w) = Ok tt ->
  fst (for_of (elements A) (retireNotice company)
         (scanned E company fetchNotices now routes w)) = Ok tt
  /\ snd (reconcile E company fetchNotices now routes w)
     = world (retired company A (scanned E company fetchNotices now routes w)).
Proof.
  intros HA. rewrite (reconcile_eq routes w A HA).
  by destruct (fst (for_of routes _ _)) as [[]|e|].
Qed.

(** When the scan returns, the world after the pass is the world after
    both loops. *)
Lemma reconcile_scanned routes w A :
  getActiveNotices company w = (Ok A, w) ->
  fst (for_of routes (scanRoute E company fetchNotices now) (mkPass ∅ w)) = Ok tt ->
  reconcile E company fetchNotices now routes w
    = (fst (for_of (elements A) (retireNotice company)
              (scanned E company fetchNotices now routes w)),
       world (retired company A (scanned E company fetchNotices now routes w))).
Proof. intros HA Hok. by rewrite (reconcile_eq routes w A HA), Hok. Qed.

End ReconcileFacts.

(** ** Keys and the seen set *)

Lemma split_singleton sep s x : split sep s = [x] -> x = s.
Proof.
  revert x. induction s as [|a s IH]; intros x; simpl.
  - congruence.
  - destruct (Ascii.eqb a sep).
    + intros Heq. injection Heq as _ Heq. by destruct (split_nonempty sep s).
    + destruct (split sep s) as [|seg rest] eqn:Hs; [by destruct (split_nonempty sep s)|].
      intros Heq. injection Heq as <- ->. by rewrite (IH seg).
Qed.

(** A key without a colon in its route and its notice id can only be the
    key of that route. *)
Lemma key_route_inj r n r' n' :
  has_char ":" r = false -> has_char ":" n = false ->
  r ++ ":" ++ n = r' ++ ":" ++ n' -> r' = r.
Proof.
  intros Hr Hn Heq. apply (f_equal (split ":")) in Heq.
  change (r ++ ":" ++ n) with (r ++ String ":" n) in Heq.
  change (r' ++ ":" ++ n') with (r' ++ String ":" n') in Heq.
  rewrite split_app_sep, split_no_sep, split_app in Heq by done.
  pose proof (split_nonempty ":" n') as Hn'.
  destruct (split ":" r') as [|a l1] eqn:Hr'; [by destruct (split_nonempty ":" r')|].
  destruct (split ":" n') as [|b l2]; [done|].
  destruct l1 as [|a' l1]; simpl in Heq.
  - injection Heq as <- _. symmetry. by apply (split_singleton ":").
  - destruct l1; simpl in Heq; discriminate.
Qed.

Lemma scanNotice_seen E company now rt x s :
  seenNotices (snd (scanNotice E company now rt x s))
    = {[ r_route rt ++ ":" ++ notice_id x ]} ∪ seenNotices s.
Proof. rewrite scanNotice_eq. by destruct (member3 _ _ _ _). Qed.

(** C5 (as stated, refuted).  The download of a brand-new notice fails, so
    its insert throws and nothing is persisted, yet the notice's key is
    in the seen set afterwards. *)
Lemma C5_seen_despite_failed_insert :
  fst (scanNotice failing_env KMB_COMPANY 200 (mkRoute "1" (Some 1))
         (kmb_notice failing_env "1" ("N1", "n1.pdf")) (mkPass ∅ empty_world))
    = Throw "Failed to download PDF"
  /\ world (snd (scanNotice failing_env KMB_COMPANY 200 (mkRoute "1" (Some 1))
                   (kmb_notice failing_env "1" ("N1", "n1.pdf")) (mkPass ∅ empty_world)))
     = empty_world
  /\ ("1:N1" ∉ seenNotices (mkPass ∅ empty_world))
  /\ "1:N1" ∈ seenNotices (snd (scanNotice failing_env KMB_COMPANY 200 (mkRoute "1" (Some 1))
                                  (kmb_notice failing_env "1" ("N1", "n1.pdf"))
                                  (mkPass ∅ empty_world))).
Proof.
  split; [reflexivity|]. split; [reflexivity|]. split.
  - simpl. set_solver.
  - vm_compute. reflexivity.
Qed.

(** C5 (amended).  The step for a notice adds the notice's key to the seen
    set before it attempts the mutation: whether the insert or the touch
    returns or throws, the seen set afterwards is the one before plus the
    key. *)
Theorem C5_seen_before_mutation (E : Env) (company : CompanyMetadata) (now : Date)
    (rt : Route) (notice : Notice) (s : Pass) :
  seenNotices (snd (scanNotice E company now rt notice s))
    = {[ r_route rt ++ ":" ++ notice_id notice ]} ∪ seenNotices s.
Proof.
  unfold scanNotice, seen_add, on_world, bind. simpl.
  destruct (noticeExistsInMetadata company (r_route rt) (notice_id notice) (world s))
    as [[exists_| |] w']; simpl; [|done..].
  destruct exists_; simpl.
  - by destruct (updateLastSeen _ _ _ _ _) as [[] ?].
  - by destruct (addNotice _ _ _ _ _ _) as [[] ?].
Qed.

(** C10.  An active record whose route and notice id hold no colon has a
    key in the snapshot of [getActiveNotices]; that key decodes to the
    route and the notice id of the record; and the retirement loop, at
    that key when it was not seen, retires that very record and changes
    no other.  When no active record of the company has a colon in its
    route or its notice id, every key of the snapshot decodes to the key
    of an active record. *)
Theorem C10_key_round_trip (company : CompanyMetadata) (route noticeId : string)
    (x : Notice) (w : World) :
  has_char ":" route = false ->
  has_char ":" noticeId = false ->
  record w (code_string (code company)) route noticeId = Some x ->
  isActive x = true ->
  exists activeNotices key,
    getActiveNotices company w = (Ok activeNotices, w)
    /\ key ∈ activeNotices
    /\ decodeKey key = (route, noticeId)
    /\ (forall seen, key ∉ seen ->
          fst (retireNotice company key (mkPass seen w)) = Ok tt
          /\ record (world (snd (retireNotice company key (mkPass seen w))))
               (code_string (code company)) route noticeId = Some (set_isActive false x)
          /\ forall c' r' n',
               (c', r', n') ≠ (code_string (code company), route, noticeId) ->
               record (world (snd (retireNotice company key (mkPass seen w)))) c' r' n'
                 = record w c' r' n')
    /\ (colon_free_keys (code_string (code company)) w ->
        forall key', key' ∈ activeNotices ->
          exists r n y, decodeKey key' = (r, n)
                        /\ record w (code_string (code company)) r n = Some y
                        /\ isActive y = true).
Proof.
  intros Hr Hn Hx Hact.
  destruct (getActiveNotices_spec company w) as (A & HA & HAspec).
  exists A, (route ++ ":" ++ noticeId).
  pose proof (decodeKey_encode route noticeId Hr Hn) as Hd.
  split; [done|]. split; [apply HAspec; by exists route, noticeId, x|]. split; [done|]. split.
  - intros seen Hseen. rewrite retireNotice_eq, bool_decide_eq_false_2 by done.
    rewrite Hd. simpl. split; [by rewrite (markInactive_Some _ _ _ _ _ Hx)|]. split.
    + by rewrite record_markInactive, decide_True, Hx.
    + intros c' r' n' Hne. rewrite record_markInactive, decide_False; [done|congruence].
  - intros Hfree key' (r & n & y & Hy & Hacty & ->)%HAspec.
    destruct (Hfree r n y Hy Hacty) as [Hr' Hn'].
    exists r, n, y. by rewrite decodeKey_encode.
Qed.

Section SeenFacts.

Variable E : Env.
Variable company : CompanyMetadata.
Variable fetchNotices : Route -> Result (list Notice).
Variable now : Date.

(** Every key the scan adds to the seen set is a key of a scanned route. *)
Lemma scan_seen_routes routes s k :
  k ∈ seenNotices (snd (for_of routes (scanRoute E company fetchNotices now) s)) ->
  k ∈ seenNotices s \/ exists rt n, rt ∈ routes /\ k = r_route rt ++ ":" ++ n.
Proof.
  revert k.
  apply (for_of_rel (fun s s' : Pass => forall k, k ∈ seenNotices s' ->
           k ∈ seenNotices s \/ exists rt n, rt ∈ routes /\ k = r_route rt ++ ":" ++ n)).
  - intros t k Hk. by left.
  - intros s1 s2 s3 H12 H23 k Hk. destruct (H23 k Hk) as [Hk'|?]; [by apply H12|by right].
  - intros rt t Hrt. rewrite scanRoute_snd.
    destruct (fetchNotices rt) as [l|e|]; [|intros k Hk; by left..].
    apply (for_of_rel (fun s s' : Pass => forall k, k ∈ seenNotices s' ->
             k ∈ seenNotices s \/ exists rt n, rt ∈ routes /\ k = r_route rt ++ ":" ++ n)).
    + intros u k Hk. by left.
    + intros s1 s2 s3 H12 H23 k Hk. destruct (H23 k Hk) as [Hk'|?]; [by apply H12|by right].
    + intros x u _ k. rewrite scanNotice_seen.
      intros [->%elem_of_singleton|Hk]%elem_of_union; [right; eauto|by left].
Qed.

End SeenFacts.

(** ** Routes that a pass does not scan *)

Section Unscanned.

Variable E : Env.
Variable company : CompanyMetadata.
Variable fetchNotices : Route -> Result (list Notice).
Variable now : Date.
Hypothesis fetch_route : files_under_route fetchNotices.

Local Abbreviation c := (code_string (code company)).

(** An active record of a route that the pass does not scan is retired by
    a pass that returns, and is otherwise left as it was. *)
Lemma reconcile_retires_unscanned routes w r n x :
  record w c r n = Some x -> isActive x = true ->
  r ∉ map r_route routes ->
  has_char ":" r = false -> has_char ":" n = false ->
  fst (reconcile E company fetchNotices now routes w) = Ok tt ->
  record (snd (reconcile E company fetchNotices now routes w)) c r n
    = Some (set_isActive false x).
Proof.
  intros Hx Hact Hroute Hr Hn Hok.
  destruct (getActiveNotices_spec company w) as (A & HA & HAspec).
  destruct (reconcile_ok E company fetchNotices now routes w A HA Hok) as [Hloop ->].
  assert (Hunseen : r ++ ":" ++ n ∉ seenNotices (scanned E company fetchNotices now routes w)).
  { intros Hk. apply scan_seen_routes in Hk as [Hk|(rt & n' & Hrt & Hk)]; [set_solver|].
    apply key_route_inj in Hk; [|done..]. apply Hroute.
    apply list_elem_of_fmap. by exists rt. }
  unfold retired. rewrite (retire_loop_hit company _ _ (r ++ ":" ++ n) r n).
  - destruct (scan_routes_le E company fetchNotices now fetch_route routes (mkPass ∅ w))
      as [_ Hrec].
    specialize (Hrec c r n). simpl in Hrec. rewrite Hx in Hrec.
    destruct Hrec as [Hrec|(_ & _ & Hseen)]; [|by destruct Hunseen].
    unfold scanned. by rewrite Hrec.
  - apply elem_of_elements, HAspec. by exists r, n, x.
  - done.
  - by apply decodeKey_encode.
  - done.
Qed.

End Unscanned.

(** ** The three scrapers *)

Lemma fetchKMBNotices_route E : files_under_route (fetchKMBNotices E).
Proof.
  intros rt l. unfold fetchKMBNotices.
  destruct (kmb_notice_api E _ _) as [| | |[data|]]; intros Hl; try discriminate;
    injection Hl as <-; try by constructor.
  apply Forall_forall. intros x [raw [-> _]]%list_elem_of_fmap. done.
Qed.

Lemma fetchKMBNotices_strict_route E : files_under_route (fetchKMBNotices_strict E).
Proof.
  intros rt l. unfold fetchKMBNotices_strict.
  destruct (kmb_notice_api E _ _) as [| | |[data|]]; intros Hl; try discriminate.
  injection Hl as <-.
  apply Forall_forall. intros x [raw [-> _]]%list_elem_of_fmap. done.
Qed.

Lemma fetchCTBNotices_route E : files_under_route (fetchCTBNotices E).
Proof.
  intros rt l. unfold fetchCTBNotices.
  destruct (ctb_notice_api E _) as [| | |[data|]]; intros Hl; try discriminate;
    injection Hl as <-; try by constructor.
  apply Forall_forall. intros x [raw [-> _]]%list_elem_of_fmap. done.
Qed.

Lemma fetchKMBNotices_settles E : settles (fetchKMBNotices E).
Proof.
  intros rt. unfold fetchKMBNotices. by destruct (kmb_notice_api E _ _) as [| | |[data|]].
Qed.

Lemma fetchKMBNotices_strict_settles E : settles (fetchKMBNotices_strict E).
Proof.
  intros rt. unfold fetchKMBNotices_strict.
  by destruct (kmb_notice_api E _ _) as [| | |[data|]].
Qed.

Lemma fetchCTBNotices_settles E : settles (fetchCTBNotices E).
Proof.
  intros rt. unfold fetchCTBNotices. by destruct (ctb_notice_api E _) as [| | |[data|]].
Qed.

Lemma scrapeKMB_eq E now routes w :
  fetchKMBRoutes E = Ok routes ->
  scrapeKMB E now w = reconcile E KMB_COMPANY (fetchKMBNotices E) now routes w.
Proof. intros Hr. unfold scrapeKMB, bind at 1, await. by rewrite Hr. Qed.

Lemma scrapeKMB_capped_eq E now routes w :
  fetchKMBRoutes E = Ok routes ->
  scrapeKMB_capped E now w
    = reconcile E KMB_COMPANY (fetchKMBNotices_strict E) now (take 10 routes) w.
Proof. intros Hr. unfold scrapeKMB_capped, bind at 1, await. by rewrite Hr. Qed.

Lemma scrapeCTB_eq E now routes w :
  fetchCTBRoutes E = Ok routes ->
  scrapeCTB E now w = reconcile E CTB_COMPANY (fetchCTBNotices E) now (take 10 routes) w.
Proof. intros Hr. unfold scrapeCTB, bind at 1, await. by rewrite Hr. Qed.

(** C2 (as stated, refuted).  Citybus lists eleven routes, the run scans
    the first ten, and the active notice of the eleventh route, which the
    run never asked about, is retired by it. *)
Lemma C2_eleventh_route_notice_retired :
  fetchCTBRoutes eleven_routes_env
    = Ok (map (fun r => mkRoute r None)
            ["1"; "2"; "3"; "4"; "5"; "6"; "7"; "8"; "9"; "10"; "11"])
  /\ record eleventh_route_world "CTB" "11" "N1" = Some (sample_notice "N1" "11" true)
  /\ record (snd (scrapeCTB eleven_routes_env 200 eleventh_route_world)) "CTB" "11" "N1"
     = Some (sample_notice "N1" "11" false)
  /\ record (snd (scrapeCTB eleven_routes_env 200 eleventh_route_world)) "CTB" "11" "N1"
     ≠ record eleventh_route_world "CTB" "11" "N1".
Proof. repeat split; vm_compute; congruence. Qed.

(** C2 (amended).  In the scrapers that scan only the first ten routes, an
    active record of a route outside those ten is retired by a run that
    returns: its [isActive] becomes false and its other fields stay
    (route and notice id without a colon). *)
Theorem C2_capped_run_retires_unscanned_routes (E : Env) (now : Date) (w : World)
    (r n : string) (x : Notice) :
  isActive x = true ->
  has_char ":" r = false ->
  has_char ":" n = false ->
  (forall routes,
     fetchKMBRoutes E = Ok routes ->
     record w "KMB" r n = Some x ->
     r ∉ map r_route (take 10 routes) ->
     fst (scrapeKMB_capped E now w) = Ok tt ->
     record (snd (scrapeKMB_capped E now w)) "KMB" r n = Some (set_isActive false x))
  /\ (forall routes,
        fetchCTBRoutes E = Ok routes ->
        record w "CTB" r n = Some x ->
        r ∉ map r_route (take 10 routes) ->
        fst (scrapeCTB E now w) = Ok tt ->
        record (snd (scrapeCTB E now w)) "CTB" r n = Some (set_isActive false x)).
Proof.
  intros Hact Hr Hn. split; intros routes Hroutes Hx Hout.
  - rewrite (scrapeKMB_capped_eq E now routes w Hroutes).
    by apply (reconcile_retires_unscanned E KMB_COMPANY _ now (fetchKMBNotices_strict_route E)).
  - rewrite (scrapeCTB_eq E now routes w Hroutes).
    by apply (reconcile_retires_unscanned E CTB_COMPANY _ now (fetchCTBNotices_route E)).
Qed.

(** ** Two passes in a row *)


Lemma scan_le_covers c now s s' : scan_le c now s s' -> covers s s'.
Proof.
  intros [Hseen Hrec]. split; [done|]. intros c' r n [x Hx].
  specialize (Hrec c' r n). rewrite Hx in Hrec.
  destruct Hrec as [->|[-> _]]; eauto.
Qed.

Lemma retire_le_records s s' c' r n :
  retire_le s s' ->
  is_Some (record (world s) c' r n) -> is_Some (record (world s') c' r n).
Proof.
  intros (_ & _ & Hrec) [x Hx]. destruct (Hrec c' r n) as [->| ->]; rewrite Hx; eauto.
Qed.

Section StepFacts.

Variable E : Env.
Variable company : CompanyMetadata.
Variable now : Date.

Local Abbreviation c := (code_string (code company)).

(** A turn that returns leaves a record for its notice. *)
Lemma scanNotice_ok_recorded rt x s :
  route x = r_route rt ->
  fst (scanNotice E company now rt x s) = Ok tt ->
  is_Some (record (world (snd (scanNotice E company now rt x s))) c (r_route rt) (notice_id x)).
Proof.
  intros Hr. destruct (scanNotice_cases E company now rt x s Hr)
    as [(y & Hk & ->)|[(buffer & w' & Hk & Hu & -> & _ & Hrec)
                      |(res & w' & Hk & -> & Hres & _)]]; simpl; [| |done].
  - intros _. rewrite record_updateLastSeen, decide_True, Hk by done. eauto.
  - intros _. rewrite Hrec, decide_True by done. eauto.
Qed.

(** At a key that names no member of [Object.prototype], a turn returns
    or throws, and it throws exactly when its notice has no record and
    its document cannot be downloaded; the world is then as before. *)
Lemma scanNotice_not_outside rt x s :
  route x = r_route rt ->
  inherited (r_route rt) = false -> inherited (notice_id x) = false ->
  fst (scanNotice E company now rt x s) <> Outside.
Proof.
  intros Hr Hpr Hpn. destruct (scanNotice_cases E company now rt x s Hr)
    as [(y & Hk & ->)|[(buffer & w' & Hk & Hu & -> & _)
                      |(res & w' & Hk & -> & _ & _ & _ & _ & Hpl)]]; simpl; [done..|].
  by destruct (Hpl Hpr Hpn) as (_ & msg & ->).
Qed.


Lemma scanNotice_returns rt x s :
  route x = r_route rt ->
  inherited (r_route rt) = false -> inherited (notice_id x) = false ->
  is_Some (record (world s) c (r_route rt) (notice_id x))
  \/ (exists buffer, http_pdf E (pdfUrl x) = Payload buffer) ->
  fst (scanNotice E company now rt x s) = Ok tt.
Proof.
  intros Hr Hpr Hpn Hcan. destruct (scanNotice_cases E company now rt x s Hr)
    as [(y & Hk & ->)|[(buffer & w' & Hk & Hu & -> & _)
                      |(res & w' & Hk & -> & _ & _ & _ & _ & Hpl)]]; simpl; [done..|].
  destruct (Hpl Hpr Hpn) as (Hfail & _).
  destruct Hcan as [[y Hy]|[buffer Hb]]; [congruence|by destruct (Hfail buffer)].
Qed.



End StepFacts.



(** ** Passes over reports that name no member of [Object.prototype] *)

Section PlainFacts.

Variable E : Env.
Variable company : CompanyMetadata.
Variable fetchNotices : Route -> Result (list Notice).
Variable now : Date.
Hypothesis fetch_route : files_under_route fetchNotices.
Hypothesis fetch_settles : settles fetchNotices.

Local Abbreviation c := (code_string (code company)).

Lemma plain_reports_cons rt routes :
  plain_reports fetchNotices (rt :: routes) ->
  (forall l, fetchNotices rt = Ok l ->
     Forall (fun x => inherited (r_route rt) = false /\ inherited (notice_id x) = false) l)
  /\ plain_reports fetchNotices routes.
Proof.
  intros Hplain. split.
  - intros l Hf. apply Forall_forall. intros x Hx.
    apply Hplain. exists rt, l, x. repeat split; [by left|done..].
  - intros r n (rt' & l & x & Hrt & Hf & Hx & <- & <-).
    apply Hplain. exists rt', l, x. repeat split; [by right|done..].
Qed.

(** The inner loop over such notices returns or throws. *)
Lemma scan_notices_not_outside rt l s :
  Forall (fun x => route x = r_route rt) l ->
  Forall (fun x => inherited (r_route rt) = false /\ inherited (notice_id x) = false) l ->
  fst (for_of l (scanNotice E company now rt) s) <> Outside.
Proof.
  intros Hroute. revert s. induction Hroute as [|x l Hr Hroute IH]; intros s Hpl; [done|].
  inversion Hpl as [|? ? [Hpr Hpn] Hpl']; subst.
  rewrite for_of_cons.
  pose proof (scanNotice_not_outside E company now rt x s Hr Hpr Hpn) as Hx.
  destruct (scanNotice E company now rt x s) as [[[]|msg|] s1]; [by apply IH|done..].
Qed.

(** The turn of a route returns. *)
Lemma scanRoute_ok rt s :
  (forall l, fetchNotices rt = Ok l ->
     Forall (fun x => inherited (r_route rt) = false /\ inherited (notice_id x) = false) l) ->
  scanRoute E company fetchNotices now rt s
    = (Ok tt, match fetchNotices rt with
              | Ok l => snd (for_of l (scanNotice E company now rt) s)
              | _ => s
              end).
Proof.
  intros Hpl. rewrite scanRoute_eq. pose proof (fetch_settles rt) as Hset.
  destruct (fetchNotices rt) as [l|e|] eqn:Hf; [|done..].
  pose proof (scan_notices_not_outside rt l s (fetch_route rt l Hf) (Hpl l eq_refl)) as Hl.
  by destruct (fst (for_of l _ s)) as [[]|e|].
Qed.

(** The scan of the routes returns. *)
Lemma scan_routes_ok routes s :
  plain_reports fetchNotices routes ->
  fst (for_of routes (scanRoute E company fetchNotices now) s) = Ok tt.
Proof.
  revert s. induction routes as [|rt routes IH]; intros s Hplain; [done|].
  apply plain_reports_cons in Hplain as [Hrt Hrest].
  rewrite for_of_cons, (scanRoute_ok rt s Hrt). by apply IH.
Qed.


End PlainFacts.

Section Twice.

Variable E : Env.
Variable company : CompanyMetadata.
Variable fetchNotices : Route -> Result (list Notice).
Variable now : Date.
Hypothesis fetch_route : files_under_route fetchNotices.
Hypothesis fetch_settles : settles fetchNotices.

Local Abbreviation c := (code_string (code company)).




End Twice.

Lemma scan_le_lastSeen c now s s' c' r n y :
  scan_le c now s s' ->
  record (world s) c' r n = Some y -> lastSeenAt y = Some now ->
  exists z, record (world s') c' r n = Some z /\ lastSeenAt z = Some now.
Proof.
  intros [_ Hrec] Hy Hseen. specialize (Hrec c' r n). rewrite Hy in Hrec.
  destruct Hrec as [->|[-> _]]; eauto.
Qed.

(** ** A second pass when every download succeeds *)

Section Settled.

Variable E : Env.
Variable company : CompanyMetadata.
Variable now : Date.

Local Abbreviation c := (code_string (code company)).

(** With every download succeeding, the inner loop runs to its end and
    leaves a record for each of its notices. *)
Lemma scan_notices_recorded rt l s :
  Forall (fun x => route x = r_route rt) l ->
  Forall (fun x => inherited (r_route rt) = false /\ inherited (notice_id x) = false) l ->
  Forall (fun x => exists buffer, http_pdf E (pdfUrl x) = Payload buffer) l ->
  forall x, x ∈ l ->
    is_Some (record (world (snd (for_of l (scanNotice E company now rt) s)))
               c (r_route rt) (notice_id x)).
Proof.
  intros Hroute. revert s. induction Hroute as [|x0 l Hr Hroute IH]; intros s Hpl Hdl x Hx;
    [by inversion Hx|].
  inversion Hdl as [|? ? Hb Hdl']; subst.
  inversion Hpl as [|? ? [Hpr Hpn] Hpl']; subst.
  rewrite for_of_cons.
  pose proof (scanNotice_returns E company now rt x0 s Hr Hpr Hpn (or_intror Hb)) as Hok.
  pose proof (scanNotice_ok_recorded E company now rt x0 s Hr) as Hrec.
  destruct (scanNotice E company now rt x0 s) as [res s1]. simpl in Hok. subst res.
  apply elem_of_cons in Hx as [->|Hx]; [|by apply IH].
  apply (scan_le_covers c now s1); [by apply scan_notices_le|by apply Hrec].
Qed.


Variable fetchNotices : Route -> Result (list Notice).
Hypothesis fetch_route : files_under_route fetchNotices.
Hypothesis fetch_settles : settles fetchNotices.

Lemma scan_routes_recorded routes s r n :
  plain_reports fetchNotices routes ->
  downloads_ok E fetchNotices routes ->
  reports fetchNotices routes r n ->
  is_Some (record (world (snd (for_of routes (scanRoute E company fetchNotices now) s))) c r n).
Proof.
  revert s. induction routes as [|rt0 routes IH];
    intros s Hplain Hdl (rt & l & x & Hrt & Hf & Hx & <- & <-); [by inversion Hrt|].
  apply plain_reports_cons in Hplain as [Hrt0 Hrest].
  rewrite for_of_cons, (scanRoute_ok E company fetchNotices now fetch_route fetch_settles
                          rt0 s Hrt0).
  apply elem_of_cons in Hrt as [->|Hrt].
  - rewrite Hf.
    apply (scan_le_covers c now _ _
             (scan_routes_le E company fetchNotices now fetch_route routes _)). simpl.
    apply scan_notices_recorded; [by apply fetch_route|by apply Hrt0| |done].
    apply Forall_forall. intros y Hy. apply (Hdl rt0 l y); [by left|done..].
  - apply IH; [done| |].
    + intros rt' l' x' Hrt'. apply Hdl. by right.
    + by exists rt, l, x.
Qed.



End Settled.




(** * Further properties of the store *)

(** X1.  Inserting a brand-new notice whose document downloads, under a
    route and a notice id that name no member of [Object.prototype],
    returns normally, stores the notice with [discoveredAt] at the given
    date and its other fields as passed, and writes the document at the
    generated path, so that both existence tests answer true
    afterwards. *)
Theorem addNotice_new_inserts (E : Env) (notice : Notice) (company : CompanyMetadata)
    (date : Date) (url buffer : string) (w : World) :
  record w (code_string (code company)) (route notice) (notice_id notice) = None ->
  inherited (route notice) = false ->
  inherited (notice_id notice) = false ->
  http_pdf E url = Payload buffer ->
  fst (addNotice E notice company date url w) = Ok tt
  /\ record (snd (addNotice E notice company date url w))
       (code_string (code company)) (route notice) (notice_id notice)
     = Some (set_discoveredAt date notice)
  /\ pdf_files (snd (addNotice E notice company date url w))
       !! generatePdfPath E company (route notice) (notice_id notice) date = Some buffer
  /\ noticeExistsInMetadata company (route notice) (notice_id notice)
       (snd (addNotice E notice company date url w))
     = (Ok true, snd (addNotice E notice company date url w))
  /\ noticeExists E company (route notice) (notice_id notice) date
       (snd (addNotice E notice company date url w))
     = (Ok true, snd (addNotice E notice company date url w)).
Proof.
  intros Hk Hr Hn Hu.
  assert (Hrec : record (snd (addNotice E notice company date url w))
                   (code_string (code company)) (route notice) (notice_id notice)
                 = Some (set_discoveredAt date notice)).
  { rewrite (record_addNotice_ok E company notice date url w buffer) by done.
    by rewrite decide_True. }
  assert (Hpdf : pdf_files (snd (addNotice E notice company date url w))
                   !! generatePdfPath E company (route notice) (notice_id notice) date
                 = Some buffer).
  { rewrite (addNotice_new_ok E _ _ _ _ _ _ Hk Hr Hn Hu). simpl. apply lookup_insert_eq. }
  split; [by rewrite (addNotice_new_ok E _ _ _ _ _ _ Hk Hr Hn Hu)|].
  split; [done|]. split; [done|]. split.
  - by apply noticeExistsInMetadata_Some with (x := set_discoveredAt date notice).
  - unfold noticeExists. by rewrite Hpdf.
Qed.

(** X2.  [addNotice] on a key that has a record downloads nothing and
    cannot fail: whatever the URL answers, it returns normally, leaves the
    documents as they are, and rewrites the record with [lastSeenAt] at
    the given date and [isActive] true, ignoring the fields of the notice
    passed. *)
Theorem addNotice_existing_reactivates (E : Env) (notice : Notice)
    (company : CompanyMetadata) (date : Date) (url : string) (w : World) (x : Notice) :
  record w (code_string (code company)) (route notice) (notice_id notice) = Some x ->
  fst (addNotice E notice company date url w) = Ok tt
  /\ record (snd (addNotice E notice company date url w))
       (code_string (code company)) (route notice) (notice_id notice)
     = Some (set_isActive true (set_lastSeenAt date x))
  /\ pdf_files (snd (addNotice E notice company date url w)) = pdf_files w.
Proof.
  intros Hk. rewrite (addNotice_existing E _ _ _ _ _ _ Hk). simpl.
  split; [done|]. split; [|done].
  apply record_stored_put_eq. rewrite lookup3_ensure. by exists x.
Qed.

(** X3.  Retiring and touching are idempotent on the whole persisted
    state: a second [markInactive] of the same key, or a second
    [updateLastSeen] of the same key with the same date, leaves the world
    exactly as the first one left it, whether or not the key has a
    record. *)
Theorem markInactive_updateLastSeen_idempotent (company : CompanyMetadata)
    (route noticeId : string) (date : Date) (w : World) :
  snd (markInactive route noticeId company (snd (markInactive route noticeId company w)))
    = snd (markInactive route noticeId company w)
  /\ snd (updateLastSeen route noticeId date company
            (snd (updateLastSeen route noticeId date company w)))
     = snd (updateLastSeen route noticeId date company w).
Proof.
  split.
  - destruct (record w (code_string (code company)) route noticeId) as [x|] eqn:Hk.
    + pose proof (record_markInactive company route noticeId w
                    (code_string (code company)) route noticeId) as Hrec.
      rewrite decide_True, Hk in Hrec by done. simpl in Hrec.
      rewrite (markInactive_Some _ _ _ _ _ Hrec). simpl.
      rewrite (put_notice_id _ _ _ (set_isActive false (set_isActive false x)) _ Hrec).
      by rewrite (markInactive_Some _ _ _ _ _ Hk).
    + unfold record in Hk. rewrite lookup3_member3 in Hk.
      rewrite (markInactive_eq _ _ _ w).
      destruct (member3 (current w) _ route noticeId) eqn:Hm; [discriminate|..]; simpl;
        rewrite markInactive_eq, ?current_stored, Hm; done.
  - destruct (record w (code_string (code company)) route noticeId) as [x|] eqn:Hk.
    + pose proof (record_updateLastSeen company route noticeId date w
                    (code_string (code company)) route noticeId) as Hrec.
      rewrite decide_True, Hk in Hrec by done. simpl in Hrec.
      rewrite (updateLastSeen_Some _ _ _ _ _ _ Hrec). simpl.
      rewrite (put_notice_id _ _ _ (set_lastSeenAt date (set_lastSeenAt date x)) _ Hrec).
      by rewrite (updateLastSeen_Some _ _ _ _ _ _ Hk).
    + unfold record in Hk. rewrite lookup3_member3 in Hk.
      rewrite (updateLastSeen_eq _ _ _ _ w).
      destruct (member3 (current w) _ route noticeId) eqn:Hm; [discriminate|..]; simpl;
        rewrite updateLastSeen_eq, ?current_stored, Hm; done.
Qed.

(** X4.  [markInactive] on a key that has a record clears [isActive] and
    nothing else: the record keeps its other fields, still counts as
    existing, and no document is touched. *)
Theorem markInactive_retires (company : CompanyMetadata) (route noticeId : string)
    (w : World) (x : Notice) :
  record w (code_string (code company)) route noticeId = Some x ->
  record (snd (markInactive route noticeId company w))
    (code_string (code company)) route noticeId = Some (set_isActive false x)
  /\ noticeExistsInMetadata company route noticeId (snd (markInactive route noticeId company w))
     = (Ok true, snd (markInactive route noticeId company w))
  /\ pdf_files (snd (markInactive route noticeId company w)) = pdf_files w.
Proof.
  intros Hk.
  assert (Hrec : record (snd (markInactive route noticeId company w))
                   (code_string (code company)) route noticeId = Some (set_isActive false x)).
  { rewrite record_markInactive, decide_True by done. by rewrite Hk. }
  split; [done|]. split.
  - by apply noticeExistsInMetadata_Some with (x := set_isActive false x).
  - apply pdf_files_markInactive.
Qed.

(** X5.  A store mutation changes the record of the key it addresses and
    no other: every other key, of this company or another, reads after
    the mutation as before, whether the mutation returned or threw. *)
Theorem mutation_frame (E : Env) (op : StoreOp) (w : World) (c r n : string) :
  op_key op ≠ (c, r, n) ->
  record (snd (apply_op E op w)) c r n = record w c r n.
Proof.
  destruct op as [notice company date url|route0 noticeId company|route0 noticeId date company];
    simpl; intros Hne.
  - destruct (addNotice_cases E notice company date url w)
      as [(x & Hk & ->)|[(buffer & Hk & Hu & Hm & ->)|(res & w' & Hk & -> & _ & _ & Hrec & _)]];
      simpl.
    + by rewrite record_stored_put_ne, lookup3_ensure.
    + by rewrite record_stored_put_ne, lookup3_ensure.
    + apply Hrec.
  - rewrite record_markInactive. by rewrite decide_False.
  - rewrite record_updateLastSeen. by rewrite decide_False.
Qed.

(** X6.  The snapshot [getActiveNotices] returns never fails, leaves the
    world alone, and holds exactly the strings [route:noticeId] of the
    records of the company whose [isActive] is true. *)
Theorem getActiveNotices_exact (company : CompanyMetadata) (w : World) :
  exists activeNotices,
    getActiveNotices company w = (Ok activeNotices, w)
    /\ forall key,
         key ∈ activeNotices <->
         exists route noticeId notice,
           record w (code_string (code company)) route noticeId = Some notice
           /\ isActive notice = true
           /\ key = route ++ ":" ++ noticeId.
Proof.
  destruct (getActiveNotices_spec company w) as (A & HA & Hspec).
  exists A. split; [done|]. intros key. apply Hspec.
Qed.

(** * Further properties of the keys and of the adapters *)

Lemma split_two sep s t x y :
  (split sep s ++ split sep t)%list = [x; y] -> s = x /\ t = y.
Proof.
  pose proof (split_nonempty sep s) as Hs. pose proof (split_nonempty sep t) as Ht.
  destruct (split sep s) as [|a [|a' l1]] eqn:Es; [done| |].
  - destruct (split sep t) as [|b [|b' l2]] eqn:Et; [done| |]; simpl; intros Heq;
      [|discriminate].
    injection Heq as <- <-. split; symmetry; by apply (split_singleton sep).
  - destruct (split sep t) as [|b l2]; [done|]. simpl. intros Heq. injection Heq as _ _ Heq.
    by destruct l1.
Qed.

(** X7.  The key of the seen set tells notices apart when the route and
    the notice id hold no colon: a key [route:noticeId] built from such a
    pair is the key of no other pair, whatever the other pair holds. *)
Theorem noticeKey_injective (r n r' n' : string) :
  has_char ":" r = false -> has_char ":" n = false ->
  r ++ ":" ++ n = r' ++ ":" ++ n' -> r' = r /\ n' = n.
Proof.
  intros Hr Hn Heq. apply (f_equal (split ":")) in Heq.
  change (r ++ ":" ++ n) with (r ++ String ":" n) in Heq.
  change (r' ++ ":" ++ n') with (r' ++ String ":" n') in Heq.
  rewrite split_app_sep, split_no_sep, split_app in Heq by done.
  symmetry in Heq. by apply split_two in Heq.
Qed.

(** X8.  Decoding cuts a notice id at its first colon: for a route
    without a colon, the key [route:noticeId] decodes to the route and to
    the part of the notice id before its first colon, so a record whose
    id holds a colon is not the one its own key decodes to. *)
Theorem decodeKey_cuts_notice_id (r n : string) :
  has_char ":" r = false ->
  decodeKey (r ++ ":" ++ n) = (r, hd "" (split ":" n))
  /\ (has_char ":" n = true -> snd (decodeKey (r ++ ":" ++ n)) ≠ n).
Proof.
  intros Hr.
  assert (Hd : decodeKey (r ++ ":" ++ n) = (r, hd "" (split ":" n))).
  { unfold decodeKey. change (r ++ ":" ++ n) with (r ++ String ":" n).
    rewrite split_app_sep by done.
    pose proof (split_nonempty ":" n). by destruct (split ":" n). }
  split; [done|]. rewrite Hd. simpl. intros Hn Heq.
  pose proof (split_elems_no_sep ":" n) as Hall.
  destruct (split ":" n) as [|seg rest] eqn:Hs; [by destruct (split_nonempty ":" n)|].
  inversion Hall; subst. simpl in *. congruence.
Qed.

Lemma existsb_eqb_elem (r : string) (keys : list string) :
  existsb (String.eqb r) keys = true <-> r ∈ keys.
Proof.
  rewrite existsb_exists. split.
  - intros (k & Hin & Heq). apply String.eqb_eq in Heq as ->. by apply list_elem_of_In.
  - intros Hin. exists r. split; [by apply list_elem_of_In|apply String.eqb_refl].
Qed.

(** The names that [uniqueCTBRoutes] keeps: each name once, and each
    after exactly the names that stand before its first appearance. *)
Lemma uniqueCTBRoutes_spec routes keys :
  NoDup (map r_route (uniqueCTBRoutes routes keys))
  /\ (forall r, r ∈ map r_route (uniqueCTBRoutes routes keys) <-> r ∈ routes /\ r ∉ keys)
  /\ (forall l1 r l2,
        map r_route (uniqueCTBRoutes routes keys) = (l1 ++ r :: l2)%list ->
        exists pre post,
          routes = (pre ++ r :: post)%list /\ (r ∉ pre)
          /\ forall a, a ∈ l1 <-> a ∈ pre /\ a ∉ keys)
  /\ Forall (fun rt => bound rt = None) (uniqueCTBRoutes routes keys).
Proof.
  revert keys. induction routes as [|r routes IH]; intros keys; simpl.
  - split; [constructor|]. split; [|split; [|constructor]].
    + intros r. split; [by intros ?%elem_of_nil|]. by intros [?%elem_of_nil _].
    + intros l1 r l2 Heq. by destruct l1.
  - destruct (existsb (String.eqb r) keys) eqn:Hex.
    + apply existsb_eqb_elem in Hex. destruct (IH keys) as (Hnd & Hmem & Hord & Hb).
      split; [done|]. split; [|split; [|done]].
      * intros r'. rewrite Hmem, elem_of_cons. split; [intros [? ?]; auto|].
        intros [[->|?] ?]; [done|auto].
      * intros l1 r' l2 Heq.
        destruct (Hord l1 r' l2 Heq) as (pre & post & -> & Hpre & Hl1).
        exists (r :: pre), post. split; [done|].
        assert (Hr' : r' ∉ keys).
        { assert (Hin : r' ∈ map r_route (uniqueCTBRoutes (pre ++ r' :: post) keys)).
          { rewrite Heq. apply elem_of_app. right. by left. }
          by apply Hmem in Hin as [_ ?]. }
        split.
        -- intros [->|?]%elem_of_cons; done.
        -- intros a. rewrite Hl1, elem_of_cons. split; [intros [? ?]; auto|].
           intros [[->|?] ?]; [done|auto].
    + assert (Hex' : r ∉ keys).
      { intros Hin. apply existsb_eqb_elem in Hin. congruence. }
      destruct (IH (r :: keys)) as (Hnd & Hmem & Hord & Hb). simpl.
      split; [|split; [|split; [|by constructor]]].
      * constructor; [|done]. rewrite Hmem. intros [_ Hn]. apply Hn. by left.
      * intros r'. rewrite !elem_of_cons, Hmem, elem_of_cons. split.
        -- intros [->|[? Hn]]; [auto|]. split; [auto|].
           intros Hk. apply Hn. by right.
        -- intros [[->|Hin] Hn]; [by left|].
           destruct (decide (r' = r)) as [->|Hne]; [by left|].
           right. split; [done|]. by intros [?|?].
      * intros l1 r' l2 Heq. destruct l1 as [|a l1]; simpl in Heq.
        -- injection Heq as <- _. exists [], routes. split; [done|].
           split; [by intros ?%elem_of_nil|].
           intros a. split; [by intros ?%elem_of_nil|]. by intros [?%elem_of_nil _].
        -- injection Heq as <- Heq.
           destruct (Hord l1 r' l2 Heq) as (pre & post & -> & Hpre & Hl1).
           assert (Hr' : r' ∉ r :: keys).
           { assert (Hin : r' ∈ map r_route (uniqueCTBRoutes (pre ++ r' :: post) (r :: keys))).
             { rewrite Heq. apply elem_of_app. right. by left. }
             by apply Hmem in Hin as [_ ?]. }
           exists (r :: pre), post. split; [done|]. split.
           ++ intros [->|?]%elem_of_cons; [|done]. apply Hr'. by left.
           ++ intros a. rewrite !elem_of_cons, Hl1, elem_of_cons. split.
              ** intros [->|[? Hn]]; [auto|]. split; [auto|].
                 intros Hk. apply Hn. by right.
              ** intros [[->|Hin] Hn]; [by left|].
                 destruct (decide (a = r)) as [->|Hne]; [by left|].
                 right. split; [done|]. by intros [?|?].
Qed.

(** X9.  The Citybus route list keeps each route name once, in the order
    of first appearance: the names scanned are pairwise distinct; they are
    exactly the names the catalogue holds; each stands in the list after
    exactly the names that appear in the catalogue before its first
    appearance; and no route carries a bound. *)
Theorem fetchCTBRoutes_unique (E : Env) (raw : list string) :
  ctb_route_api E = Payload raw ->
  exists routes,
    fetchCTBRoutes E = Ok routes
    /\ NoDup (map r_route routes)
    /\ (forall r, r ∈ map r_route routes <-> r ∈ raw)
    /\ (forall l1 r l2,
          map r_route routes = (l1 ++ r :: l2)%list ->
          exists pre post,
            raw = (pre ++ r :: post)%list /\ (r ∉ pre) /\ forall a, a ∈ l1 <-> a ∈ pre)
    /\ Forall (fun rt => bound rt = None) routes.
Proof.
  intros Hraw. exists (uniqueCTBRoutes raw []). unfold fetchCTBRoutes. rewrite Hraw.
  destruct (uniqueCTBRoutes_spec raw []) as (Hnd & Hmem & Hord & Hb).
  split; [done|]. split; [done|]. split; [|split; [|done]].
  - intros r. rewrite Hmem. split; [by intros [? _]|]. intros Hin. split; [done|].
    by intros ?%elem_of_nil.
  - intros l1 r l2 Heq. destruct (Hord l1 r l2 Heq) as (pre & post & -> & Hpre & Hl1).
    exists pre, post. split; [done|]. split; [done|].
    intros a. rewrite Hl1. split; [by intros [? _]|]. intros Hin. split; [done|].
    by intros ?%elem_of_nil.
Qed.

(** The routes that [uniqueKMBRoutes] keeps: one route for each key, the
    first of the catalogue with that key, after exactly the keys that
    stand before it. *)
Lemma uniqueKMBRoutes_spec routes keys :
  NoDup (map route_key (uniqueKMBRoutes routes keys))
  /\ (forall k, k ∈ map route_key (uniqueKMBRoutes routes keys)
                <-> k ∈ map route_key (map kmb_route routes) /\ k ∉ keys)
  /\ (forall l1 rt l2,
        uniqueKMBRoutes routes keys = (l1 ++ rt :: l2)%list ->
        exists pre post,
          map kmb_route routes = (pre ++ rt :: post)%list
          /\ (route_key rt ∉ map route_key pre)
          /\ forall k, k ∈ map route_key l1 <-> k ∈ map route_key pre /\ k ∉ keys).
Proof.
  revert keys. induction routes as [|[r b] routes IH]; intros keys.
  - split; [constructor|]. split.
    + intros k. split; [by intros ?%elem_of_nil|]. by intros [?%elem_of_nil _].
    + intros l1 rt l2 Heq. by destruct l1.
  - cbn [uniqueKMBRoutes]. change (r ++ "_" ++ string_of_Z b) with (route_key (kmb_route (r, b))).
    change (mkRoute r (Some b)) with (kmb_route (r, b)).
    destruct (existsb (String.eqb (route_key (kmb_route (r, b)))) keys) eqn:Hex.
    + apply existsb_eqb_elem in Hex. destruct (IH keys) as (Hnd & Hmem & Hord).
      split; [done|]. split.
      * intros k. rewrite Hmem. cbn [map]. rewrite elem_of_cons.
        split; [intros [? ?]; auto|]. intros [[->|?] ?]; [done|auto].
      * intros l1 rt l2 Heq.
        destruct (Hord l1 rt l2 Heq) as (pre & post & Hraw & Hpre & Hl1).
        assert (Hrt : route_key rt ∉ keys).
        { assert (Hin : route_key rt ∈ map route_key (uniqueKMBRoutes routes keys)).
          { rewrite Heq, map_app. apply elem_of_app. right. by left. }
          by apply Hmem in Hin as [_ ?]. }
        exists (kmb_route (r, b) :: pre), post. cbn [map]. rewrite Hraw. split; [done|].
        split.
        -- intros [Heq'|?]%elem_of_cons; [|done]. by rewrite Heq' in Hrt.
        -- intros k. rewrite Hl1, elem_of_cons. split; [intros [? ?]; auto|].
           intros [[->|?] ?]; [done|auto].
    + assert (Hex' : route_key (kmb_route (r, b)) ∉ keys).
      { intros Hin. apply existsb_eqb_elem in Hin. congruence. }
      destruct (IH (route_key (kmb_route (r, b)) :: keys)) as (Hnd & Hmem & Hord).
      cbn [map]. split; [|split].
      * constructor; [|done]. rewrite Hmem. intros [_ Hn]. apply Hn. by left.
      * intros k. rewrite !elem_of_cons, Hmem, elem_of_cons. split.
        -- intros [->|[? Hn]]; [auto|]. split; [auto|].
           intros Hk. apply Hn. by right.
        -- intros [[->|Hin] Hn]; [by left|].
           destruct (decide (k = route_key (kmb_route (r, b)))) as [->|Hne]; [by left|].
           right. split; [done|]. by intros [?|?].
      * intros l1 rt l2 Heq. destruct l1 as [|a l1]; simpl in Heq.
        -- injection Heq as <- _. exists [], (map kmb_route routes). split; [done|].
           split; [by intros ?%elem_of_nil|].
           intros k. split; [by intros ?%elem_of_nil|]. by intros [?%elem_of_nil _].
        -- injection Heq as <- Heq.
           destruct (Hord l1 rt l2 Heq) as (pre & post & Hraw & Hpre & Hl1).
           assert (Hrt : route_key rt ∉ route_key (kmb_route (r, b)) :: keys).
           { assert (Hin : route_key rt
                           ∈ map route_key (uniqueKMBRoutes routes
                                              (route_key (kmb_route (r, b)) :: keys))).
             { rewrite Heq, map_app. apply elem_of_app. right. by left. }
             by apply Hmem in Hin as [_ ?]. }
           exists (kmb_route (r, b) :: pre), post. rewrite Hraw. split; [done|]. split.
           ++ cbn [map]. intros [Heq'|?]%elem_of_cons; [|done]. apply Hrt. rewrite Heq'. by left.
           ++ intros k. cbn [map]. rewrite !elem_of_cons, Hl1, elem_of_cons. split.
              ** intros [->|[? Hn]]; [auto|]. split; [auto|].
                 intros Hk. apply Hn. by right.
              ** intros [[->|Hin] Hn]; [by left|].
                 destruct (decide (k = route_key (kmb_route (r, b)))) as [->|Hne]; [by left|].
                 right. split; [done|]. by intros [?|?].
Qed.

(** X10.  The KMB route list keeps one route for each pair of route and
    bound, the first of the catalogue, in the order of first appearance:
    the keys [route_bound] of the routes scanned are pairwise distinct;
    they are exactly the keys of the catalogue; and each route scanned is
    the catalogue's first entry with its key, and stands in the list after
    exactly the keys that appear in the catalogue before it. *)
Theorem fetchKMBRoutes_unique (E : Env) (raw : list (string * Z)) :
  kmb_route_api E = Payload raw ->
  exists routes,
    fetchKMBRoutes E = Ok routes
    /\ NoDup (map route_key routes)
    /\ (forall k, k ∈ map route_key routes <-> k ∈ map route_key (map kmb_route raw))
    /\ (forall l1 rt l2,
          routes = (l1 ++ rt :: l2)%list ->
          exists pre post,
            map kmb_route raw = (pre ++ rt :: post)%list
            /\ (route_key rt ∉ map route_key pre)
            /\ forall k, k ∈ map route_key l1 <-> k ∈ map route_key pre).
Proof.
  intros Hraw. exists (uniqueKMBRoutes raw []). unfold fetchKMBRoutes. rewrite Hraw.
  destruct (uniqueKMBRoutes_spec raw []) as (Hnd & Hmem & Hord).
  split; [done|]. split; [done|]. split.
  - intros k. rewrite Hmem. split; [by intros [? _]|]. intros Hin. split; [done|].
    by intros ?%elem_of_nil.
  - intros l1 rt l2 Heq. destruct (Hord l1 rt l2 Heq) as (pre & post & Hpre & Hfirst & Hl1).
    exists pre, post. split; [done|]. split; [done|].
    intros k. rewrite Hl1. split; [by intros [? _]|]. intros Hin. split; [done|].
    by intros ?%elem_of_nil.
Qed.

(** * Further properties of a run *)

Section RunFacts.

Variable E : Env.
Variable company : CompanyMetadata.
Variable now : Date.

Local Abbreviation c := (code_string (code company)).

Lemma run_le_refl w : run_le E company now w w.
Proof.
  split; [done|]. intros c' r n. destruct (record w c' r n) as [x|]; [|by left].
  exists x. repeat split; auto.
Qed.

Lemma run_le_trans w1 w2 w3 :
  run_le E company now w1 w2 -> run_le E company now w2 w3 -> run_le E company now w1 w3.
Proof.
  intros [Hp12 Hr12] [Hp23 Hr23]. split; [auto|].
  intros c' r n. specialize (Hr12 c' r n). specialize (Hr23 c' r n).
  destruct (record w1 c' r n) as [x|].
  - destruct Hr12 as (y & Hy & Hid & Hurl & Hroute & Hdisc & Hseen & Hact & Hother).
    rewrite Hy in Hr23.
    destruct Hr23 as (z & Hz & Hid' & Hurl' & Hroute' & Hdisc' & Hseen' & Hact' & Hother').
    exists z. split; [done|]. repeat split; try congruence.
    + destruct Hseen' as [Hs|Hs]; [|by right]. rewrite Hs. done.
    + auto.
    + intros Hc. rewrite (Hother' Hc). auto.
  - destruct Hr12 as [Hnone|(Hc & y & Hy & Hid & Hroute & Hdisc & Hdoc)].
    + by rewrite Hnone in Hr23.
    + rewrite Hy in Hr23.
      destruct Hr23 as (z & Hz & Hid' & _ & Hroute' & Hdisc' & _).
      right. split; [done|]. exists z. repeat split; try congruence. auto.
Qed.

Lemma run_le_same_docs w w' :
  pdf_files w' = pdf_files w ->
  (forall c' r n,
     record w' c' r n = record w c' r n
     \/ (c' = c /\ exists x, record w c' r n = Some x
           /\ (record w' c' r n = Some (set_lastSeenAt now x)
               \/ record w' c' r n = Some (set_isActive false x)))) ->
  run_le E company now w w'.
Proof.
  intros Hpdf Hrec. split; [by rewrite Hpdf|].
  intros c' r n. destruct (Hrec c' r n) as [Heq|(Hc & x & Hx & Hy)].
  - rewrite Heq. destruct (record w c' r n) as [x|]; [|by left].
    exists x. repeat split; auto.
  - rewrite Hx. destruct Hy as [Hy|Hy]; rewrite Hy; eexists; split; try done;
      repeat split; simpl; auto; try done.
Qed.

Lemma run_le_updateLastSeen r n w :
  run_le E company now w (snd (updateLastSeen r n now company w)).
Proof.
  apply run_le_same_docs; [apply pdf_files_updateLastSeen|].
  intros c' r' n'. rewrite record_updateLastSeen. case_decide as Heq; [|by left].
  injection Heq as <- <- <-. destruct (record w c r n) as [x|]; [|by left].
  right. split; [done|]. exists x. split; [done|]. by left.
Qed.

Lemma run_le_markInactive r n w :
  run_le E company now w (snd (markInactive r n company w)).
Proof.
  apply run_le_same_docs; [apply pdf_files_markInactive|].
  intros c' r' n'. rewrite record_markInactive. case_decide as Heq; [|by left].
  injection Heq as <- <- <-. destruct (record w c r n) as [x|]; [|by left].
  right. split; [done|]. exists x. split; [done|]. by right.
Qed.

Lemma run_le_scanNotice rt x s :
  route x = r_route rt ->
  run_le E company now (world s) (world (snd (scanNotice E company now rt x s))).
Proof.
  intros Hr. destruct (scanNotice_cases E company now rt x s Hr)
    as [(y & Hk & ->)|[(buffer & w' & Hk & Hu & -> & Hpdf & Hrec)
                      |(res & w' & Hk & -> & _ & Hpdf & Hrec & _)]]; simpl.
  - apply run_le_updateLastSeen.
  - split.
    + intros p. rewrite Hpdf, lookup_insert. case_decide; eauto.
    + intros c' r n. rewrite Hrec. case_decide as Heq.
      * injection Heq as <- <- <-. rewrite Hk. right. split; [done|].
        exists (set_discoveredAt now x). repeat split; [done|].
        rewrite Hpdf, lookup_insert_eq. eauto.
      * destruct (record (world s) c' r n) as [y|]; [|by left]. exists y. repeat split; auto.
  - apply run_le_same_docs; [done|]. intros c' r n. left. apply Hrec.
Qed.

Lemma run_le_retireNotice k s :
  run_le E company now (world s) (world (snd (retireNotice company k s))).
Proof.
  rewrite retireNotice_eq.
  destruct (bool_decide (k ∈ seenNotices s)); [apply run_le_refl|].
  apply run_le_markInactive.
Qed.

Variable fetchNotices : Route -> Result (list Notice).
Hypothesis fetch_route : files_under_route fetchNotices.

Lemma run_le_scan_routes routes s :
  run_le E company now (world s)
    (world (snd (for_of routes (scanRoute E company fetchNotices now) s))).
Proof.
  revert s.
  apply (for_of_rel (fun s s' : Pass => run_le E company now (world s) (world s')));
    [intros; apply run_le_refl|intros ? ? ?; apply run_le_trans|].
  intros rt s _. rewrite scanRoute_snd.
  destruct (fetchNotices rt) as [l|e|] eqn:Hf; [|apply run_le_refl..].
  revert s.
  apply (for_of_rel (fun s s' : Pass => run_le E company now (world s) (world s')));
    [intros; apply run_le_refl|intros ? ? ?; apply run_le_trans|].
  intros x t Hx. apply run_le_scanNotice.
  pose proof (fetch_route rt l Hf) as Hall. rewrite Forall_forall in Hall. by apply Hall.
Qed.

Lemma run_le_retire_loop l s :
  run_le E company now (world s) (world (snd (for_of l (retireNotice company) s))).
Proof.
  revert s.
  apply (for_of_rel (fun s s' : Pass => run_le E company now (world s) (world s')));
    [intros; apply run_le_refl|intros ? ? ?; apply run_le_trans|].
  intros k t _. apply run_le_retireNotice.
Qed.

Lemma run_le_reconcile routes w :
  run_le E company now w (snd (reconcile E company fetchNotices now routes w)).
Proof.
  destruct (getActiveNotices_spec company w) as (A & HA & _).
  destruct (reconcile_snd E company fetchNotices now routes w A HA) as [-> | ->].
  - apply (run_le_scan_routes routes (mkPass ∅ w)).
  - unfold retired, scanned.
    eapply run_le_trans; [|apply run_le_retire_loop].
    apply (run_le_scan_routes routes (mkPass ∅ w)).
Qed.

Hypothesis fetch_settles : settles fetchNotices.

(** A pass returns when no reported route or notice id names a member of
    [Object.prototype] and no active record of the company has a colon in
    its route or notice id. *)
Lemma reconcile_returns routes w :
  plain_reports fetchNotices routes ->
  colon_free_keys c w ->
  fst (reconcile E company fetchNotices now routes w) = Ok tt.
Proof.
  intros Hplain Hfree.
  destruct (getActiveNotices_spec company w) as (A & HA & HAspec).
  rewrite (reconcile_scanned E company fetchNotices now routes w A HA)
    by by apply scan_routes_ok.
  simpl. apply retire_loop_ok.
  intros k (r & n & x & Hx & Hact & ->)%elem_of_elements%HAspec _.
  destruct (Hfree r n x Hx Hact) as [Hr Hn]. rewrite (decodeKey_encode r n Hr Hn). simpl.
  apply (scan_le_covers c now (mkPass ∅ w));
    [by apply scan_routes_le|by exists x].
Qed.

End RunFacts.

Lemma Scraper_reconcile E now scrape company fetchNotices routes :
  Scraper E now scrape company fetchNotices routes ->
  files_under_route fetchNotices
  /\ settles fetchNotices
  /\ forall w, scrape w = reconcile E company fetchNotices now routes w.
Proof.
  intros [routes0 Hr|routes0 Hr|routes0 Hr].
  - split; [apply fetchKMBNotices_route|]. split; [apply fetchKMBNotices_settles|].
    intros w. by apply scrapeKMB_eq.
  - split; [apply fetchKMBNotices_strict_route|].
    split; [apply fetchKMBNotices_strict_settles|].
    intros w. by apply scrapeKMB_capped_eq.
  - split; [apply fetchCTBNotices_route|]. split; [apply fetchCTBNotices_settles|].
    intros w. by apply scrapeCTB_eq.
Qed.

Lemma Scraper_run_le E now scrape company fetchNotices routes w :
  Scraper E now scrape company fetchNotices routes ->
  run_le E company now w (snd (scrape w)).
Proof.
  intros Hs. destruct (Scraper_reconcile _ _ _ _ _ _ Hs) as (Hroute & _ & ->).
  by apply run_le_reconcile.
Qed.

(** X11.  A run of a scraper keeps every record it finds: the record is
    still there afterwards with the same id, URL, route and
    [discoveredAt]; its [lastSeenAt] is unchanged or the run's time; and
    its [isActive] is true afterwards only if it was true before. *)
Theorem scraper_keeps_records (E : Env) (now : Date) (scrape : M World unit)
    (company : CompanyMetadata) (fetchNotices : Route -> Result (list Notice))
    (routes : list Route) (w : World) (c r n : string) (x : Notice) :
  Scraper E now scrape company fetchNotices routes ->
  record w c r n = Some x ->
  exists y, record (snd (scrape w)) c r n = Some y
    /\ notice_id y = notice_id x /\ pdfUrl y = pdfUrl x /\ route y = route x
    /\ discoveredAt y = discoveredAt x
    /\ (lastSeenAt y = lastSeenAt x \/ lastSeenAt y = Some now)
    /\ (isActive y = true -> isActive x = true).
Proof.
  intros Hs Hx. destruct (Scraper_run_le E now scrape company fetchNotices routes w Hs)
    as [_ Hrec].
  specialize (Hrec c r n). rewrite Hx in Hrec.
  destruct Hrec as (y & Hy & Hid & Hurl & Hroute & Hdisc & Hseen & Hact & _).
  exists y. repeat split; done.
Qed.

(** X12.  A run of a scraper leaves the records of every other company
    exactly as they were: none is changed, none appears. *)
Theorem scraper_leaves_other_companies (E : Env) (now : Date) (scrape : M World unit)
    (company : CompanyMetadata) (fetchNotices : Route -> Result (list Notice))
    (routes : list Route) (w : World) (c r n : string) :
  Scraper E now scrape company fetchNotices routes ->
  c ≠ code_string (code company) ->
  record (snd (scrape w)) c r n = record w c r n.
Proof.
  intros Hs Hc. destruct (Scraper_run_le E now scrape company fetchNotices routes w Hs)
    as [_ Hrec].
  specialize (Hrec c r n). destruct (record w c r n) as [x|].
  - destruct Hrec as (y & Hy & _ & _ & _ & _ & _ & _ & Hother). by rewrite Hy, (Hother Hc).
  - by destruct Hrec as [Hnone|[Hc' _]].
Qed.

(** X13.  Every record that a run of a scraper inserts is filed under its
    own route and notice id, carries the run's time as [discoveredAt], and
    has its document on disk at the path generated for that time: the run
    leaves no record without a document. *)
Theorem scraper_inserts_with_document (E : Env) (now : Date) (scrape : M World unit)
    (company : CompanyMetadata) (fetchNotices : Route -> Result (list Notice))
    (routes : list Route) (w : World) (r n : string) (y : Notice) :
  Scraper E now scrape company fetchNotices routes ->
  record w (code_string (code company)) r n = None ->
  record (snd (scrape w)) (code_string (code company)) r n = Some y ->
  notice_id y = n /\ route y = r /\ discoveredAt y = now
  /\ noticeExists E company r n now (snd (scrape w)) = (Ok true, snd (scrape w)).
Proof.
  intros Hs Hnone Hy.
  destruct (Scraper_run_le E now scrape company fetchNotices routes w Hs) as [_ Hrec].
  specialize (Hrec (code_string (code company)) r n). rewrite Hnone in Hrec.
  destruct Hrec as [Hrec|(_ & z & Hz & Hid & Hroute & Hdisc & [doc Hdoc])]; [congruence|].
  rewrite Hy in Hz. injection Hz as <-. repeat split; try done.
  unfold noticeExists. by rewrite Hdoc.
Qed.

(** X14.  A run of a scraper removes no document: every path that holds a
    document before the run holds one after it. *)
Theorem scraper_keeps_documents (E : Env) (now : Date) (scrape : M World unit)
    (company : CompanyMetadata) (fetchNotices : Route -> Result (list Notice))
    (routes : list Route) (w : World) (path : string) :
  Scraper E now scrape company fetchNotices routes ->
  is_Some (pdf_files w !! path) ->
  is_Some (pdf_files (snd (scrape w)) !! path).
Proof.
  intros Hs. destruct (Scraper_run_le E now scrape company fetchNotices routes w Hs)
    as [Hdoc _]. apply Hdoc.
Qed.

(** A run can throw after its route list was fetched: the retirement loop
    has no [catch], and the key of the active record under the route
    [constructor:name] decodes to the route [constructor] and the notice
    id [name], where [markInactive] throws. *)
Lemma scraper_throws_in_retirement :
  fetchKMBRoutes reporting_env = Ok [mkRoute "1" (Some 1)]
  /\ fst (scrapeKMB reporting_env 200 inherited_route_world) = Throw "TypeError".
Proof. split; vm_compute; reflexivity. Qed.

(** X15.  A scraper whose route list cannot be fetched throws the error
    of the request and leaves the world untouched.  Once the route list
    is there, the run returns normally, whatever the notice requests and
    the downloads do, provided that no reported route name or notice id
    names a member of [Object.prototype] and that no active record of the
    company has a colon in its route or notice id. *)
Theorem scraper_outcome (E : Env) (now : Date) (w : World) :
  (forall e, fetchKMBRoutes E = Throw e ->
     scrapeKMB E now w = (Throw e, w) /\ scrapeKMB_capped E now w = (Throw e, w))
  /\ (forall e, fetchCTBRoutes E = Throw e -> scrapeCTB E now w = (Throw e, w))
  /\ (forall scrape company fetchNotices routes,
        Scraper E now scrape company fetchNotices routes ->
        plain_reports fetchNotices routes ->
        colon_free_keys (code_string (code company)) w ->
        fst (scrape w) = Ok tt).
Proof.
  split; [|split].
  - intros e He. unfold scrapeKMB, scrapeKMB_capped, bind, await. by rewrite He.
  - intros e He. unfold scrapeCTB, bind, await. by rewrite He.
  - intros scrape company fetchNotices routes Hs Hplain Hfree.
    destruct (Scraper_reconcile _ _ _ _ _ _ Hs) as (Hroute & Hset & ->).
    by apply reconcile_returns.
Qed.

(** X16.  When every reported document can be downloaded, and no reported
    route name or notice id names a member of [Object.prototype], a run
    of a scraper leaves a record for every notice that a scanned route
    reports, also when the notice request of another route fails. *)
Theorem scraper_records_reported (E : Env) (now : Date) (scrape : M World unit)
    (company : CompanyMetadata) (fetchNotices : Route -> Result (list Notice))
    (routes : list Route) (w : World) (r n : string) :
  Scraper E now scrape company fetchNotices routes ->
  plain_reports fetchNotices routes ->
  downloads_ok E fetchNotices routes ->
  reports fetchNotices routes r n ->
  noticeExistsInMetadata company r n (snd (scrape w)) = (Ok true, snd (scrape w)).
Proof.
  intros Hs Hplain Hdl Hrep.
  destruct (Scraper_reconcile _ _ _ _ _ _ Hs) as (Hroute & Hset & Heq).
  assert (Hsome : is_Some (record (snd (scrape w)) (code_string (code company)) r n)).
  { rewrite Heq. destruct (getActiveNotices_spec company w) as (A & HA & _).
    rewrite (reconcile_scanned E company fetchNotices now routes w A HA)
      by by apply scan_routes_ok.
    simpl.
    apply (retire_le_records _ _ _ _ _ (retire_loop_le company (elements A) _)).
    by apply scan_routes_recorded. }
  destruct Hsome as [y Hy]. by apply noticeExistsInMetadata_Some with (x := y).
Qed.

Lemma append_inv_head (s a b : string) : s ++ a = s ++ b -> a = b.
Proof.
  induction s as [|ch s IH]; [done|].
  change (String ch (s ++ a) = String ch (s ++ b) -> a = b).
  intros Heq. injection Heq as Heq. by apply IH.
Qed.

Section ReportedFacts.

Variable E : Env.
Variable company : CompanyMetadata.
Variable now : Date.

Local Abbreviation c := (code_string (code company)).

(** Every key the scan adds to the seen set is the key of a notice that a
    scanned route reports. *)
Lemma scan_seen_reported fetchNotices routes s k :
  k ∈ seenNotices (snd (for_of routes (scanRoute E company fetchNotices now) s)) ->
  k ∈ seenNotices s
  \/ exists r n, reports fetchNotices routes r n /\ k = r ++ ":" ++ n.
Proof.
  revert k.
  apply (for_of_rel (fun s s' : Pass => forall k, k ∈ seenNotices s' ->
           k ∈ seenNotices s
           \/ exists r n, reports fetchNotices routes r n /\ k = r ++ ":" ++ n)).
  - intros t k Hk. by left.
  - intros s1 s2 s3 H12 H23 k Hk. destruct (H23 k Hk) as [Hk'|?]; [by apply H12|by right].
  - intros rt t Hrt. rewrite scanRoute_snd.
    destruct (fetchNotices rt) as [l|e|] eqn:Hf; [|intros k Hk; by left..].
    apply (for_of_rel (fun s s' : Pass => forall k, k ∈ seenNotices s' ->
             k ∈ seenNotices s
             \/ exists r n, reports fetchNotices routes r n /\ k = r ++ ":" ++ n)).
    + intros u k Hk. by left.
    + intros s1 s2 s3 H12 H23 k Hk. destruct (H23 k Hk) as [Hk'|?]; [by apply H12|by right].
    + intros x u Hx k. rewrite scanNotice_seen.
      intros [->%elem_of_singleton|Hk]%elem_of_union; [right|by left].
      exists (r_route rt), (notice_id x). split; [|done]. by exists rt, l, x.
Qed.

(** With every download succeeding, the inner loop reaches each of its
    notices: the key is seen, and a record that was there at the start
    ends with [lastSeenAt] at the run's time. *)
Lemma scan_notices_reached rt l s :
  Forall (fun x => route x = r_route rt) l ->
  Forall (fun x => inherited (r_route rt) = false /\ inherited (notice_id x) = false) l ->
  Forall (fun x => exists buffer, http_pdf E (pdfUrl x) = Payload buffer) l ->
  forall x, x ∈ l ->
    r_route rt ++ ":" ++ notice_id x
      ∈ seenNotices (snd (for_of l (scanNotice E company now rt) s))
    /\ (is_Some (record (world s) c (r_route rt) (notice_id x)) ->
        exists y, record (world (snd (for_of l (scanNotice E company now rt) s)))
                    c (r_route rt) (notice_id x) = Some y
                  /\ lastSeenAt y = Some now).
Proof.
  intros Hroute. revert s. induction Hroute as [|x0 l Hr Hroute IH]; intros s Hpl Hdl x Hx;
    [by inversion Hx|].
  inversion Hdl as [|? ? Hb Hdl']; subst.
  inversion Hpl as [|? ? [Hpr Hpn] Hpl']; subst.
  pose proof (scanNotice_returns E company now rt x0 s Hr Hpr Hpn (or_intror Hb)) as Hok.
  pose proof (scanNotice_seen E company now rt x0 s) as Hseen.
  pose proof (scanNotice_le E company now rt x0 s Hr) as Hle.
  rewrite (for_of_cons_ok _ _ _ _ Hok).
  set (s1 := snd (scanNotice E company now rt x0 s)) in *.
  pose proof (scan_notices_le E company now rt l s1 Hroute) as Hrest.
  apply elem_of_cons in Hx as [->|Hx].
  - split.
    + apply (proj1 Hrest). rewrite Hseen. apply elem_of_union_l. by apply elem_of_singleton.
    + intros [z Hz].
      apply (scan_le_lastSeen c now s1 _ _ _ _ (set_lastSeenAt now z) Hrest); [|done].
      unfold s1. rewrite (scanNotice_touch E company now rt x0 s z Hz). simpl.
      by rewrite record_updateLastSeen, decide_True, Hz.
  - destruct (IH s1 Hpl' Hdl' x Hx) as [Hin Hlast]. split; [done|].
    intros Hsome. apply Hlast. by apply (scan_le_covers c now s s1 Hle).
Qed.

Variable fetchNotices : Route -> Result (list Notice).
Hypothesis fetch_route : files_under_route fetchNotices.
Hypothesis fetch_settles : settles fetchNotices.

Lemma scan_routes_reached routes s r n :
  plain_reports fetchNotices routes ->
  downloads_ok E fetchNotices routes ->
  reports fetchNotices routes r n ->
  r ++ ":" ++ n ∈ seenNotices (snd (for_of routes (scanRoute E company fetchNotices now) s))
  /\ (is_Some (record (world s) c r n) ->
      exists y, record (world (snd (for_of routes (scanRoute E company fetchNotices now) s)))
                  c r n = Some y
                /\ lastSeenAt y = Some now).
Proof.
  revert s. induction routes as [|rt0 routes IH];
    intros s Hplain Hdl (rt & l & x & Hrt & Hf & Hx & <- & <-); [by inversion Hrt|].
  apply plain_reports_cons in Hplain as [Hrt0 Hrest0].
  rewrite for_of_cons, (scanRoute_ok E company fetchNotices now fetch_route fetch_settles
                          rt0 s Hrt0).
  apply elem_of_cons in Hrt as [->|Hrt].
  - rewrite Hf.
    set (s1 := snd (for_of l (scanNotice E company now rt0) s)).
    pose proof (scan_routes_le E company fetchNotices now fetch_route routes s1) as Hrest.
    destruct (scan_notices_reached rt0 l s) with (x := x) as [Hin Hlast];
      [by apply fetch_route|by apply Hrt0| |done|].
    { apply Forall_forall. intros y Hy. apply (Hdl rt0 l y); [by left|done..]. }
    split; [by apply (proj1 Hrest)|].
    intros Hsome. destruct (Hlast Hsome) as (y & Hy & Hl).
    by apply (scan_le_lastSeen c now s1 _ _ _ _ y Hrest).
  - set (s1 := match fetchNotices rt0 with Ok l0 => _ | _ => s end).
    assert (Hs1 : scan_le c now s s1).
    { unfold s1. destruct (fetchNotices rt0) as [l0|e|] eqn:Hf0; [|apply scan_le_refl..].
      apply scan_notices_le. by apply fetch_route. }
    destruct (IH s1) as [Hin Hlast].
    + done.
    + intros rt' l' x' Hrt'. apply Hdl. by right.
    + by exists rt, l, x.
    + split; [done|]. intros Hsome. apply Hlast.
      by apply (scan_le_covers c now s s1 Hs1).
Qed.

(** The retirement half of a pass that returns: an active record of a key
    without a colon that no scanned route reports is retired. *)
Lemma reconcile_retires_unreported routes w r n x :
  record w c r n = Some x -> isActive x = true ->
  has_char ":" r = false -> has_char ":" n = false ->
  ~ reports fetchNotices routes r n ->
  fst (reconcile E company fetchNotices now routes w) = Ok tt ->
  record (snd (reconcile E company fetchNotices now routes w)) c r n
    = Some (set_isActive false x).
Proof.
  intros Hx Hact Hr Hn Hnot Hok.
  destruct (getActiveNotices_spec company w) as (A & HA & HAspec).
  destruct (reconcile_ok E company fetchNotices now routes w A HA Hok) as [Hloop ->].
  assert (Hunseen : r ++ ":" ++ n ∉ seenNotices (scanned E company fetchNotices now routes w)).
  { intros Hk. apply scan_seen_reported in Hk as [Hk|(r' & n' & Hrep & Hk)]; [set_solver|].
    pose proof (key_route_inj r n r' n' Hr Hn Hk) as ->.
    apply append_inv_head in Hk.
    change (String ":" n = String ":" n') in Hk. injection Hk as ->. by apply Hnot. }
  unfold retired. rewrite (retire_loop_hit company _ _ (r ++ ":" ++ n) r n).
  - destruct (scan_routes_le E company fetchNotices now fetch_route routes (mkPass ∅ w))
      as [_ Hrec].
    specialize (Hrec c r n). simpl in Hrec. rewrite Hx in Hrec.
    destruct Hrec as [Hrec|(_ & _ & Hseen)]; [|by destruct Hunseen].
    unfold scanned. by rewrite Hrec.
  - apply elem_of_elements, HAspec. by exists r, n, x.
  - done.
  - by apply decodeKey_encode.
  - done.
Qed.

(** The confirmation half of a pass: with every download succeeding and
    no colon in the keys of the active records, a record that a scanned
    route reports ends the pass touched and not retired. *)
Lemma reconcile_confirms_reported routes w r n x :
  plain_reports fetchNotices routes ->
  downloads_ok E fetchNotices routes ->
  colon_free_keys c w ->
  record w c r n = Some x ->
  reports fetchNotices routes r n ->
  record (snd (reconcile E company fetchNotices now routes w)) c r n
    = Some (set_lastSeenAt now x).
Proof.
  intros Hplain Hdl Hfree Hx Hrep.
  destruct (getActiveNotices_spec company w) as (A & HA & HAspec).
  rewrite (reconcile_scanned E company fetchNotices now routes w A HA)
    by by apply scan_routes_ok.
  simpl.
  destruct (scan_routes_reached routes (mkPass ∅ w) r n Hplain Hdl Hrep) as [Hseen Hlast].
  destruct Hlast as (y & Hy & Hl); [simpl; by rewrite Hx|].
  assert (Hscan : record (world (scanned E company fetchNotices now routes w)) c r n
                  = Some (set_lastSeenAt now x)).
  { destruct (scan_routes_le E company fetchNotices now fetch_route routes (mkPass ∅ w))
      as [_ Hrec].
    specialize (Hrec c r n). simpl in Hrec. rewrite Hx in Hrec. unfold scanned.
    destruct Hrec as [Hrec|(Hrec & _)]; [|done].
    rewrite Hrec. rewrite Hrec in Hy. injection Hy as <-.
    f_equal. destruct x. simpl in *. by subst. }
  unfold retired. rewrite retire_loop_frame; [done|].
  intros _ k Hk Hunseen Hdec.
  apply elem_of_elements, HAspec in Hk as (r' & n' & x' & Hx' & Hact' & ->).
  destruct (Hfree r' n' x' Hx' Hact') as [Hr' Hn'].
  rewrite (decodeKey_encode r' n' Hr' Hn') in Hdec. injection Hdec as -> ->.
  by apply Hunseen.
Qed.

End ReportedFacts.

(** X17.  Retirement by absence: an active record whose route and notice
    id hold no colon, and which no scanned route reports in this run, is
    retired by a run that returns; its other fields stay as they were. *)
Theorem scraper_retires_unreported (E : Env) (now : Date) (scrape : M World unit)
    (company : CompanyMetadata) (fetchNotices : Route -> Result (list Notice))
    (routes : list Route) (w : World) (r n : string) (x : Notice) :
  Scraper E now scrape company fetchNotices routes ->
  record w (code_string (code company)) r n = Some x ->
  isActive x = true ->
  has_char ":" r = false ->
  has_char ":" n = false ->
  ~ reports fetchNotices routes r n ->
  fst (scrape w) = Ok tt ->
  record (snd (scrape w)) (code_string (code company)) r n = Some (set_isActive false x).
Proof.
  intros Hs Hx Hact Hr Hn Hnot.
  destruct (Scraper_reconcile _ _ _ _ _ _ Hs) as (Hroute & Hset & ->).
  by apply reconcile_retires_unreported.
Qed.

(** X18.  Confirmation: when every reported document can be downloaded,
    no reported route name or notice id names a member of
    [Object.prototype], and no active record of the company has a colon
    in its route or notice id, an active record that a scanned route
    reports again stays active; the run sets its [lastSeenAt] to the
    run's time and changes nothing else in it. *)
Theorem scraper_confirms_reported (E : Env) (now : Date) (scrape : M World unit)
    (company : CompanyMetadata) (fetchNotices : Route -> Result (list Notice))
    (routes : list Route) (w : World) (r n : string) (x : Notice) :
  Scraper E now scrape company fetchNotices routes ->
  plain_reports fetchNotices routes ->
  downloads_ok E fetchNotices routes ->
  colon_free_keys (code_string (code company)) w ->
  record w (code_string (code company)) r n = Some x ->
  isActive x = true ->
  reports fetchNotices routes r n ->
  record (snd (scrape w)) (code_string (code company)) r n = Some (set_lastSeenAt now x)
  /\ isActive (set_lastSeenAt now x) = true.
Proof.
  intros Hs Hplain Hdl Hfree Hx Hact Hrep.
  destruct (Scraper_reconcile _ _ _ _ _ _ Hs) as (Hroute & Hset & ->).
  split; [by apply reconcile_confirms_reported|done].
Qed.

(** * Properties of the guard of the scheduler *)

(** X19.  Once a run is marked at [lastRun], the guard at a later time
    [hktNow], in a time zone with the same offset at both, answers true
    exactly when [lastRun] falls on the local day of [hktNow], at or after
    six o'clock: a run before six does not count as the run of its day. *)
Theorem hasRunToday_after_markAsRun (E : Env) (lastRun hktNow : Date) (p : Process) :
  lastRun <= hktNow ->
  timezoneOffset E lastRun = timezoneOffset E hktNow ->
  hasRunToday E hktNow (markAsRun lastRun p) = true
  <-> local_days E lastRun = local_days E hktNow
      /\ 6 * 3600000 <= local_time_of_day E lastRun.
Proof.
  intros Hle Htz. unfold hasRunToday, markAsRun, setHours, local_time_of_day, local_days.
  simpl. rewrite Z.leb_le, Htz. unfold ms_per_day.
  set (o := timezoneOffset E hktNow * 60000).
  split.
  - intros H6. split; Z.div_mod_to_equations; lia.
  - intros [Hday H6]. rewrite <- Hday. Z.div_mod_to_equations. lia.
Qed.

(** X20.  The time [getHongKongTime] returns reads, in the local fields of
    the process, as the clock eight hours ahead of UTC, whatever the
    offset of the process's time zone, provided the offset is the same at
    both times; so a run marked at that time counts as the run of its day
    exactly when it is six o'clock or later in Hong Kong. *)
Theorem getHongKongTime_is_hong_kong_wall_clock (E : Env) (p : Process) :
  timezoneOffset E (getHongKongTime E) = timezoneOffset E (clock E) ->
  local_days E (getHongKongTime E) = (clock E + 8 * 3600000) / ms_per_day
  /\ local_time_of_day E (getHongKongTime E) = (clock E + 8 * 3600000) mod ms_per_day
  /\ (hasRunToday E (getHongKongTime E) (markAsRun (getHongKongTime E) p) = true
      <-> 6 * 3600000 <= (clock E + 8 * 3600000) mod ms_per_day).
Proof.
  intros Htz.
  assert (Hlocal : getHongKongTime E - timezoneOffset E (getHongKongTime E) * 60000
                   = clock E + 8 * 3600000).
  { rewrite Htz. unfold getHongKongTime. lia. }
  assert (Hday : local_days E (getHongKongTime E) = (clock E + 8 * 3600000) / ms_per_day).
  { unfold local_days. by rewrite Hlocal. }
  assert (Htime : local_time_of_day E (getHongKongTime E)
                  = (clock E + 8 * 3600000) mod ms_per_day).
  { unfold local_time_of_day. by rewrite Hlocal. }
  split; [done|]. split; [done|].
  unfold hasRunToday, markAsRun, setHours. simpl. rewrite Z.leb_le, Hday.
  pose proof (Z.div_mod (clock E + 8 * 3600000) ms_per_day ltac:(done)) as Hdm.
  unfold ms_per_day in *. lia.
Qed.

(** * Instances of the conditional statements *)

(** The KMB source of [reporting_env] reports one notice, [N1] on route
    [1]. *)
Lemma reporting_env_reports r n :
  reports (fetchKMBNotices reporting_env) [mkRoute "1" (Some 1)] r n <-> r = "1" /\ n = "N1".
Proof.
  split.
  - intros (rt & l & x & Hrt & Hf & Hx & <- & <-).
    apply list_elem_of_singleton in Hrt as ->.
    vm_compute in Hf. injection Hf as <-.
    apply list_elem_of_singleton in Hx as ->. split; reflexivity.
  - intros [-> ->].
    exists (mkRoute "1" (Some 1)), [kmb_notice reporting_env "1" ("N1", "n1.pdf")],
      (kmb_notice reporting_env "1" ("N1", "n1.pdf")).
    split; [apply list_elem_of_here|]. split; [reflexivity|].
    split; [apply list_elem_of_here|]. split; reflexivity.
Qed.

Lemma reporting_env_plain :
  plain_reports (fetchKMBNotices reporting_env) [mkRoute "1" (Some 1)].
Proof. intros r n [-> ->]%reporting_env_reports. split; reflexivity. Qed.

Lemma reporting_env_downloads :
  downloads_ok reporting_env (fetchKMBNotices reporting_env) [mkRoute "1" (Some 1)].
Proof. intros rt l x _ _ _. exists "%PDF". reflexivity. Qed.

(** The Citybus source of [eleven_routes_env] reports no notice. *)
Lemma eleven_routes_env_reports routes r n :
  ~ reports (fetchCTBNotices eleven_routes_env) routes r n.
Proof.
  intros (rt & l & x & _ & Hf & Hx & _). injection Hf as <-. by apply elem_of_nil in Hx.
Qed.

Lemma record_in_single_notice_world c r n x docs c' r' n' y :
  record (mkWorld (Stored {[ c := {[ r := {[ n := x ]} ]} ]}) docs) c' r' n' = Some y ->
  c' = c /\ r' = r /\ n' = n /\ y = x.
Proof.
  unfold record, lookup3, current. cbn [metadata_file].
  destruct (decide (c = c')) as [<-|Hc]; [|by rewrite lookup_singleton_ne].
  rewrite lookup_singleton_eq.
  destruct (decide (r = r')) as [<-|Hr]; [|by rewrite lookup_singleton_ne].
  rewrite lookup_singleton_eq.
  destruct (decide (n = n')) as [<-|Hn]; [|by rewrite lookup_singleton_ne].
  rewrite lookup_singleton_eq. intros Hy. by injection Hy as <-.
Qed.

Lemma active_world_colon_free : colon_free_keys "KMB" active_world.
Proof.
  intros r n x Hx _.
  apply record_in_single_notice_world in Hx as (_ & -> & -> & _). split; reflexivity.
Qed.

(** C3 at a brand-new KMB notice whose download is refused. *)
Lemma C3_failed_download_instance :
  noticeExistsInMetadata KMB_COMPANY "1" "N1" empty_world = (Ok false, empty_world)
  /\ (forall buffer, http_pdf failing_env "https://example.org/N1" ≠ Payload buffer)
  /\ record (snd (addNotice failing_env (sample_notice "N1" "1" true) KMB_COMPANY 200
                    "https://example.org/N1" empty_world)) "KMB" "1" "N1" = None
  /\ exists msg,
       addNotice failing_env (sample_notice "N1" "1" true) KMB_COMPANY 200
         "https://example.org/N1" empty_world = (Throw msg, empty_world).
Proof.
  split; [reflexivity|]. split; [intros buffer; discriminate|].
  destruct (C3_failed_download_persists_nothing failing_env (sample_notice "N1" "1" true)
              KMB_COMPANY 200 "https://example.org/N1" empty_world)
    as (Hnone & _ & Hthrow).
  - reflexivity.
  - intros buffer. discriminate.
  - split; [exact Hnone|]. apply Hthrow; reflexivity.
Defined.

(** C4 at a retired record that is touched, re-added and retired again. *)
Lemma C4_discoveredAt_instance :
  record retired_world "KMB" "1" "N1" = Some (sample_notice "N1" "1" false)
  /\ exists y,
       record (apply_ops reporting_env
                 [OpUpdateLastSeen "1" "N1" 200 KMB_COMPANY;
                  OpAddNotice (sample_notice "N1" "1" true) KMB_COMPANY 300
                    "https://example.org/N1";
                  OpMarkInactive "1" "N1" KMB_COMPANY]
                 retired_world) "KMB" "1" "N1" = Some y
       /\ discoveredAt y = discoveredAt (sample_notice "N1" "1" false).
Proof.
  split; [reflexivity|].
  apply (C4_discoveredAt_immutable reporting_env _ retired_world "KMB" "1" "N1"
           (sample_notice "N1" "1" false)).
  reflexivity.
Defined.

(** C8 at a world without a state file. *)
Lemma C8_missing_file_instance :
  (metadata_file empty_world = Missing \/ metadata_file empty_world = Unparsable)
  /\ getActiveNotices KMB_COMPANY empty_world = (Ok ∅, empty_world)
  /\ noticeExistsInMetadata KMB_COMPANY "1" "N1" empty_world = (Ok false, empty_world).
Proof.
  split; [left; reflexivity|].
  apply (C8_missing_file_reads_as_empty KMB_COMPANY "1" "N1" empty_world).
  left. reflexivity.
Defined.

(** C9 at a route that the store has no record for. *)
Lemma C9_absent_key_instance :
  record retired_world (code_string (code KMB_COMPANY)) "2" "N1" = None
  /\ inherited "2" = false
  /\ inherited "N1" = false
  /\ markInactive "2" "N1" KMB_COMPANY retired_world = (Ok tt, retired_world)
  /\ updateLastSeen "2" "N1" 200 KMB_COMPANY retired_world = (Ok tt, retired_world).
Proof.
  split; [reflexivity|]. split; [reflexivity|]. split; [reflexivity|].
  apply (C9_absent_key_is_noop KMB_COMPANY "2" "N1" 200 retired_world); reflexivity.
Defined.

(** C10 at the active KMB notice [N1] of route [1]. *)
Lemma C10_key_round_trip_instance :
  has_char ":" "1" = false
  /\ has_char ":" "N1" = false
  /\ record active_world (code_string (code KMB_COMPANY)) "1" "N1"
     = Some (sample_notice "N1" "1" true)
  /\ isActive (sample_notice "N1" "1" true) = true
  /\ exists activeNotices key,
       getActiveNotices KMB_COMPANY active_world = (Ok activeNotices, active_world)
       /\ key ∈ activeNotices
       /\ decodeKey key = ("1", "N1")
       /\ (forall seen, key ∉ seen ->
             fst (retireNotice KMB_COMPANY key (mkPass seen active_world)) = Ok tt
             /\ record (world (snd (retireNotice KMB_COMPANY key (mkPass seen active_world))))
                  (code_string (code KMB_COMPANY)) "1" "N1"
                = Some (set_isActive false (sample_notice "N1" "1" true))
             /\ forall c' r' n',
                  (c', r', n') ≠ (code_string (code KMB_COMPANY), "1", "N1") ->
                  record (world (snd (retireNotice KMB_COMPANY key (mkPass seen active_world))))
                    c' r' n'
                  = record active_world c' r' n')
       /\ (colon_free_keys (code_string (code KMB_COMPANY)) active_world ->
           forall key', key' ∈ activeNotices ->
             exists r n y, decodeKey key' = (r, n)
                           /\ record active_world (code_string (code KMB_COMPANY)) r n = Some y
                           /\ isActive y = true).
Proof.
  split; [reflexivity|]. split; [reflexivity|]. split; [reflexivity|]. split; [reflexivity|].
  apply (C10_key_round_trip KMB_COMPANY "1" "N1" (sample_notice "N1" "1" true) active_world);
    reflexivity.
Defined.

(** C7 at KMB route [1A], notice [N1], with [/app] as working directory. *)
Lemma C7_path_instance :
  String.prefix "/" (cwd reporting_env) = true
  /\ clean_segment "1A" = true
  /\ has_char "/" "N1" = false
  /\ generatePdfPath reporting_env KMB_COMPANY "1A" "N1" 1700000000000
     = DATA_DIR reporting_env ++ "/" ++ code_string (code KMB_COMPANY) ++ "/" ++ "1A" ++ "/"
       ++ string_of_Z (getFullYear reporting_env 1700000000000) ++ "/"
       ++ padStart 2 "0" (string_of_Z (getMonth reporting_env 1700000000000 + 1)) ++ "/"
       ++ (if includes ".pdf" "N1" then "N1" else "N1" ++ ".pdf").
Proof.
  split; [reflexivity|]. split; [reflexivity|]. split; [reflexivity|].
  apply (C7_path_of_plain_segments reporting_env KMB_COMPANY "1A" "N1" 1700000000000);
    reflexivity.
Defined.

(** C2 at the Citybus notice of the eleventh of eleven routes. *)
Lemma C2_eleventh_route_instance :
  isActive (sample_notice "N1" "11" true) = true
  /\ has_char ":" "11" = false
  /\ has_char ":" "N1" = false
  /\ fetchCTBRoutes eleven_routes_env
     = Ok (map (fun r => mkRoute r None)
             ["1"; "2"; "3"; "4"; "5"; "6"; "7"; "8"; "9"; "10"; "11"])
  /\ record eleventh_route_world "CTB" "11" "N1" = Some (sample_notice "N1" "11" true)
  /\ ("11" ∉ map r_route
               (take 10 (map (fun r => mkRoute r None)
                           ["1"; "2"; "3"; "4"; "5"; "6"; "7"; "8"; "9"; "10"; "11"])))
  /\ fst (scrapeCTB eleven_routes_env 200 eleventh_route_world) = Ok tt
  /\ record (snd (scrapeCTB eleven_routes_env 200 eleventh_route_world)) "CTB" "11" "N1"
     = Some (set_isActive false (sample_notice "N1" "11" true)).
Proof.
  assert (Hout : "11" ∉ map r_route
                   (take 10 (map (fun r => mkRoute r None)
                               ["1"; "2"; "3"; "4"; "5"; "6"; "7"; "8"; "9"; "10"; "11"]))).
  { apply (bool_decide_unpack _). vm_compute. exact I. }
  assert (Hok : fst (scrapeCTB eleven_routes_env 200 eleventh_route_world) = Ok tt).
  { vm_compute. reflexivity. }
  split; [reflexivity|]. split; [reflexivity|]. split; [reflexivity|].
  split; [reflexivity|]. split; [reflexivity|]. split; [exact Hout|]. split; [exact Hok|].
  apply (proj2 (C2_capped_run_retires_unscanned_routes eleven_routes_env 200
                  eleventh_route_world "11" "N1" (sample_notice "N1" "11" true)
                  eq_refl eq_refl eq_refl)
           (map (fun r => mkRoute r None)
              ["1"; "2"; "3"; "4"; "5"; "6"; "7"; "8"; "9"; "10"; "11"])).
  - reflexivity.
  - reflexivity.
  - exact Hout.
  - exact Hok.
Defined.


(** ** Instances of the further properties *)

(** X1 at a brand-new KMB notice in an empty store. *)
Lemma addNotice_new_inserts_instance :
  record empty_world (code_string (code KMB_COMPANY)) (route (sample_notice "N1" "1" true))
    (notice_id (sample_notice "N1" "1" true)) = None
  /\ inherited (route (sample_notice "N1" "1" true)) = false
  /\ inherited (notice_id (sample_notice "N1" "1" true)) = false
  /\ http_pdf reporting_env "https://example.org/N1" = Payload "%PDF"
  /\ fst (addNotice reporting_env (sample_notice "N1" "1" true) KMB_COMPANY 200
            "https://example.org/N1" empty_world) = Ok tt
  /\ record (snd (addNotice reporting_env (sample_notice "N1" "1" true) KMB_COMPANY 200
                    "https://example.org/N1" empty_world)) "KMB" "1" "N1"
     = Some (set_discoveredAt 200 (sample_notice "N1" "1" true)).
Proof.
  split; [reflexivity|]. split; [reflexivity|]. split; [reflexivity|]. split; [reflexivity|].
  destruct (addNotice_new_inserts reporting_env (sample_notice "N1" "1" true) KMB_COMPANY 200
              "https://example.org/N1" "%PDF" empty_world) as (Hok & Hrec & _);
    [reflexivity..|].
  split; [exact Hok|exact Hrec].
Defined.

(** X2 at the retired KMB notice, with a URL that is refused. *)
Lemma addNotice_existing_reactivates_instance :
  record retired_world (code_string (code KMB_COMPANY)) (route (sample_notice "N1" "1" true))
    (notice_id (sample_notice "N1" "1" true)) = Some (sample_notice "N1" "1" false)
  /\ fst (addNotice failing_env (sample_notice "N1" "1" true) KMB_COMPANY 300
            "https://example.org/N1" retired_world) = Ok tt
  /\ record (snd (addNotice failing_env (sample_notice "N1" "1" true) KMB_COMPANY 300
                    "https://example.org/N1" retired_world))
       (code_string (code KMB_COMPANY)) (route (sample_notice "N1" "1" true))
       (notice_id (sample_notice "N1" "1" true))
     = Some (set_isActive true (set_lastSeenAt 300 (sample_notice "N1" "1" false)))
  /\ pdf_files (snd (addNotice failing_env (sample_notice "N1" "1" true) KMB_COMPANY 300
                       "https://example.org/N1" retired_world))
     = pdf_files retired_world.
Proof.
  split; [reflexivity|].
  apply (addNotice_existing_reactivates failing_env (sample_notice "N1" "1" true)
           KMB_COMPANY 300 "https://example.org/N1" retired_world
           (sample_notice "N1" "1" false)).
  reflexivity.
Defined.

(** X4 at the active KMB notice. *)
Lemma markInactive_retires_instance :
  record active_world (code_string (code KMB_COMPANY)) "1" "N1"
    = Some (sample_notice "N1" "1" true)
  /\ record (snd (markInactive "1" "N1" KMB_COMPANY active_world))
       (code_string (code KMB_COMPANY)) "1" "N1"
     = Some (set_isActive false (sample_notice "N1" "1" true))
  /\ noticeExistsInMetadata KMB_COMPANY "1" "N1"
       (snd (markInactive "1" "N1" KMB_COMPANY active_world))
     = (Ok true, snd (markInactive "1" "N1" KMB_COMPANY active_world))
  /\ pdf_files (snd (markInactive "1" "N1" KMB_COMPANY active_world))
     = pdf_files active_world.
Proof.
  split; [reflexivity|].
  apply (markInactive_retires KMB_COMPANY "1" "N1" active_world
           (sample_notice "N1" "1" true)).
  reflexivity.
Defined.

(** X5 at a retirement of a KMB key, read at the Citybus key of the same
    route and id. *)
Lemma mutation_frame_instance :
  op_key (OpMarkInactive "1" "N1" KMB_COMPANY) ≠ ("CTB", "1", "N1")
  /\ record (snd (apply_op reporting_env (OpMarkInactive "1" "N1" KMB_COMPANY) active_world))
       "CTB" "1" "N1"
     = record active_world "CTB" "1" "N1".
Proof.
  assert (Hne : op_key (OpMarkInactive "1" "N1" KMB_COMPANY) ≠ ("CTB", "1", "N1")).
  { intros Heq. discriminate Heq. }
  split; [exact Hne|].
  apply (mutation_frame reporting_env (OpMarkInactive "1" "N1" KMB_COMPANY) active_world
           "CTB" "1" "N1" Hne).
Defined.

(** X7 at route [1A] and notice id [N1.pdf]. *)
Lemma noticeKey_injective_instance :
  has_char ":" "1A" = false
  /\ has_char ":" "N1.pdf" = false
  /\ "1A" ++ ":" ++ "N1.pdf" = "1A" ++ ":" ++ "N1.pdf"
  /\ "1A" = "1A" /\ "N1.pdf" = "N1.pdf".
Proof.
  split; [reflexivity|]. split; [reflexivity|]. split; [reflexivity|].
  apply (noticeKey_injective "1A" "N1.pdf" "1A" "N1.pdf"); reflexivity.
Defined.

(** X8 at route [1A] and the notice id [N1:v2]. *)
Lemma decodeKey_cuts_notice_id_instance :
  has_char ":" "1A" = false
  /\ decodeKey ("1A" ++ ":" ++ "N1:v2") = ("1A", hd "" (split ":" "N1:v2"))
  /\ (has_char ":" "N1:v2" = true -> snd (decodeKey ("1A" ++ ":" ++ "N1:v2")) ≠ "N1:v2").
Proof.
  split; [reflexivity|].
  apply (decodeKey_cuts_notice_id "1A" "N1:v2"). reflexivity.
Defined.

(** X9 at a catalogue of eleven Citybus routes. *)
Lemma fetchCTBRoutes_unique_instance :
  ctb_route_api eleven_routes_env
    = Payload ["1"; "2"; "3"; "4"; "5"; "6"; "7"; "8"; "9"; "10"; "11"]
  /\ exists routes,
       fetchCTBRoutes eleven_routes_env = Ok routes
       /\ NoDup (map r_route routes)
       /\ (forall r, r ∈ map r_route routes
                     <-> r ∈ ["1"; "2"; "3"; "4"; "5"; "6"; "7"; "8"; "9"; "10"; "11"])
       /\ (forall l1 r l2,
             map r_route routes = (l1 ++ r :: l2)%list ->
             exists pre post,
               ["1"; "2"; "3"; "4"; "5"; "6"; "7"; "8"; "9"; "10"; "11"]
                 = (pre ++ r :: post)%list
               /\ (r ∉ pre) /\ forall a, a ∈ l1 <-> a ∈ pre)
       /\ Forall (fun rt => bound rt = None) routes.
Proof.
  split; [reflexivity|].
  apply (fetchCTBRoutes_unique eleven_routes_env). reflexivity.
Defined.

(** X10 at a catalogue of one KMB route. *)
Lemma fetchKMBRoutes_unique_instance :
  kmb_route_api reporting_env = Payload [("1", 1)]
  /\ exists routes,
       fetchKMBRoutes reporting_env = Ok routes
       /\ NoDup (map route_key routes)
       /\ (forall k, k ∈ map route_key routes
                     <-> k ∈ map route_key (map kmb_route [("1", 1)]))
       /\ (forall l1 rt l2,
             routes = (l1 ++ rt :: l2)%list ->
             exists pre post,
               map kmb_route [("1", 1)] = (pre ++ rt :: post)%list
               /\ (route_key rt ∉ map route_key pre)
               /\ forall k, k ∈ map route_key l1 <-> k ∈ map route_key pre).
Proof.
  split; [reflexivity|].
  apply (fetchKMBRoutes_unique reporting_env). reflexivity.
Defined.

(** X11 at the retired KMB notice, reported again. *)
Lemma scraper_keeps_records_instance :
  Scraper reporting_env 200 (scrapeKMB reporting_env 200) KMB_COMPANY
    (fetchKMBNotices reporting_env) [mkRoute "1" (Some 1)]
  /\ record retired_world "KMB" "1" "N1" = Some (sample_notice "N1" "1" false)
  /\ exists y,
       record (snd (scrapeKMB reporting_env 200 retired_world)) "KMB" "1" "N1" = Some y
       /\ notice_id y = notice_id (sample_notice "N1" "1" false)
       /\ pdfUrl y = pdfUrl (sample_notice "N1" "1" false)
       /\ route y = route (sample_notice "N1" "1" false)
       /\ discoveredAt y = discoveredAt (sample_notice "N1" "1" false)
       /\ (lastSeenAt y = lastSeenAt (sample_notice "N1" "1" false) \/ lastSeenAt y = Some 200)
       /\ (isActive y = true -> isActive (sample_notice "N1" "1" false) = true).
Proof.
  assert (Hs : Scraper reporting_env 200 (scrapeKMB reporting_env 200) KMB_COMPANY
                 (fetchKMBNotices reporting_env) [mkRoute "1" (Some 1)]).
  { apply (Scraper_KMB reporting_env 200 [mkRoute "1" (Some 1)]). reflexivity. }
  split; [exact Hs|]. split; [reflexivity|].
  apply (scraper_keeps_records reporting_env 200 _ _ _ _ retired_world "KMB" "1" "N1"
           (sample_notice "N1" "1" false) Hs).
  reflexivity.
Defined.

(** X12 at a KMB run, read at a Citybus key. *)
Lemma scraper_leaves_other_companies_instance :
  Scraper reporting_env 200 (scrapeKMB reporting_env 200) KMB_COMPANY
    (fetchKMBNotices reporting_env) [mkRoute "1" (Some 1)]
  /\ "CTB" ≠ code_string (code KMB_COMPANY)
  /\ record (snd (scrapeKMB reporting_env 200 eleventh_route_world)) "CTB" "11" "N1"
     = record eleventh_route_world "CTB" "11" "N1".
Proof.
  assert (Hs : Scraper reporting_env 200 (scrapeKMB reporting_env 200) KMB_COMPANY
                 (fetchKMBNotices reporting_env) [mkRoute "1" (Some 1)]).
  { apply (Scraper_KMB reporting_env 200 [mkRoute "1" (Some 1)]). reflexivity. }
  assert (Hne : "CTB" ≠ code_string (code KMB_COMPANY)).
  { intros Heq. discriminate Heq. }
  split; [exact Hs|]. split; [exact Hne|].
  apply (scraper_leaves_other_companies reporting_env 200 _ _ _ _ eleventh_route_world
           "CTB" "11" "N1" Hs Hne).
Defined.

(** X13 at the KMB notice that a run inserts into an empty store. *)
Lemma scraper_inserts_with_document_instance :
  Scraper reporting_env 200 (scrapeKMB reporting_env 200) KMB_COMPANY
    (fetchKMBNotices reporting_env) [mkRoute "1" (Some 1)]
  /\ record empty_world (code_string (code KMB_COMPANY)) "1" "N1" = None
  /\ record (snd (scrapeKMB reporting_env 200 empty_world)) (code_string (code KMB_COMPANY))
       "1" "N1"
     = Some (mkNotice "N1" (KMB_PDF_API "n1.pdf") "1" 200 true None)
  /\ noticeExists reporting_env KMB_COMPANY "1" "N1" 200
       (snd (scrapeKMB reporting_env 200 empty_world))
     = (Ok true, snd (scrapeKMB reporting_env 200 empty_world)).
Proof.
  assert (Hs : Scraper reporting_env 200 (scrapeKMB reporting_env 200) KMB_COMPANY
                 (fetchKMBNotices reporting_env) [mkRoute "1" (Some 1)]).
  { apply (Scraper_KMB reporting_env 200 [mkRoute "1" (Some 1)]). reflexivity. }
  assert (Hy : record (snd (scrapeKMB reporting_env 200 empty_world))
                 (code_string (code KMB_COMPANY)) "1" "N1"
               = Some (mkNotice "N1" (KMB_PDF_API "n1.pdf") "1" 200 true None)).
  { vm_compute. reflexivity. }
  split; [exact Hs|]. split; [reflexivity|]. split; [exact Hy|].
  apply (scraper_inserts_with_document reporting_env 200 _ _ _ _ empty_world "1" "N1"
           (mkNotice "N1" (KMB_PDF_API "n1.pdf") "1" 200 true None) Hs eq_refl Hy).
Defined.

(** X14 at a document of a notice that the next run retires. *)
Lemma scraper_keeps_documents_instance :
  Scraper eleven_routes_env 300 (scrapeKMB eleven_routes_env 300) KMB_COMPANY
    (fetchKMBNotices eleven_routes_env) (map kmb_route
       [("1", 1); ("2", 1); ("3", 1); ("4", 1); ("5", 1); ("6", 1); ("7", 1);
        ("8", 1); ("9", 1); ("10", 1); ("11", 1)])
  /\ is_Some (pdf_files (snd (scrapeKMB reporting_env 200 empty_world))
                !! "/app/data/KMB/1/1970/01/N1.pdf")
  /\ is_Some (pdf_files (snd (scrapeKMB eleven_routes_env 300
                                (snd (scrapeKMB reporting_env 200 empty_world))))
                !! "/app/data/KMB/1/1970/01/N1.pdf").
Proof.
  assert (Hs : Scraper eleven_routes_env 300 (scrapeKMB eleven_routes_env 300) KMB_COMPANY
                 (fetchKMBNotices eleven_routes_env) (map kmb_route
                    [("1", 1); ("2", 1); ("3", 1); ("4", 1); ("5", 1); ("6", 1); ("7", 1);
                     ("8", 1); ("9", 1); ("10", 1); ("11", 1)])).
  { apply (Scraper_KMB eleven_routes_env 300). reflexivity. }
  assert (Hdoc : is_Some (pdf_files (snd (scrapeKMB reporting_env 200 empty_world))
                            !! "/app/data/KMB/1/1970/01/N1.pdf")).
  { exists "%PDF". vm_compute. reflexivity. }
  split; [exact Hs|]. split; [exact Hdoc|].
  apply (scraper_keeps_documents eleven_routes_env 300 _ _ _ _
           (snd (scrapeKMB reporting_env 200 empty_world))
           "/app/data/KMB/1/1970/01/N1.pdf" Hs Hdoc).
Defined.

(** X15 at a source that does not answer, and at a KMB run over the
    active notice. *)
Lemma scraper_outcome_instance :
  (fetchKMBRoutes offline_env = Throw "fetch failed"
   /\ scrapeKMB offline_env 200 active_world = (Throw "fetch failed", active_world)
   /\ scrapeKMB_capped offline_env 200 active_world = (Throw "fetch failed", active_world))
  /\ (fetchCTBRoutes offline_env = Throw "fetch failed"
      /\ scrapeCTB offline_env 200 active_world = (Throw "fetch failed", active_world))
  /\ Scraper reporting_env 200 (scrapeKMB reporting_env 200) KMB_COMPANY
       (fetchKMBNotices reporting_env) [mkRoute "1" (Some 1)]
  /\ plain_reports (fetchKMBNotices reporting_env) [mkRoute "1" (Some 1)]
  /\ colon_free_keys (code_string (code KMB_COMPANY)) active_world
  /\ fst (scrapeKMB reporting_env 200 active_world) = Ok tt.
Proof.
  assert (Hs : Scraper reporting_env 200 (scrapeKMB reporting_env 200) KMB_COMPANY
                 (fetchKMBNotices reporting_env) [mkRoute "1" (Some 1)]).
  { apply (Scraper_KMB reporting_env 200 [mkRoute "1" (Some 1)]). reflexivity. }
  destruct (scraper_outcome offline_env 200 active_world) as (Hkmb & Hctb & _).
  destruct (scraper_outcome reporting_env 200 active_world) as (_ & _ & Hrun).
  split; [split; [reflexivity|apply (Hkmb "fetch failed" eq_refl)]|].
  split; [split; [reflexivity|apply (Hctb "fetch failed" eq_refl)]|].
  split; [exact Hs|]. split; [exact reporting_env_plain|].
  split; [exact active_world_colon_free|].
  exact (Hrun _ _ _ _ Hs reporting_env_plain active_world_colon_free).
Defined.

(** X16 at the notice that the KMB source reports. *)
Lemma scraper_records_reported_instance :
  Scraper reporting_env 200 (scrapeKMB reporting_env 200) KMB_COMPANY
    (fetchKMBNotices reporting_env) [mkRoute "1" (Some 1)]
  /\ plain_reports (fetchKMBNotices reporting_env) [mkRoute "1" (Some 1)]
  /\ downloads_ok reporting_env (fetchKMBNotices reporting_env) [mkRoute "1" (Some 1)]
  /\ reports (fetchKMBNotices reporting_env) [mkRoute "1" (Some 1)] "1" "N1"
  /\ noticeExistsInMetadata KMB_COMPANY "1" "N1" (snd (scrapeKMB reporting_env 200 empty_world))
     = (Ok true, snd (scrapeKMB reporting_env 200 empty_world)).
Proof.
  assert (Hs : Scraper reporting_env 200 (scrapeKMB reporting_env 200) KMB_COMPANY
                 (fetchKMBNotices reporting_env) [mkRoute "1" (Some 1)]).
  { apply (Scraper_KMB reporting_env 200 [mkRoute "1" (Some 1)]). reflexivity. }
  assert (Hrep : reports (fetchKMBNotices reporting_env) [mkRoute "1" (Some 1)] "1" "N1").
  { apply reporting_env_reports. split; reflexivity. }
  split; [exact Hs|]. split; [exact reporting_env_plain|].
  split; [exact reporting_env_downloads|]. split; [exact Hrep|].
  apply (scraper_records_reported reporting_env 200 _ _ _ _ empty_world "1" "N1" Hs
           reporting_env_plain reporting_env_downloads Hrep).
Defined.

(** X17 at the Citybus notice of the eleventh route, which no route
    reports. *)
Lemma scraper_retires_unreported_instance :
  Scraper eleven_routes_env 200 (scrapeCTB eleven_routes_env 200) CTB_COMPANY
    (fetchCTBNotices eleven_routes_env)
    (take 10 (map (fun r => mkRoute r None)
                ["1"; "2"; "3"; "4"; "5"; "6"; "7"; "8"; "9"; "10"; "11"]))
  /\ record eleventh_route_world (code_string (code CTB_COMPANY)) "11" "N1"
     = Some (sample_notice "N1" "11" true)
  /\ ~ reports (fetchCTBNotices eleven_routes_env)
         (take 10 (map (fun r => mkRoute r None)
                     ["1"; "2"; "3"; "4"; "5"; "6"; "7"; "8"; "9"; "10"; "11"])) "11" "N1"
  /\ fst (scrapeCTB eleven_routes_env 200 eleventh_route_world) = Ok tt
  /\ record (snd (scrapeCTB eleven_routes_env 200 eleventh_route_world))
       (code_string (code CTB_COMPANY)) "11" "N1"
     = Some (set_isActive false (sample_notice "N1" "11" true)).
Proof.
  assert (Hs : Scraper eleven_routes_env 200 (scrapeCTB eleven_routes_env 200) CTB_COMPANY
                 (fetchCTBNotices eleven_routes_env)
                 (take 10 (map (fun r => mkRoute r None)
                             ["1"; "2"; "3"; "4"; "5"; "6"; "7"; "8"; "9"; "10"; "11"]))).
  { apply (Scraper_CTB eleven_routes_env 200). reflexivity. }
  assert (Hok : fst (scrapeCTB eleven_routes_env 200 eleventh_route_world) = Ok tt).
  { vm_compute. reflexivity. }
  split; [exact Hs|]. split; [reflexivity|].
  split; [apply eleven_routes_env_reports|]. split; [exact Hok|].
  apply (scraper_retires_unreported eleven_routes_env 200 _ _ _ _ eleventh_route_world
           "11" "N1" (sample_notice "N1" "11" true) Hs);
    [reflexivity..|apply eleven_routes_env_reports|exact Hok].
Defined.

(** X18 at the active KMB notice, reported again. *)
Lemma scraper_confirms_reported_instance :
  Scraper reporting_env 200 (scrapeKMB reporting_env 200) KMB_COMPANY
    (fetchKMBNotices reporting_env) [mkRoute "1" (Some 1)]
  /\ plain_reports (fetchKMBNotices reporting_env) [mkRoute "1" (Some 1)]
  /\ downloads_ok reporting_env (fetchKMBNotices reporting_env) [mkRoute "1" (Some 1)]
  /\ colon_free_keys (code_string (code KMB_COMPANY)) active_world
  /\ reports (fetchKMBNotices reporting_env) [mkRoute "1" (Some 1)] "1" "N1"
  /\ record (snd (scrapeKMB reporting_env 200 active_world)) (code_string (code KMB_COMPANY))
       "1" "N1"
     = Some (set_lastSeenAt 200 (sample_notice "N1" "1" true))
  /\ isActive (set_lastSeenAt 200 (sample_notice "N1" "1" true)) = true.
Proof.
  assert (Hs : Scraper reporting_env 200 (scrapeKMB reporting_env 200) KMB_COMPANY
                 (fetchKMBNotices reporting_env) [mkRoute "1" (Some 1)]).
  { apply (Scraper_KMB reporting_env 200 [mkRoute "1" (Some 1)]). reflexivity. }
  assert (Hrep : reports (fetchKMBNotices reporting_env) [mkRoute "1" (Some 1)] "1" "N1").
  { apply reporting_env_reports. split; reflexivity. }
  split; [exact Hs|]. split; [exact reporting_env_plain|].
  split; [exact reporting_env_downloads|]. split; [exact active_world_colon_free|].
  split; [exact Hrep|].
  apply (scraper_confirms_reported reporting_env 200 _ _ _ _ active_world "1" "N1"
           (sample_notice "N1" "1" true) Hs reporting_env_plain reporting_env_downloads
           active_world_colon_free eq_refl eq_refl Hrep).
Defined.

(** X19 at a run marked at 07:00 and a guard asked at 09:00 of the same
    day, on UTC. *)
Lemma hasRunToday_after_markAsRun_instance :
  25200000 <= 32400000
  /\ timezoneOffset scheduled_env 25200000 = timezoneOffset scheduled_env 32400000
  /\ (hasRunToday scheduled_env 32400000 (markAsRun 25200000 (mkProcess None)) = true
      <-> local_days scheduled_env 25200000 = local_days scheduled_env 32400000
          /\ 6 * 3600000 <= local_time_of_day scheduled_env 25200000).
Proof.
  split; [lia|]. split; [reflexivity|].
  apply (hasRunToday_after_markAsRun scheduled_env 25200000 32400000 (mkProcess None));
    [lia|reflexivity].
Defined.

(** X20 at the hour of the schedule, 22:00 UTC, which is 06:00 in Hong
    Kong. *)
Lemma getHongKongTime_instance :
  timezoneOffset scheduled_env (getHongKongTime scheduled_env)
    = timezoneOffset scheduled_env (clock scheduled_env)
  /\ local_time_of_day scheduled_env (getHongKongTime scheduled_env) = 6 * 3600000
  /\ hasRunToday scheduled_env (getHongKongTime scheduled_env)
       (markAsRun (getHongKongTime scheduled_env) (mkProcess None)) = true.
Proof.
  split; [reflexivity|].
  destruct (getHongKongTime_is_hong_kong_wall_clock scheduled_env (mkProcess None) eq_refl)
    as (_ & Htime & Hguard).
  split; [rewrite Htime; reflexivity|].
  apply Hguard. vm_compute. discriminate.
Defined.
